(** * Sprite-sheet exporter: frame capture, sequencing and frame editing

    A shallow embedding of the hooks of the sprite-sheet exporter
    ([useExport], [useFrameEditor], [useSafeModelCalibration], [useAnimation])
    and of the multi-angle controller ([SafeMultiExport]).

    Conventions.
    - JavaScript numbers that hold counts, indices and pixel sizes are [Z].
      Where the rounding of a double decides what the code does (the frame
      count of a clip, the number in a file name) the number is a binary64
      double, [JsNum.double].  The lengths, angles and ratios of the
      calibration and of the capture are exact rationals [Q]: there the
      embedding idealises IEEE rounding.
    - React state is passed explicitly; a hook's callbacks are functions from
      the state before to the state after.
    - Code that can throw runs in the monad [Eff.M], which keeps the state
      reached when the exception was raised, as a JavaScript heap does. *)

From Stdlib Require Import ZArith QArith Qround Qabs Qminmax Lia Lqa List String Ascii.
From Stdlib Require Import Permutation Sorted.
From Stdlib Require SpecFloat.
From stdpp Require Import base list gmap strings pretty.
From Equations Require Import Equations.
Import ListNotations.

(* ===================================================================== *)
(** * Numbers *)
(* ===================================================================== *)

Module JsNum.

(** [Math.round]: nearest integer, halves towards plus infinity. *)
Definition round (x : Q) : Z := Qfloor (x + (1 # 2)).

(** [Math.floor] and [Math.ceil] of a quotient of two integers. *)
Definition floor_quot (a b : Z) : Z := (a / b)%Z.
Definition ceil_quot (a b : Z) : Z := (- ((- a) / b))%Z.

(** [Math.ceil(Math.sqrt(n))] on a count. *)
Definition ceil_sqrt (n : Z) : Z := Z.sqrt_up n.

(** An integer-valued JavaScript number that may have left the integers:
    the quotient by zero is an infinity (or NaN for 0/0). *)
Inductive jsint : Type :=
| Int (z : Z)
| PosInf
| NegInf
| NaN.

(** [Math.floor(a / b)] for integers [a] and [b]. *)
Definition floor_div (a b : Z) : jsint :=
  if (b =? 0)%Z then
    (if (0 <? a)%Z then PosInf else if (a <? 0)%Z then NegInf else NaN)
  else Int (a / b)%Z.

(** [Math.max(1, x)]. *)
Definition max_one (x : jsint) : jsint :=
  match x with
  | Int z => Int (Z.max 1 z)
  | PosInf => PosInf
  | NegInf => Int 1
  | NaN => NaN
  end.

(** A string is truthy when it is present and not empty. *)
Definition truthy (s : option string) : option string :=
  match s with
  | Some EmptyString => None
  | other => other
  end.

(** ** Doubles

    A JavaScript number is an IEEE 754 binary64 value: the [spec_float] of
    the Standard Library at precision 53 and maximal exponent 1024, whose
    operations round to nearest, ties to even. *)
Definition double : Type := SpecFloat.spec_float.

Definition mul : double -> double -> double := SpecFloat.SFmul 53 1024.

(** The double that an integer literal denotes. *)
Definition ofZ (z : Z) : double := SpecFloat.binary_normalize 53 1024 z 0 false.

(** The real number that a finite double is. *)
Definition exact (x : double) : option Q :=
  match x with
  | SpecFloat.S754_zero _ => Some 0%Q
  | SpecFloat.S754_finite s m e =>
      let v := (inject_Z (Z.pos m) * (2 # 1) ^ e)%Q in
      Some (if s then (- v)%Q else v)
  | _ => None
  end.

(** [Math.floor]. *)
Definition floor (x : double) : jsint :=
  match x with
  | SpecFloat.S754_zero _ => Int 0
  | SpecFloat.S754_infinity s => if s then NegInf else PosInf
  | SpecFloat.S754_nan => NaN
  | SpecFloat.S754_finite s m e =>
      let signed := (if s then Z.neg m else Z.pos m) in
      Int (if (0 <=? e)%Z then signed * 2 ^ e else signed / 2 ^ (- e))%Z
  end.

(** The integer of 53 bits, times a power of two, nearest to [n >= 0];
    of two that are as near, the one whose 53 bits make an even number. *)
Definition round53 (n : Z) : Z :=
  let k := (Z.log2 n + 1 - 53)%Z in
  if (k <=? 0)%Z then n
  else
    let q := Z.shiftr n k in
    let r := (n - Z.shiftl q k)%Z in
    let half := Z.shiftl 1 (k - 1) in
    let q' := if (half <? r)%Z || ((r =? half)%Z && Z.odd q) then (q + 1)%Z else q in
    Z.shiftl q' k.

(** The number value of an integer: the nearest double, which is an integer
    again, or an infinity from [2^1024 - 2^970] on. *)
Definition toNumber (z : Z) : jsint :=
  let v := round53 (Z.abs z) in
  if (2 ^ 1024 <=? v)%Z then (if (0 <? z)%Z then PosInf else NegInf)
  else Int (Z.sgn z * v)%Z.

(** [a - b] on two such numbers. *)
Definition minus (a b : jsint) : jsint :=
  match a, b with
  | NaN, _ | _, NaN => NaN
  | Int x, Int y => toNumber (x - y)
  | PosInf, PosInf | NegInf, NegInf => NaN
  | PosInf, _ | _, NegInf => PosInf
  | NegInf, _ | _, PosInf => NegInf
  end.

(** Where a number stands among the others: the infinities lie beyond every
    double. *)
Definition rank (v : jsint) : Z :=
  match v with
  | Int z => z
  | PosInf => (2 ^ 1024)%Z
  | NegInf => (- 2 ^ 1024)%Z
  | NaN => 0%Z
  end.

(** The numbers that [toNumber] gives: an integer within the range of the
    doubles, or an infinity. *)
Definition numeric (v : jsint) : Prop :=
  match v with
  | Int z => (Z.abs z < 2 ^ 1024)%Z
  | NaN => False
  | _ => True
  end.

End JsNum.

(* ===================================================================== *)
(** * Frame sequencer ([useExport.exportSequence], [exportSpriteSheet]) *)
(* ===================================================================== *)

Module Sequencer.
Import JsNum.

(** [for (let i = start; i < totalFrames; i += step) out.push(i)], for a
    step that [Math.max(1, _)] has made at least one. *)
Equations? sample_from (step : positive) (totalFrames i : Z) : list Z
  by wf (Z.to_nat (totalFrames - i)) lt :=
  sample_from step totalFrames i with Z_lt_dec i totalFrames => {
    | left _ := i :: sample_from step totalFrames (i + Z.pos step);
    | right _ := [] }.
Proof. lia. Qed.

(** The sampling loop for any value of [step] that the source can compute.
    [Math.max(1, _)] leaves an integer of at least 1, plus infinity, or NaN.
    With an infinite or NaN step the loop body runs once when
    [0 < totalFrames]: [0 + step] is then not below [totalFrames]. *)
Definition sample (step : jsint) (totalFrames : Z) : list Z :=
  match step with
  | Int s => sample_from (Z.to_pos s) totalFrames 0
  | PosInf | NaN => if (0 <? totalFrames)%Z then [0%Z] else []
  | NegInf => []
  end.

(** [framesToRender[framesToRender.length - 1]]; [None] is [undefined]. *)
Definition last_frame (l : list Z) : option Z := List.last (map Some l) None.

(** The frame plan of [exportSequence] (lines 675-693). *)
Definition planFrames (totalFrames renderSteps : Z) : list Z :=
  let framesToRender :=
    if ((renderSteps =? 1) || (totalFrames <=? renderSteps))%Z
    then sample_from 1 totalFrames 0
    else
      let step := max_one (floor_div totalFrames renderSteps) in
      sample step totalFrames in
  if decide (last_frame framesToRender = Some (totalFrames - 1)%Z)
  then framesToRender
  else framesToRender ++ [(totalFrames - 1)%Z].

(** ** The plan in the words of the specification *)

(** The indices [0, step, 2*step, ...] below [totalFrames]. *)
Definition multiples_below (step totalFrames : Z) : list Z :=
  map (fun k => (Z.of_nat k * step)%Z)
      (seq 0 (Z.to_nat (ceil_quot totalFrames step))).

(** Every index [0 .. totalFrames-1]. *)
Definition every_index (totalFrames : Z) : list Z :=
  map Z.of_nat (seq 0 (Z.to_nat totalFrames)).

(** "The final index is force-appended if not already last". *)
Definition force_last (totalFrames : Z) (l : list Z) : list Z :=
  if decide (last_frame l = Some (totalFrames - 1)%Z) then l
  else l ++ [(totalFrames - 1)%Z].

Definition planFrames_spec (totalFrames renderSteps : Z) : list Z :=
  if ((renderSteps <=? 1) || (totalFrames <=? renderSteps))%Z
  then every_index totalFrames
  else
    let step := Z.max 1 (floor_quot totalFrames renderSteps) in
    force_last totalFrames (multiples_below step totalFrames).

(** ** Sprite-sheet layout of [exportSpriteSheet] (lines 493-548) *)

Record SheetLayout : Type := mkLayout {
  columns : Z;
  rows : Z;
  sheetWidth : Z;
  sheetHeight : Z
}.

(** [columns = Math.ceil(Math.sqrt(frameCount))],
    [rows = Math.ceil(frameCount / columns)], canvas of
    [width * columns] by [height * rows]. *)
Definition spriteSheetLayout (width height frameCount : Z) : SheetLayout :=
  let columns := ceil_sqrt frameCount in
  let rows := ceil_quot frameCount columns in
  mkLayout columns rows (width * columns)%Z (height * rows)%Z.

(** Grid cell [(col, row)] of the [i]-th planned frame. *)
Definition cellOf (columns i : Z) : Z * Z := ((i mod columns)%Z, (i / columns)%Z).

(** Pixel position [(x, y)] at which the [i]-th frame is drawn. *)
Definition drawPosition (width height columns i : Z) : Z * Z :=
  let '(col, row) := cellOf columns i in ((col * width)%Z, (row * height)%Z).

End Sequencer.

(* ===================================================================== *)
(** * Effects: state that survives exceptions *)
(* ===================================================================== *)

Module Eff.

(** A computation over a mutable store [S] that returns [inr a] or throws
    [inl e]; either way the store is the one reached at that point. *)
Definition M (S E A : Type) : Type := S -> (E + A) * S.

#[global] Instance M_ret {S E} : MRet (M S E) :=
  fun A (a : A) s => (inr a, s).

#[global] Instance M_bind {S E} : MBind (M S E) :=
  fun A B (f : A -> M S E B) (c : M S E A) s =>
    match c s with
    | (inr a, s1) => f a s1
    | (inl e, s1) => (inl e, s1)
    end.

Section Ops.
Context {S E : Type}.

Definition ret {A} (a : A) : M S E A := mret a.
Definition throw {A} (e : E) : M S E A := fun s => (inl e, s).
Definition gets {A} (f : S -> A) : M S E A := fun s => (inr (f s), s).
Definition modify (f : S -> S) : M S E unit := fun s => (inr tt, f s).

(** [try { body } finally { fin }]: [fin] always runs; an exception of
    [fin] replaces the outcome of [body]. *)
Definition try_finally {A} (body : M S E A) (fin : M S E unit) : M S E A :=
  fun s =>
    let '(r, s1) := body s in
    match fin s1 with
    | (inr _, s2) => (r, s2)
    | (inl e, s2) => (inl e, s2)
    end.

(** [try { body } catch (e) { handler(e) }]. *)
Definition try_catch {A} (body : M S E A) (handler : E -> M S E A) : M S E A :=
  fun s =>
    match body s with
    | (inr a, s1) => (inr a, s1)
    | (inl e, s1) => handler e s1
    end.

(** [for (const x of l) { body(i, x) }] with the index [i]. *)
Fixpoint for_each {A} (body : nat -> A -> M S E unit) (i : nat) (l : list A)
  : M S E unit :=
  match l with
  | [] => ret tt
  | x :: rest => body i x ≫= fun _ => for_each body (Datatypes.S i) rest
  end.

(** A loop that collects one result per element. *)
Fixpoint collect {A B} (body : nat -> A -> M S E B) (i : nat) (l : list A)
  : M S E (list B) :=
  match l with
  | [] => ret []
  | x :: rest =>
      b ← body i x;
      bs ← collect body (Datatypes.S i) rest;
      ret (b :: bs)
  end.

End Ops.

End Eff.

(* ===================================================================== *)
(** * Render capture ([useExport.renderFrame], lines 221-410) *)
(* ===================================================================== *)

Module Capture.
Import Eff.

Record Vector3 : Type := mkVector3 { v_x : Q; v_y : Q; v_z : Q }.
Record Euler : Type := mkEuler { e_x : Q; e_y : Q; e_z : Q; e_order : string }.
Record Color : Type := mkColor { c_r : Q; c_g : Q; c_b : Q }.

(** [scene.background]: [null], a colour or a texture handle. *)
Inductive Background : Type :=
| NoBackground
| ColorBackground (c : Color)
| TextureBackground (handle : nat).

(** The camera's projection, by class of camera. *)
Inductive Projection : Type :=
| PerspectiveCamera (aspect fov far near : Q)
| OrthographicCamera (c_left c_right c_top c_bottom far near : Q)
| OtherCamera.

Record Camera : Type := mkCamera {
  position : Vector3;
  rotation : Euler;
  zoom : Q;
  projection : Projection
}.

(** The part of a [THREE.WebGLRenderer] that [renderFrame] reads or writes:
    the logical size, the pixel ratio, the clear colour and alpha, and the
    pixel size of [renderer.domElement]. *)
Record Renderer : Type := mkRenderer {
  r_width : Q;
  r_height : Q;
  pixelRatio : Q;
  clearColor : Color;
  clearAlpha : Q;
  dom_width : Z;
  dom_height : Z
}.

(** An [EffectComposer] with the size of each pass; [None] is a pass
    without a [setSize] method. *)
Record Composer : Type := mkComposer {
  composer_size : Q * Q;
  passes : list (option (Q * Q))
}.

Record World : Type := mkWorld {
  renderer : Renderer;
  background : Background;
  camera : Camera;
  composer : option Composer
}.

(** What the platform underneath can refuse: a render call may throw, and
    [getContext('2d')] may return [null]. *)
Record Platform : Type := mkPlatform {
  renderThrows : Z -> bool;
  context2d : bool
}.

Inductive Error : Type := Err (message : string).

(** ** The three.js calls, as three.js documents them *)

(** [renderer.setSize(w, h, false)]: the logical size, and the canvas in
    device pixels. *)
Definition setSize (w h : Q) (r : Renderer) : Renderer :=
  mkRenderer w h (pixelRatio r) (clearColor r) (clearAlpha r)
             (Qfloor (w * pixelRatio r)) (Qfloor (h * pixelRatio r)).

(** [renderer.setPixelRatio(v)] stores the ratio and re-applies the size. *)
Definition setPixelRatio (v : Q) (r : Renderer) : Renderer :=
  setSize (r_width r) (r_height r)
    (mkRenderer (r_width r) (r_height r) v (clearColor r) (clearAlpha r)
                (dom_width r) (dom_height r)).

Definition setClearColor (c : Color) (alpha : Q) (r : Renderer) : Renderer :=
  mkRenderer (r_width r) (r_height r) (pixelRatio r) c alpha
             (dom_width r) (dom_height r).

Definition composer_setSize (w h : Q) (c : Composer) : Composer :=
  mkComposer (w, h) (passes c).

(** [composer.passes.forEach(pass => { if (pass.setSize) pass.setSize(w, h) })]. *)
Definition passes_setSize (w h : Q) (c : Composer) : Composer :=
  mkComposer (composer_size c) (map (fmap (fun _ => (w, h))) (passes c)).

(** ** Store updates *)

Definition with_renderer (f : Renderer -> Renderer) (s : World) : World :=
  mkWorld (f (renderer s)) (background s) (camera s) (composer s).
Definition with_background (b : Background) (s : World) : World :=
  mkWorld (renderer s) b (camera s) (composer s).
Definition with_camera (f : Camera -> Camera) (s : World) : World :=
  mkWorld (renderer s) (background s) (f (camera s)) (composer s).
Definition with_composer (f : Composer -> Composer) (s : World) : World :=
  mkWorld (renderer s) (background s) (camera s) (f <$> composer s).
Definition with_projection (p : Projection) (c : Camera) : Camera :=
  mkCamera (position c) (rotation c) (zoom c) p.

(** ** The snapshot taken before the [try] (lines 222-256) *)

Record Snapshot : Type := mkSnapshot {
  originalSize : Q * Q;
  originalClearColor : Color;
  originalClearAlpha : Q;
  originalBackgroundColor : Background;
  originalPixelRatio : Q;
  originalCameraPosition : Vector3;
  originalCameraRotation : Euler;
  originalCameraZoom : Q;
  originalCameraAspect : option Q;
  originalCameraFov : option Q;
  originalCameraFar : option Q;
  originalCameraNear : option Q;
  originalCameraLeft : option Q;
  originalCameraRight : option Q;
  originalCameraTop : option Q;
  originalCameraBottom : option Q
}.

Definition takeSnapshot (s : World) : Snapshot :=
  let r := renderer s in
  let c := camera s in
  let base := mkSnapshot (r_width r, r_height r) (clearColor r) (clearAlpha r)
                (background s) (pixelRatio r) (position c) (rotation c) (zoom c) in
  match projection c with
  | PerspectiveCamera aspect fov far near =>
      base (Some aspect) (Some fov) (Some far) (Some near) None None None None
  | OrthographicCamera l r t b far near =>
      base None None (Some far) (Some near) (Some l) (Some r) (Some t) (Some b)
  | OtherCamera => base None None None None None None None None
  end.

(** ** The capture-time settings (lines 259-306) *)

Definition black : Color := mkColor 0 0 0.

(** The camera's aspect follows the export size: a perspective camera gets
    the new [aspect]; an orthographic one keeps its height and widens or
    narrows symmetrically. *)
Definition fitCamera (aspectRatio : Q) (c : Camera) : Camera :=
  match projection c with
  | PerspectiveCamera _ fov far near =>
      with_projection (PerspectiveCamera aspectRatio fov far near) c
  | OrthographicCamera l r t b far near =>
      let currentHeight := (t - b)%Q in
      let currentWidth := (r - l)%Q in
      let newWidth := (currentHeight * aspectRatio)%Q in
      let widthDiff := (newWidth - currentWidth)%Q in
      with_projection
        (OrthographicCamera (l - widthDiff / 2) (r + widthDiff / 2) t b far near) c
  | OtherCamera => c
  end.

Definition prepare (width height : Z) (s : World) : World :=
  let w := inject_Z width in
  let h := inject_Z height in
  let s := with_renderer (setSize w h) s in
  let s := with_renderer (setPixelRatio 1) s in
  let s := with_renderer (setClearColor black 0) s in
  let s := with_background NoBackground s in
  let s := with_camera (fitCamera (w / h)) s in
  with_composer (fun c => passes_setSize w h (composer_setSize w h c)) s.

(** [composer.render()] when a composer is attached, [renderer.render] if
    not; either call may throw. *)
Definition render (pf : Platform) (frameIndex : Z) : M World Error unit :=
  if renderThrows pf frameIndex then throw (Err "render failed") else ret tt.

(** ** The copy into the export canvas (lines 308-366) *)

Record Rect : Type := mkRect { sourceX : Z; sourceY : Z; sourceWidth : Z; sourceHeight : Z }.

(** The source rectangle read from a renderer canvas of [cw] by [ch] pixels
    for a target of [width] by [height] (lines 323-343).  The aspects and
    the products are exact rationals: where a product is a half-integer,
    or within a rounding error of one, the doubles of the source can round
    to the neighbouring pixel (a canvas of 282 by 161 for a target of 183
    by 138 gives 213.49999999999997 there and 213.5 here).  [prepare]
    sizes the canvas to the target, so [renderFrame] itself always takes
    the last branch. *)
Definition sourceRect (cw ch width height : Z) : Rect :=
  let rendererAspect := (inject_Z cw / inject_Z ch)%Q in
  let targetAspect := (inject_Z width / inject_Z height)%Q in
  if Qlt_le_dec (1 # 100) (Qabs (rendererAspect - targetAspect)) then
    if Qlt_le_dec targetAspect rendererAspect then
      let sourceWidth := JsNum.round (inject_Z ch * targetAspect) in
      let sourceX := JsNum.round (inject_Z (cw - sourceWidth) / 2) in
      mkRect sourceX 0 sourceWidth ch
    else
      let sourceHeight := JsNum.round (inject_Z cw / targetAspect) in
      let sourceY := JsNum.round (inject_Z (ch - sourceHeight) / 2) in
      mkRect 0 sourceY cw sourceHeight
  else mkRect 0 0 cw ch.

(** The export canvas after [drawImage]: its pixel size and the rectangle of
    the renderer canvas that was scaled into it. *)
Record Raster : Type := mkRaster {
  raster_width : Z;
  raster_height : Z;
  raster_source : Rect
}.

Definition copyToExportCanvas (pf : Platform) (width height : Z)
  : M World Error Raster :=
  if context2d pf then
    cw ← gets (fun s => dom_width (renderer s));
    ch ← gets (fun s => dom_height (renderer s));
    ret (mkRaster width height (sourceRect cw ch width height))
  else throw (Err "Could not get 2D context for export canvas").

(** ** The [finally] block (lines 367-409) *)

(** TypeScript's [x!]: the value of a variable that the guard beside it has
    shown to be defined. *)
Definition unwrap (x : option Q) : Q := default 0%Q x.

Definition restoreCamera (o : Snapshot) (c : Camera) : Camera :=
  let c := mkCamera (originalCameraPosition o) (originalCameraRotation o)
             (originalCameraZoom o) (projection c) in
  match projection c, originalCameraAspect o, originalCameraLeft o with
  | PerspectiveCamera _ _ _ _, Some aspect, _ =>
      with_projection
        (PerspectiveCamera aspect (unwrap (originalCameraFov o))
           (unwrap (originalCameraFar o)) (unwrap (originalCameraNear o))) c
  | OrthographicCamera _ _ _ _ _ _, _, Some l =>
      with_projection
        (OrthographicCamera l (unwrap (originalCameraRight o))
           (unwrap (originalCameraTop o)) (unwrap (originalCameraBottom o))
           (unwrap (originalCameraFar o)) (unwrap (originalCameraNear o))) c
  | _, _, _ => c
  end.

Definition restore (o : Snapshot) (s : World) : World :=
  let '(ow, oh) := originalSize o in
  let s := with_renderer (setSize ow oh) s in
  let s := with_renderer (setClearColor (originalClearColor o) (originalClearAlpha o)) s in
  let s := with_renderer (setPixelRatio (originalPixelRatio o)) s in
  let s := with_background (originalBackgroundColor o) s in
  let s := with_camera (restoreCamera o) s in
  with_composer (fun c => passes_setSize ow oh (composer_setSize ow oh c)) s.

(** ** [renderFrame]

    [verifyImageDimensions], awaited before the return, only logs what it
    measures and resolves; it leaves no mark here. *)

Definition renderFrame (pf : Platform) (width height : Z) (frameIndex : Z)
  : M World Error Raster :=
  o ← gets takeSnapshot;
  try_finally
    (modify (prepare width height);;
     render pf frameIndex;;
     copyToExportCanvas pf width height)
    (modify (restore o)).

(** ** What a caller can observe of the renderer, scene and camera *)

Record Observed : Type := mkObserved {
  seen_size : Q * Q;
  seen_pixelRatio : Q;
  seen_clearColor : Color;
  seen_clearAlpha : Q;
  seen_background : Background;
  seen_camera : Camera
}.

Definition observe (s : World) : Observed :=
  mkObserved (r_width (renderer s), r_height (renderer s)) (pixelRatio (renderer s))
    (clearColor (renderer s)) (clearAlpha (renderer s)) (background s) (camera s).

(** [camera instanceof ...] gives the same answers for both cameras. *)
Definition sameCameraClass (a b : Camera) : bool :=
  match projection a, projection b with
  | PerspectiveCamera _ _ _ _, PerspectiveCamera _ _ _ _ => true
  | OrthographicCamera _ _ _ _ _ _, OrthographicCamera _ _ _ _ _ _ => true
  | OtherCamera, OtherCamera => true
  | _, _ => false
  end.


End Capture.

(* ===================================================================== *)
(** * Calibration ([useSafeModelCalibration]) *)
(* ===================================================================== *)

Module Calibration.

(** A [THREE.Box3] in world space, with finite corners.  The empty box of
    three.js has infinite corners ([min] at plus infinity, [max] at minus
    infinity), which this record does not hold: an empty box is here any
    box whose corners are crossed, and what the source computes from an
    infinite corner (the ground offset of a scene without geometry) is
    outside the embedding. *)
Record Box3 : Type := mkBox3 {
  min_x : Q; min_y : Q; min_z : Q;
  max_x : Q; max_y : Q; max_z : Q
}.

(** [box.isEmpty()] and [box.getSize(target)]: an empty box has size zero. *)
Definition isEmpty (b : Box3) : bool :=
  negb (Qle_bool (min_x b) (max_x b)) || negb (Qle_bool (min_y b) (max_y b))
  || negb (Qle_bool (min_z b) (max_z b)).

Definition getSize (b : Box3) : Q * Q * Q :=
  if isEmpty b then (0, 0, 0)%Q
  else ((max_x b - min_x b)%Q, (max_y b - min_y b)%Q, (max_z b - min_z b)%Q).

(** A loaded model: [model.scene] is absent or is a scene root, of which
    [new THREE.Box3().setFromObject(model.scene)] gives the bounding box. *)
Record Model : Type := mkModel { model_scene : option Box3 }.

Record SafeModelCalibration : Type := mkCalibration {
  originalScale : Q;
  normalizedScale : Q;
  groundOffset : Q;
  frontFaceRotation : Q;
  isFrontFaceSet : bool;
  originalSize : Q * Q * Q;
  targetHeight : Q
}.

(** A division whose divisor is zero has no rational value (JavaScript gives
    an infinity or NaN): the quotient is [None] there. *)
Definition divide (a b : Q) : option Q :=
  if Qeq_bool b 0 then None else Some (a / b)%Q.

(** [originalHeight > 0 ? targetHeight / originalHeight : 1] (line 32). *)
Definition rawScale (targetHeight originalHeight : Q) : option Q :=
  if Qlt_le_dec 0 originalHeight then divide targetHeight originalHeight
  else Some 1%Q.

(** [Math.max(Math.min(s, 20), 0.5)] (lines 33-34). *)
Definition clampScale (s : Q) : Q := Qmax (Qmin s 20) (1 # 2).

(** [analyzeModel] (lines 20-63); [None] is the [null] result. *)
Definition analyzeModel (model : option Model) : option SafeModelCalibration :=
  match model ≫= model_scene with
  | None => None
  | Some box =>
      let '(size_x, size_y, size_z) := getSize box in
      let originalHeight := size_y in
      let targetHeight := (3 # 2)%Q in
      scale ← rawScale targetHeight originalHeight;
      let normalizedScale := clampScale scale in
      let groundOffset := (- min_y box * normalizedScale)%Q in
      Some (mkCalibration 1 normalizedScale groundOffset 0 false
              (size_x, size_y, size_z) targetHeight)
  end.

(** The model container of the live scene. *)
Record Container : Type := mkContainer {
  scale : Q * Q * Q;
  position_y : Q;
  rotation_y : Q
}.

(** The live scene: [scene.getObjectByName("importedModel")] finds the
    container or not. *)
Record Scene : Type := mkScene { importedModel : option Container }.

(** The hook's state with the scene it reaches through the canvas. *)
Record State : Type := mkState {
  scene : option Scene;
  calibration : option SafeModelCalibration;
  isCalibrating : bool
}.

Definition applyTo (c : SafeModelCalibration) (k : Container) : Container :=
  let s := normalizedScale c in
  mkContainer (s, s, s) (groundOffset c)
    (if isFrontFaceSet c then frontFaceRotation c else rotation_y k).

(** [applyCalibration] (lines 66-97): the boolean result and the state
    after the call. *)
Definition applyCalibration (newCalibration : SafeModelCalibration) (st : State)
  : bool * State :=
  match scene st with
  | None => (false, st)
  | Some sc =>
      match importedModel sc with
      | None => (false, st)
      | Some container =>
          (true,
           mkState (Some (mkScene (Some (applyTo newCalibration container))))
                   (Some newCalibration) (isCalibrating st))
      end
  end.

(** ** [manualCalibrate] (lines 100-116)

    The call sets [isCalibrating] and arms a timer; the timer's callback
    analyses, applies and clears [isCalibrating]. *)
Definition setCalibrating (b : bool) (st : State) : State :=
  mkState (scene st) (calibration st) b.

Definition manualCalibrate_timer (model : option Model) (st : State) : State :=
  let st :=
    match analyzeModel model with
    | Some newCalibration => snd (applyCalibration newCalibration st)
    | None => st
    end in
  setCalibrating false st.

Definition manualCalibrate (model : option Model) (st : State) : State :=
  match model with
  | None => st
  | Some _ => manualCalibrate_timer model (setCalibrating true st)
  end.

(** ** [setFrontFace] (lines 119-140) *)
Definition setFrontFace (st : State) : State :=
  match calibration st with
  | None => st
  | Some c =>
      match scene st ≫= importedModel with
      | Some container =>
          let updatedCalibration :=
            mkCalibration (originalScale c) (normalizedScale c) (groundOffset c)
              (rotation_y container) true (originalSize c) (targetHeight c) in
          mkState (scene st) (Some updatedCalibration) (isCalibrating st)
      | None => st
      end
  end.

(** ** [rotateToAngle] (lines 143-170) *)

(** [Math.PI]: the double nearest to pi, which is this rational. *)
Definition PI : Q := 884279719003555 # 281474976710656.

(** The table of angles of a calibration.  The names looked up are the six
    keys the panels use; a name that JavaScript would find on
    [Object.prototype] is outside this table and outside the model. *)
Definition angles (c : SafeModelCalibration) : gmap string Q :=
  list_to_map
    [("face"%string, frontFaceRotation c);
     ("dos"%string, (frontFaceRotation c + PI)%Q);
     ("profil_droit"%string, (frontFaceRotation c + PI / 2)%Q);
     ("profil_gauche"%string, (frontFaceRotation c - PI / 2)%Q);
     ("trois_quart_droite"%string, (frontFaceRotation c + PI / 4)%Q);
     ("trois_quart_gauche"%string, (frontFaceRotation c - PI / 4)%Q)].

Definition setRotation (angle : Q) (st : State) : State :=
  match scene st ≫= importedModel with
  | Some container =>
      mkState (Some (mkScene (Some (mkContainer (scale container)
                                      (position_y container) angle))))
              (calibration st) (isCalibrating st)
  | None => st
  end.

Definition rotateToAngle (angleName : string) (st : State) : State :=
  match calibration st with
  | Some c =>
      if isFrontFaceSet c then
        match angles c !! angleName with
        | Some targetAngle => setRotation targetAngle st
        | None => st
        end
      else st
  | None => st
  end.

(** ** Profiles (lines 173-220)

    The stored text is kept as the object it parses to.  [JSON.stringify]
    and [JSON.parse] give back every finite number as it was; the
    calibrations of the embedding hold finite numbers only. *)

Record Profile : Type := mkProfile {
  profile_calibration : SafeModelCalibration;
  timestamp : Z;
  version : string
}.

(** The item [sprite-calibration-profiles] of [localStorage]: absent, text
    that [JSON.parse] rejects or that is no object, or an object of
    profiles by name. *)
Inductive Storage : Type :=
| NoItem
| Unparsable
| Profiles (profiles : gmap string Profile).

(** [JSON.parse(localStorage.getItem(key) || '{}')]; [None] is the
    exception. *)
Definition parseProfiles (storage : Storage) : option (gmap string Profile) :=
  match storage with
  | NoItem => Some ∅
  | Unparsable => None
  | Profiles profiles => Some profiles
  end.

(** [profiles[name] = value] followed by [JSON.stringify(profiles)]: on an
    object without a key [__proto__] of its own, the assignment to
    [__proto__] sets the prototype and adds no key. *)
Definition assign (name : string) (value : Profile) (profiles : gmap string Profile)
  : gmap string Profile :=
  if String.eqb name "__proto__" && bool_decide (profiles !! name = None)
  then profiles
  else <[name := value]> profiles.

(** [saveProfile name]; [None] is the [undefined] returned when there is no
    calibration.  [writable] is whether [localStorage.setItem] accepts the
    text, [now] is [Date.now()]. *)
Definition saveProfile (writable : bool) (now : Z) (name : string)
    (st : State) (storage : Storage) : option bool * Storage :=
  match calibration st with
  | None => (None, storage)
  | Some c =>
      match parseProfiles storage with
      | Some profiles =>
          if writable
          then (Some true, Profiles (assign name (mkProfile c now "1.0") profiles))
          else (Some false, storage)
      | None => (Some false, storage)
      end
  end.

(** [loadProfile name]. *)
Definition loadProfile (name : string) (st : State) (storage : Storage)
  : bool * State :=
  match parseProfiles storage with
  | Some profiles =>
      match profiles !! name with
      | Some profile => applyCalibration (profile_calibration profile) st
      | None => (false, st)
      end
  | None => (false, st)
  end.

(** [getProfiles]: the names, here in the order of the map and not in the
    order of insertion that [Object.keys] gives. *)
Definition getProfiles (storage : Storage) : list string :=
  match parseProfiles storage with
  | Some profiles => elements (dom profiles)
  | None => []
  end.

(** [reset]. *)
Definition reset (st : State) : State := mkState (scene st) None false.

End Calibration.

(* ===================================================================== *)
(** * Animation frame mapper ([useAnimation]) *)
(* ===================================================================== *)

Module Animation.

(** A clip; its [duration], in seconds, is a double. *)
Record Clip : Type := mkClip { clip_name : string; duration : JsNum.double }.

(** [model] is absent, or has an [animations] array or none. *)
Record Model : Type := mkModel { animations : option (list Clip) }.

Record State : Type := mkState {
  currentAnimation : option string;
  currentFrame : Z;
  totalFrames : Z;
  isPlaying : bool
}.

Definition setFrames (total current : Z) (st : State) : State :=
  mkState (currentAnimation st) current total (isPlaying st).

(** The effect that runs when [model] or [currentAnimation] changes
    (lines 276-292).  The product [duration * fps] is the product of two
    doubles, rounded to a double before [Math.floor] sees it.  The state of
    this model holds integers: the result is [None] when the frame count is
    NaN or infinite (a duration that is NaN, infinite, or so large that the
    product overflows). *)
Definition onAnimationChange (model : option Model) (st : State) : option State :=
  match model ≫= animations, JsNum.truthy (currentAnimation st) with
  | Some anims, Some current =>
      match List.find (fun anim => String.eqb (clip_name anim) current) anims with
      | Some selectedAnim =>
          let fps := JsNum.ofZ 30 in
          match JsNum.floor (JsNum.mul (duration selectedAnim) fps) with
          | JsNum.Int frames => Some (setFrames frames 0 st)
          | _ => None
          end
      | None => Some st
      end
  | _, _ => Some (setFrames 0 0 st)
  end.

(** [setAnimation] followed by the effect it triggers. *)
Definition setAnimation (model : option Model) (animation : string) (st : State)
  : option State :=
  onAnimationChange model
    (mkState (Some animation) (currentFrame st) (totalFrames st) (isPlaying st)).

(** [previousFrame] and [nextFrame] (lines 343-355). *)
Definition previousFrame (st : State) : State :=
  let prev := currentFrame st in
  setFrames (totalFrames st)
    (if (prev <=? 0)%Z then (totalFrames st - 1)%Z else (prev - 1)%Z) st.

Definition nextFrame (st : State) : State :=
  let prev := currentFrame st in
  setFrames (totalFrames st)
    (if (totalFrames st - 1 <=? prev)%Z then 0%Z else (prev + 1)%Z) st.

(** ** The effect on a change of model (lines 258-273): the names of the
    clips, and the state. *)
Definition onModelChange (model : option Model) (st : State) : list string * State :=
  match model ≫= animations with
  | None => ([], mkState None 0 0 (isPlaying st))
  | Some anims =>
      let animNames := map clip_name anims in
      (animNames,
       match animNames, JsNum.truthy (currentAnimation st) with
       | first :: _, None =>
           mkState (Some first) (currentFrame st) (totalFrames st) (isPlaying st)
       | _, _ => st
       end)
  end.

(** ** Playback (lines 295-337) *)

(** Whether the playback effect arms its timer. *)
Definition playing (model : option Model) (st : State) : bool :=
  isPlaying st
  && match model ≫= animations, JsNum.truthy (currentAnimation st) with
     | Some anims, Some current =>
         negb (totalFrames st =? 0)%Z
         && bool_decide (is_Some
              (List.find (fun a => String.eqb (clip_name a) current) anims))
     | _, _ => false
     end.

(** [(prevFrame + 1) % totalFrames]; [%] is the remainder that takes the
    sign of the dividend. *)
Definition advance (st : State) : State :=
  setFrames (totalFrames st) (Z.rem (currentFrame st + 1) (totalFrames st)) st.

(** [lastFrameTimeRef.current], unset when [null] or 0. *)
Definition lastTime (timestamp : Q) (last : option Q) : Q :=
  match last with
  | Some t => if Qeq_bool t 0 then timestamp else t
  | None => timestamp
  end.

(** One call of [updateFrame(timestamp)] by the browser: the reference
    [lastFrameTimeRef] and the state after it. *)
Definition updateFrame (timestamp : Q) (last : option Q) (st : State)
  : option Q * State :=
  let fps := 30%Q in
  let frameTime := (1000 / fps)%Q in
  let last := lastTime timestamp last in
  let elapsed := (timestamp - last)%Q in
  if Qle_bool frameTime elapsed
  then (Some timestamp, advance st)
  else (Some last, st).

Definition togglePlayPause (st : State) : State :=
  mkState (currentAnimation st) (currentFrame st) (totalFrames st)
          (negb (isPlaying st)).

End Animation.

(* ===================================================================== *)
(** * Frame editor ([useFrameEditor]) *)
(* ===================================================================== *)

Module FrameEditor.

Record Frame : Type := mkFrame {
  id : string;
  filename : string;
  data : string;
  enabled : bool;
  width : Z;
  height : Z
}.

(** ** Ingestion order (lines 74-84) *)

Definition isUpper (c : ascii) : bool :=
  let n := nat_of_ascii c in (65 <=? n)%nat && (n <=? 90)%nat.
Definition isDigit (c : ascii) : bool :=
  let n := nat_of_ascii c in (48 <=? n)%nat && (n <=? 57)%nat.

Definition lowerChar (c : ascii) : ascii :=
  if isUpper c then ascii_of_nat (nat_of_ascii c + 32) else c.

Fixpoint toLowerCase (s : string) : string :=
  match s with
  | EmptyString => EmptyString
  | String c rest => String (lowerChar c) (toLowerCase rest)
  end.

Definition endsWith (s suffix : string) : bool :=
  let n := String.length s in
  let k := String.length suffix in
  (k <=? n)%nat && String.eqb (substring (n - k) k s) suffix.

Definition isPng (f : string) : bool := endsWith (toLowerCase f) ".png".

(** [s.match(/\d+/)]: the first maximal run of digits, if there is one. *)
Fixpoint takeDigits (s : string) : string :=
  match s with
  | EmptyString => EmptyString
  | String c rest => if isDigit c then String c (takeDigits rest) else EmptyString
  end.

Fixpoint matchDigits (s : string) : option string :=
  match s with
  | EmptyString => None
  | String c rest => if isDigit c then Some (takeDigits s) else matchDigits rest
  end.

(** The integer that a run of digits writes in base ten. *)
Fixpoint parseDigits (acc : Z) (s : string) : Z :=
  match s with
  | EmptyString => acc
  | String c rest => parseDigits (10 * acc + Z.of_nat (nat_of_ascii c - 48))%Z rest
  end.

(** [parseInt] of a run of digits: the number value of that integer, a
    double.  (The engine of Electron reads every digit; the language lets an
    engine stop reading at the twentieth.) *)
Definition parseInt (s : string) : JsNum.jsint := JsNum.toNumber (parseDigits 0 s).

(** [aMatch ? parseInt(aMatch[0]) : 0]. *)
Definition frameNumber (f : string) : JsNum.jsint :=
  match matchDigits f with
  | Some m => parseInt m
  | None => JsNum.Int 0
  end.

(** The comparator handed to [sort]: [aNum - bNum]. *)
Definition compareFiles (a b : string) : JsNum.jsint :=
  JsNum.minus (frameNumber a) (frameNumber b).

(** What [sort] reads of a comparator's result: the number, NaN as +0, of
    which only the sign counts. *)
Definition sortCompare (v : JsNum.jsint) : Z :=
  match v with
  | JsNum.Int z => z
  | JsNum.PosInf => 1%Z
  | JsNum.NegInf => (-1)%Z
  | JsNum.NaN => 0%Z
  end.

(** [Array.prototype.sort(cmp)], which ECMAScript requires to be stable:
    elements that compare equal keep their relative order.  Insertion from
    the right, each element placed before the first one it does not exceed. *)
Fixpoint insert {A} (cmp : A -> A -> Z) (x : A) (l : list A) : list A :=
  match l with
  | [] => [x]
  | y :: rest => if (cmp x y <=? 0)%Z then x :: l else y :: insert cmp x rest
  end.

Definition sort {A} (cmp : A -> A -> Z) (l : list A) : list A :=
  foldr (insert cmp) [] l.

Definition imageFiles (files : list string) : list string :=
  sort (fun a b => sortCompare (compareFiles a b)) (List.filter isPng files).

(** ** The key of that order, for the statements

    The integer first embedded in a file name, 0 when there is none, and
    the place of its number value among the doubles. *)
Definition firstInteger (f : string) : Z :=
  match matchDigits f with
  | Some m => parseDigits 0 m
  | None => 0%Z
  end.

Definition frameKey (f : string) : Z := JsNum.rank (frameNumber f).

(** The value of a list of decimal digits, most significant first. *)
Fixpoint decimal (digits : list Z) : Z :=
  match digits with
  | [] => 0%Z
  | d :: rest => (d * 10 ^ Z.of_nat (length rest) + decimal rest)%Z
  end.

Definition digitValue (c : ascii) : Z := (Z.of_nat (nat_of_ascii c) - 48)%Z.

(** The characters of a string, and a string that does not start with a
    digit. *)
Definition chars (s : string) : list ascii := list_ascii_of_string s.

Definition stops (s : string) : Prop :=
  match s with
  | EmptyString => True
  | String c _ => isDigit c = false
  end.

(** ** Loading (lines 98-171): a file that cannot be read or decoded is
    skipped.  [readImageFile path] is the data with the decoded size. *)
Definition filePath (folderPath name : string) : string :=
  (folderPath
   +:+ (if endsWith folderPath "/" || endsWith folderPath "\" then "" else "/")
   +:+ name)%string.

Definition loadFrames (readImageFile : string -> option (string * Z * Z))
    (now : nat -> Z) (folderPath : string) (files : list string) : list Frame :=
  omap (fun loaded => loaded)
    (imap (fun i name =>
       match readImageFile (filePath folderPath name) with
       | Some (imageData, w, h) =>
           Some (mkFrame ("frame-" +:+ pretty (now i) +:+ "-" +:+ pretty i)
                         name imageData true w h)
       | None => None
       end) (imageFiles files)).

(** ** The enable mask (lines 205-220) *)

(** [toggleFrame index]; reading [enabled] of a frame that is not there is a
    [TypeError], here [None]. *)
Definition toggleFrame (index : nat) (prev : list Frame) : option (list Frame) :=
  f ← prev !! index;
  Some (<[index := mkFrame (id f) (filename f) (data f) (negb (enabled f))
                           (width f) (height f)]> prev).

Definition getActiveFrames (frames : list Frame) : list Frame :=
  List.filter enabled frames.

(** ** The editor's sprite sheet (lines 270-339) *)

(** One call [ctx.drawImage(img, x, y, width, height)], [img] being the
    image whose [src] is [draw_data]. *)
Record Draw : Type := mkDraw {
  draw_data : string;
  draw_x : Z; draw_y : Z;
  draw_width : Z; draw_height : Z
}.

Record Sheet : Type := mkSheet {
  canvas_width : Z;
  canvas_height : Z;
  draws : list Draw
}.

(** What becomes of an [Image] whose [src] is set: [onerror] fires, or
    [onload]; a loaded image whose origin is not the page's taints the
    canvas it is drawn on. *)
Inductive ImageLoad : Type :=
| LoadError
| Loaded (tainting : bool).

(** The browser under the editor: whether the new canvas gives a 2D
    context, what an image source loads to, and the message of the
    [SecurityError] that [toDataURL] throws on a tainted canvas. *)
Record Browser : Type := mkBrowser {
  canvasContext : bool;
  loadImage : string -> ImageLoad;
  securityError : string
}.

(** How the call ends: the toast [No active frames to export]; the toast
    [Failed to export sprite sheet: message] of the [catch]; or the sheet
    handed to the download link, followed by the toast [Success]. *)
Inductive SheetOutcome : Type :=
| NoActiveFrames
| ExportFailed (message : string)
| SheetExported (sheet : Sheet).

Definition taints (b : Browser) (f : Frame) : bool :=
  match loadImage b (data f) with
  | Loaded tainting => tainting
  | LoadError => false
  end.

(** The loop of lines 303-314 from index [i] on: the draws it makes, or
    the message of the first image that does not load. *)
Fixpoint drawFrames (b : Browser) (frameWidth frameHeight : Z) (i : nat)
    (activeFrames : list Frame) : string + list Draw :=
  match activeFrames with
  | [] => inr []
  | f :: rest =>
      match loadImage b (data f) with
      | LoadError => inl ("Failed to load frame " +:+ pretty i)%string
      | Loaded _ =>
          match drawFrames b frameWidth frameHeight (S i) rest with
          | inl message => inl message
          | inr drawn =>
              inr (mkDraw (data f) (Z.of_nat i * frameWidth)%Z 0 frameWidth frameHeight
                   :: drawn)
          end
      end
  end.

Definition exportAsSpriteSheet (b : Browser) (frames : list Frame) : SheetOutcome :=
  let activeFrames := getActiveFrames frames in
  match activeFrames with
  | [] => NoActiveFrames
  | first :: _ =>
      let frameWidth := width first in
      let frameHeight := height first in
      if negb (canvasContext b) then ExportFailed "Could not get canvas context"
      else
        match drawFrames b frameWidth frameHeight 0 activeFrames with
        | inl message => ExportFailed message
        | inr drawn =>
            if existsb (taints b) activeFrames then ExportFailed (securityError b)
            else SheetExported
                   (mkSheet (frameWidth * Z.of_nat (length activeFrames))%Z frameHeight
                      drawn)
        end
  end.

(** ** The editor's state *)

Record Editor : Type := mkEditor {
  frames : list Frame;
  isLoading : bool;
  currentFrame : Z;
  isPlaying : bool;
  fps : Q
}.

(** ** [importFramesFromFolder] as a whole (lines 23-203) *)

(** A promise settles by rejecting or by resolving. *)
Inductive Promise (A : Type) : Type :=
| Rejected (reason : string)
| Resolved (a : A).
Arguments Rejected {A} reason.
Arguments Resolved {A} a.

(** One of [window.electron] and [window.electronAPI]; a field is [None]
    when the function is missing. *)
Record FileApi : Type := mkFileApi {
  selectDirectory : option (Promise (option string));
  readDirectory : option (string -> Promise (list string));
  readImageFile : option (string -> Promise (option string))
}.

Record Window : Type := mkWindow {
  electron : option FileApi;
  electronAPI : option FileApi
}.

Inductive Outcome : Type :=
| NoFileSystem
| NoFolderSelected
| NoPngFiles
| NothingLoaded
| Imported (count : nat)
| ImportFailed (reason : string).

(** [window.x && typeof window.x.selectDirectory === 'function']. *)
Definition selector (api : option FileApi) : option (Promise (option string)) :=
  api ≫= selectDirectory.

(** The image reader the loop uses: [window.electron]'s when that API
    selects directories and reads images, else [window.electronAPI]'s under
    the same conditions, else none. *)
Definition imageReader (w : Window) : option (string -> Promise (option string)) :=
  match selector (electron w), electron w ≫= readImageFile with
  | Some _, Some read => Some read
  | _, _ =>
      match selector (electronAPI w), electronAPI w ≫= readImageFile with
      | Some _, Some read => Some read
      | _, _ => None
      end
  end.

Definition directoryReader (w : Window) : option (string -> Promise (list string)) :=
  match selector (electron w), electron w ≫= readDirectory with
  | Some _, Some read => Some read
  | _, _ =>
      match selector (electronAPI w), electronAPI w ≫= readDirectory with
      | Some _, Some read => Some read
      | _, _ => None
      end
  end.

(** What one turn of the loading loop gets for a path: the data and the
    decoded size, or nothing (no reader, rejection, no data, or an image
    that does not decode). *)
Definition readFrame (w : Window) (decode : string -> option (Z * Z))
    (path : string) : option (string * Z * Z) :=
  match imageReader w with
  | Some read =>
      match read path with
      | Resolved (Some imageData) =>
          if String.eqb imageData "" then None
          else match decode imageData with
               | Some (width, height) => Some (imageData, width, height)
               | None => None
               end
      | _ => None
      end
  | None => None
  end.

Definition setLoading (b : bool) (st : Editor) : Editor :=
  mkEditor (frames st) b (currentFrame st) (isPlaying st) (fps st).

(** The outcome (which toast is shown) and the state when the promise of
    [importFramesFromFolder] has settled. *)
Definition importFramesFromFolder (w : Window) (decode : string -> option (Z * Z))
    (now : nat -> Z) (st : Editor) : Outcome * Editor :=
  let done := setLoading false st in
  match selector (electron w), selector (electronAPI w) with
  | None, None => (NoFileSystem, done)
  | first, second =>
      match (match first with Some choose => choose | None => default (Resolved None) second end) with
      | Rejected reason => (ImportFailed reason, done)
      | Resolved chosen =>
          match JsNum.truthy chosen with
          | None => (NoFolderSelected, done)
          | Some folderPath =>
              let listing :=
                match directoryReader w with
                | Some read => read folderPath
                | None => Resolved []
                end in
              match listing with
              | Rejected reason => (ImportFailed reason, done)
              | Resolved files =>
                  if (length (imageFiles files) =? 0)%nat then (NoPngFiles, done)
                  else
                    let loadedFrames :=
                      loadFrames (readFrame w decode) now folderPath files in
                    if (length loadedFrames =? 0)%nat then (NothingLoaded, done)
                    else (Imported (length loadedFrames),
                          mkEditor loadedFrames false 0 (isPlaying st) (fps st))
              end
          end
      end
  end.

(** ** Playback (lines 222-267) *)

(** The playback effect when it runs: with nothing active, playing stops. *)
Definition playbackEffect (st : Editor) : Editor :=
  if isPlaying st && (length (getActiveFrames (frames st)) =? 0)%nat
  then mkEditor (frames st) (isLoading st) (currentFrame st) false (fps st)
  else st.

Definition setCurrentFrame (f : Z) (st : Editor) : Editor :=
  mkEditor (frames st) (isLoading st) f (isPlaying st) (fps st).

(** [(prev + 1) % activeFrames.length]. *)
Definition advance (st : Editor) : Editor :=
  setCurrentFrame
    (Z.rem (currentFrame st + 1) (Z.of_nat (length (getActiveFrames (frames st))))) st.

Definition lastTime (timestamp : Q) (last : option Q) : Q :=
  match last with
  | Some t => if Qeq_bool t 0 then timestamp else t
  | None => timestamp
  end.

(** One call of [updateFrame(timestamp)] while playing with active frames. *)
Definition updateFrame (timestamp : Q) (last : option Q) (st : Editor)
  : option Q * Editor :=
  let frameTime := (1000 / fps st)%Q in
  let last := lastTime timestamp last in
  let elapsed := (timestamp - last)%Q in
  if Qle_bool frameTime elapsed
  then (Some timestamp, advance st)
  else (Some last, st).

(** ** The page ([pages/FrameEditor.tsx], lines 39-50 and 187-201) *)

(** [activeFrames[currentFrame]]. *)
Definition currentActiveFrame (st : Editor) : option Frame :=
  if (currentFrame st <? 0)%Z then None
  else getActiveFrames (frames st) !! Z.to_nat (currentFrame st).

Definition handlePreviousFrame (st : Editor) : Editor :=
  let n := Z.of_nat (length (getActiveFrames (frames st))) in
  if (n =? 0)%Z then st
  else setCurrentFrame (Z.rem (currentFrame st - 1 + n) n) st.

Definition handleNextFrame (st : Editor) : Editor :=
  let n := Z.of_nat (length (getActiveFrames (frames st))) in
  if (n =? 0)%Z then st
  else setCurrentFrame (Z.rem (currentFrame st + 1) n) st.

(** [activeFrames.findIndex(f => f.id === frame.id)]. *)
Fixpoint findIndex (frameId : string) (l : list Frame) : option nat :=
  match l with
  | [] => None
  | f :: rest =>
      if String.eqb (id f) frameId then Some 0%nat
      else S <$> findIndex frameId rest
  end.

(** A click on a frame of the timeline. *)
Definition selectFrame (frame : Frame) (st : Editor) : Editor :=
  if enabled frame then
    match findIndex (id frame) (getActiveFrames (frames st)) with
    | Some activeIndex => setCurrentFrame (Z.of_nat activeIndex) st
    | None => st
    end
  else st.

(** [toggleFrame] on the editor: only the frames change. *)
Definition toggle (index : nat) (st : Editor) : option Editor :=
  frames' ← toggleFrame index (frames st);
  Some (mkEditor frames' (isLoading st) (currentFrame st) (isPlaying st) (fps st)).

(** The object that line 209 puts at the toggled index: the frame with
    [enabled] negated. *)
Definition flip (f : Frame) : Frame :=
  mkFrame (id f) (filename f) (data f) (negb (enabled f)) (width f) (height f).

End FrameEditor.

(* ===================================================================== *)
(** * Export orchestration ([useExport.exportSequence], [exportSpriteSheet])
      and the multi-angle controller ([SafeMultiExport.handleExport]) *)
(* ===================================================================== *)

Module Orchestrator.
Import Eff.
Local Abbreviation Error := Capture.Error.
Local Abbreviation Err := Capture.Err.

(** What a saved file holds: a captured frame, or a sheet with the position
    of each captured frame on it. *)
Inductive Artifact : Type :=
| FramePng (frame : Capture.Raster)
| SheetPng (layout : Sequencer.SheetLayout) (cells : list (Z * Z * Capture.Raster)).

Record Toast : Type := mkToast {
  title : string;
  description : string;
  destructive : bool
}.

Inductive Api : Type := Electron | ElectronAPI.

(** What the export does that the outside can see, in order. *)
Inductive Event : Type :=
| FrameChange (frame totalFrames : Z)
| CreateDirectory (api : Api) (path : string) (ok : bool)
| SaveFile (api : Api) (path : string) (ok : bool)
| Notify (t : Toast)
| RotateToAngle (angle : string)
| ExportSequence (animation : string) (totalFrames : Z).

(** A file-system bridge; each call answers by the number of bridge calls
    made before it and by the path. *)
Record Bridge : Type := mkBridge {
  createDirectory : nat -> string -> bool;
  saveFile : nat -> string -> bool
}.

(** The host: [window.electron], [window.electronAPI] and the platform
    under the canvas. *)
Record Host : Type := mkHost {
  electron : option Bridge;
  electronAPI : option Bridge;
  platform : Capture.Platform
}.

(** The state of the [useExport] hook. *)
Record Settings : Type := mkSettings {
  width : Z;
  height : Z;
  renderSteps : Z;
  outputFolder : option string
}.

(** What [document.querySelector("canvas")] and the chain
    [canvas.__r3f?.fiber] give: no canvas at all, a canvas on which the
    renderer, the scene or the camera is missing, or the live scene. *)
Inductive Viewport : Type :=
| NoCanvas
| NoScene
| Scene (w : Capture.World).

(** The store: the viewport, the files written, the number of bridge calls,
    the trace, and the controller's own state. *)
Record Store : Type := mkStore {
  viewport : Viewport;
  files : gmap string Artifact;
  calls : nat;
  trace : list Event;
  isExporting : bool;
  exportProgress : Q;
  currentAngle : option string
}.

(** The live scene, when there is one. *)
Definition world (s : Store) : option Capture.World :=
  match viewport s with
  | Scene w => Some w
  | _ => None
  end.

(** Reading [canvas.__r3f] when [canvas] is [null] is a [TypeError]; the
    text of its message is the engine's. *)
Definition nullCanvas : Error :=
  Err "Cannot read properties of null (reading '__r3f')".

Definition log (e : Event) : M Store Error unit :=
  modify (fun s => mkStore (viewport s) (files s) (calls s) (trace s ++ [e])
                     (isExporting s) (exportProgress s) (currentAngle s)).

Definition toast (title description : string) (destructive : bool)
  : M Store Error unit :=
  log (Notify (mkToast title description destructive)).

(** Run a capture on the scene found at the start of the export. *)
Definition onWorld {A} (c : M Capture.World Error A) : M Store Error A :=
  fun s =>
    match world s with
    | Some w =>
        let '(r, w') := c w in
        (r, mkStore (Scene w') (files s) (calls s) (trace s)
              (isExporting s) (exportProgress s) (currentAngle s))
    | None => (inl (Err "Could not access the 3D scene"), s)
    end.

(** One bridge call: the answer, the file when the write succeeded. *)
Definition bridgeCall (answer : nat -> string -> bool) (path : string)
    (written : option Artifact) (event : bool -> Event) : M Store Error bool :=
  fun s =>
    let ok := answer (calls s) path in
    (inr ok,
     mkStore (viewport s)
       (match written with
        | Some a => if ok then <[path := a]> (files s) else files s
        | None => files s
        end)
       (S (calls s)) (trace s ++ [event ok])
       (isExporting s) (exportProgress s) (currentAngle s)).

(** [window.electron] first, [window.electronAPI] if that did not succeed. *)
Definition createDirectoryVia (host : Host) (path : string) : M Store Error bool :=
  created ← match electron host with
            | Some b => bridgeCall (createDirectory b) path None
                          (CreateDirectory Electron path)
            | None => ret false
            end;
  if (created : bool) then ret true
  else match electronAPI host with
       | Some b => bridgeCall (createDirectory b) path None
                     (CreateDirectory ElectronAPI path)
       | None => ret false
       end.

Definition saveFileVia (host : Host) (path : string) (a : Artifact)
  : M Store Error bool :=
  saved ← match electron host with
          | Some b => bridgeCall (saveFile b) path (Some a) (SaveFile Electron path)
          | None => ret false
          end;
  if (saved : bool) then ret true
  else match electronAPI host with
       | Some b => bridgeCall (saveFile b) path (Some a) (SaveFile ElectronAPI path)
       | None => ret false
       end.

(** The characters that the sanitising [replace] turns into an underscore:
    the double quote, and the eight of the string below. *)
Definition hostile (c : ascii) : bool :=
  existsb (Ascii.eqb c)
    (ascii_of_nat 34 :: list_ascii_of_string "<>:|?*/\").

Fixpoint sanitize (s : string) : string :=
  match s with
  | EmptyString => EmptyString
  | String c rest => String (if hostile c then "_"%char else c) (sanitize rest)
  end.

(** [s.padStart(n, '0')]. *)
Definition padStart (n : nat) (s : string) : string :=
  (String.concat "" (repeat "0" (n - String.length s)) +:+ s)%string.

(** ** [exportSpriteSheet] (lines 484-589); the result is the file name.
    The image made of a captured frame's data URL (lines 531-536) is taken
    to load, as it does for a capture of positive width and height. *)

Definition message (e : Error) : string := let 'Capture.Err m := e in m.

Definition exportSpriteSheet (host : Host) (cfg : Settings)
    (currentAnimation : string) (totalFrames : Z) (framesToRender : list Z)
  : M Store Error string :=
  let frameCount := Z.of_nat (length framesToRender) in
  let layout := Sequencer.spriteSheetLayout (width cfg) (height cfg) frameCount in
  let columns := Sequencer.columns layout in
  let rows := Sequencer.rows layout in
  if negb (Capture.context2d (platform host))
  then throw (Err "Could not get 2D context for sprite sheet")
  else
    toast "Creating Sprite Sheet"
      ("Rendering " +:+ pretty frameCount +:+ " frames in a " +:+ pretty columns
       +:+ "x" +:+ pretty rows +:+ " grid...") false;;
    cells ← collect (fun i frameIndex =>
        log (FrameChange frameIndex totalFrames);;
        img ← onWorld (Capture.renderFrame (platform host) (width cfg) (height cfg)
                         frameIndex);
        let '(x, y) := Sequencer.drawPosition (width cfg) (height cfg) columns
                         (Z.of_nat i) in
        ret (x, y, img)) 0%nat framesToRender;
    let sanitizedAnimationName := sanitize currentAnimation in
    let filename :=
      (default "null" (outputFolder cfg) +:+ "/" +:+ sanitizedAnimationName
       +:+ "_spritesheet_" +:+ pretty columns +:+ "x" +:+ pretty rows +:+ ".png")%string in
    fileSaved ← saveFileVia host filename (SheetPng layout cells);
    if negb fileSaved
    then throw (Err ("Failed to save sprite sheet: " +:+ filename))
    else
      toast "Sprite Sheet Exported"
        ("Saved as " +:+ pretty columns +:+ "x" +:+ pretty rows +:+ " grid with "
         +:+ pretty frameCount +:+ " frames") false;;
      ret filename.

(** ** [exportSequence] (lines 592-775)

    The three guards of lines 596-634 come first.  Lines 637-640 then read
    [canvas.__r3f] before the guard of line 642 and outside the [try] of
    line 651: on a document without canvas that read throws, and the call
    rejects without a toast. *)

Definition exportSequence (host : Host) (cfg : Settings)
    (currentAnimation : option string) (totalFrames : Z) : M Store Error unit :=
  match JsNum.truthy (outputFolder cfg), JsNum.truthy currentAnimation with
  | None, _ => toast "Error" "Please select an output folder first" true
  | Some _, None => toast "Error" "No animation selected" true
  | Some folder, Some animation =>
      let hasElectronAPI := bool_decide (is_Some (electron host)) in
      let hasElectronAPIFallback := bool_decide (is_Some (electronAPI host)) in
      if negb hasElectronAPI && negb hasElectronAPIFallback
      then toast "Error" "File system access is not available" true
      else
        found ← gets viewport;
        match found with
        | NoCanvas => throw nullCanvas
        | NoScene => toast "Error" "Could not access the 3D scene" true
        | Scene _ =>
          try_catch
            (let sanitizedAnimationName := sanitize animation in
             let animationFolder := (folder +:+ "/" +:+ sanitizedAnimationName)%string in
             directoryCreated ← createDirectoryVia host animationFolder;
             if negb directoryCreated
             then throw (Err ("Failed to create directory: " +:+ animationFolder))
             else
               let framesToRender :=
                 Sequencer.planFrames totalFrames (renderSteps cfg) in
               let count := pretty (length framesToRender) in
               toast "Export Started"
                 ("Exporting " +:+ count +:+ " frames with effects applied...") false;;
               for_each (fun i frameIndex =>
                   log (FrameChange frameIndex totalFrames);;
                   frame ← onWorld (Capture.renderFrame (platform host)
                                      (width cfg) (height cfg) frameIndex);
                   let paddedIndex := padStart 4 (pretty frameIndex) in
                   let filename :=
                     (animationFolder +:+ "/frame_" +:+ paddedIndex +:+ ".png")%string in
                   fileSaved ← saveFileVia host filename (FramePng frame);
                   if negb fileSaved
                   then throw (Err ("Failed to save file: " +:+ filename))
                   else
                     toast "Export Progress"
                       ("Frame " +:+ pretty (Datatypes.S i) +:+ "/" +:+ count
                        +:+ " exported with effects") false)
                 0%nat framesToRender;;
               toast "Creating Sprite Sheet"
                 "Combining frames into a single image..." false;;
               exportSpriteSheet host cfg animation totalFrames framesToRender;;
               toast "Export Complete"
                 (count +:+ " frames + sprite sheet exported to " +:+ animationFolder)
                 false)
            (fun error =>
               toast "Error" ("Failed to export sequence: " +:+ message error) true)
        end
  end.

(** ** [selectOutputFolder] (lines 142-218) *)

(** The three ways to ask for a directory; a field is [None] when the
    function is missing, else what its promise settles to. *)
Record Dialogs : Type := mkDialogs {
  electron_selectDirectory : option (FrameEditor.Promise (option string));
  electronAPI_selectDirectory : option (FrameEditor.Promise (option string));
  electronAPI_openFileDialog : option (FrameEditor.Promise (option string))
}.

Definition setOutputFolder (folder : string) (cfg : Settings) : Settings :=
  mkSettings (width cfg) (height cfg) (renderSteps cfg) (Some folder).

(** One of the three attempts: a folder ends the search, a rejection ends
    it in the [catch], and anything else passes on to [next]. *)
Definition attempt (dialog : option (FrameEditor.Promise (option string)))
    (cfg : Settings) (next : Settings * Toast) : Settings * Toast :=
  match dialog with
  | Some (FrameEditor.Resolved selectedFolder) =>
      match JsNum.truthy selectedFolder with
      | Some folder =>
          (setOutputFolder folder cfg, mkToast "Output folder selected" folder false)
      | None => next
      end
  | Some (FrameEditor.Rejected reason) =>
      (cfg, mkToast "Error" ("Failed to select output folder: " +:+ reason) true)
  | None => next
  end.

(** The settings after the call, and the one toast it shows. *)
Definition selectOutputFolder (d : Dialogs) (cfg : Settings) : Settings * Toast :=
  attempt (electron_selectDirectory d) cfg
    (attempt (electronAPI_selectDirectory d) cfg
       (attempt (electronAPI_openFileDialog d) cfg
          (cfg, mkToast "Error"
                  "Failed to select output folder: No working directory selection method available"
                  true))).

(** ** [exportFrame] (lines 413-481); the result is the raster handed to the
    download link, if any.  Lines 416-418 read [canvas.__r3f] before the
    guard of line 420 and outside the [try] of line 429: on a document
    without canvas the call rejects without a toast. *)
Definition exportFrame (host : Host) (cfg : Settings)
  : M Store Error (option Capture.Raster) :=
  found ← gets viewport;
  match found with
  | NoCanvas => throw nullCanvas
  | NoScene => toast "Error" "Could not access the 3D scene" true;; ret None
  | Scene _ =>
    try_catch
      (dataURL ← onWorld (Capture.renderFrame (platform host) (width cfg) (height cfg) 0);
       toast "Success" "Frame exported successfully with effects applied" false;;
       ret (Some dataURL))
      (fun error =>
         toast "Error" ("Failed to export frame: " +:+ message error) true;;
         ret None)
  end.

(** ** Vocabulary for what an export leaves behind *)

(** A dialog that opens no folder: the function is missing, or it resolves
    to [null] or to the empty string. *)
Definition cancelled (dialog : option (FrameEditor.Promise (option string))) : Prop :=
  dialog = None \/ dialog = Some (FrameEditor.Resolved None)
  \/ dialog = Some (FrameEditor.Resolved (Some ""%string)).

(** The file names built at lines 654 and 726, and at line 556. *)
Definition framePath (folder animation : string) (frameIndex : Z) : string :=
  ((folder +:+ "/" +:+ sanitize animation) +:+ "/frame_"
   +:+ padStart 4 (pretty frameIndex) +:+ ".png")%string.

Definition sheetPath (folder animation : string) (layout : Sequencer.SheetLayout)
  : string :=
  (folder +:+ "/" +:+ sanitize animation +:+ "_spritesheet_"
   +:+ pretty (Sequencer.columns layout) +:+ "x" +:+ pretty (Sequencer.rows layout)
   +:+ ".png")%string.

(** The viewport is of the same kind, and a live scene is observed as
    before. *)
Definition sameViewport (v v' : Viewport) : Prop :=
  match v, v' with
  | NoCanvas, NoCanvas | NoScene, NoScene => True
  | Scene w, Scene w' => Capture.observe w' = Capture.observe w
  | _, _ => False
  end.

(** [s'] is [s] after an export: the viewport is as before, no file is
    gone, the trace and the number of bridge calls have only grown, and the
    controller's state is untouched. *)
Definition grows (s s' : Store) : Prop :=
  sameViewport (viewport s) (viewport s')
  /\ (forall path, is_Some (files s !! path) -> is_Some (files s' !! path))
  /\ (exists evs, trace s' = trace s ++ evs)
  /\ (calls s <= calls s')%nat
  /\ isExporting s' = isExporting s
  /\ exportProgress s' = exportProgress s
  /\ currentAngle s' = currentAngle s.

Definition steady {A} (c : M Store Error A) : Prop :=
  forall s, grows s (snd (c s)).

(** A file is at [path], and a bridge has answered [true] to its write. *)
Definition written (path : string) (s : Store) : Prop :=
  is_Some (files s !! path)
  /\ exists api, In (SaveFile api path true) (trace s).

End Orchestrator.

(* ===================================================================== *)
(** * Multi-angle controller ([SafeMultiExport], lines 74-125) *)
(* ===================================================================== *)

Module MultiExport.
Import Eff.
Import Orchestrator.
Local Abbreviation Error := Capture.Error.

Record Props : Type := mkProps {
  hasCalibration : bool;
  isFrontFaceSet : bool;
  currentAnimation : option string;
  totalFrames : Z;
  outputFolder : option string;
  onRotateToAngle : string -> M Store Error unit;
  onExportSequence : string -> Z -> M Store Error unit
}.

Definition canExport (props : Props) (selectedAngles : list string) : bool :=
  hasCalibration props && isFrontFaceSet props
  && bool_decide (is_Some (JsNum.truthy (outputFolder props)))
  && bool_decide (is_Some (JsNum.truthy (currentAnimation props)))
  && (0 <? totalFrames props)%Z
  && (0 <? length selectedAngles)%nat.

Definition setExporting (b : bool) : M Store Error unit :=
  modify (fun s => mkStore (viewport s) (files s) (calls s) (trace s)
                     b (exportProgress s) (currentAngle s)).
Definition setExportProgress (p : Q) : M Store Error unit :=
  modify (fun s => mkStore (viewport s) (files s) (calls s) (trace s)
                     (isExporting s) p (currentAngle s)).
Definition setCurrentAngle (a : option string) : M Store Error unit :=
  modify (fun s => mkStore (viewport s) (files s) (calls s) (trace s)
                     (isExporting s) (exportProgress s) a).

(** [handleExport]; each call of one of the two callbacks is recorded in the
    trace before it is made. *)
Definition handleExport (props : Props) (selectedAngles : list string)
  : M Store Error unit :=
  if negb (canExport props selectedAngles) then ret tt
  else
    let animation := default ""%string (currentAnimation props) in
    let total := length selectedAngles in
    setExporting true;;
    setExportProgress 0;;
    try_finally
      (try_catch
         (for_each (fun i angleKey =>
              setCurrentAngle (Some angleKey);;
              log (RotateToAngle angleKey);;
              onRotateToAngle props angleKey;;
              log (ExportSequence animation (totalFrames props));;
              onExportSequence props animation (totalFrames props);;
              let progress :=
                (inject_Z (Z.of_nat (S i)) / inject_Z (Z.of_nat total) * 100)%Q in
              setExportProgress progress)
            0%nat selectedAngles;;
          toast "Export terminé"
            (pretty total +:+ " angles exportés avec succès") false)
         (fun error =>
            let text := message error in
            toast "Erreur d'export"
              (if String.eqb text "" then "Une erreur est survenue" else text) true))
      (setExporting false;;
       setExportProgress 0;;
       setCurrentAngle None).

(** Modelled from the spec: the page that mounts [SafeMultiExport] and hands
    it its callbacks is not among the sources.  Section 4.4 of the
    specification has the controller rotate through the calibration engine
    and invoke the sequencer's [exportSequence]: [onExportSequence] is
    [useExport.exportSequence], and [onRotateToAngle] is the calibration
    hook's rotation, which does not touch this store. *)
Definition wired (host : Host) (cfg : Settings) (calibrated frontFace : bool)
    (animation : option string) (frames : Z) : Props :=
  mkProps calibrated frontFace animation frames (Orchestrator.outputFolder cfg)
    (fun _ => ret tt)
    (fun anim total => exportSequence host cfg (Some anim) total).

(** The angles for which the trace shows a call of the export callback. *)
Fixpoint exportedAngles (current : option string) (t : list Event) : list string :=
  match t with
  | [] => []
  | RotateToAngle a :: rest => exportedAngles (Some a) rest
  | ExportSequence _ _ :: rest =>
      match current with
      | Some a => a :: exportedAngles current rest
      | None => exportedAngles current rest
      end
  | _ :: rest => exportedAngles current rest
  end.

(** The angle in force after a trace. *)
Fixpoint angleAfter (current : option string) (t : list Event) : option string :=
  match t with
  | [] => current
  | RotateToAngle a :: rest => angleAfter (Some a) rest
  | _ :: rest => angleAfter current rest
  end.

(** The events that the controller itself records. *)
Definition controllerEvent (e : Event) : bool :=
  match e with
  | RotateToAngle _ | ExportSequence _ _ => true
  | _ => false
  end.

(** A computation is quiet when all it adds to the trace are events other
    than the controller's. *)
Definition quiet {A} (c : M Store Error A) : Prop :=
  forall s, exists evs,
    trace (snd (c s)) = trace s ++ evs
    /\ forallb (fun e => negb (controllerEvent e)) evs = true.

(** ** The selection of angles (lines 43-72) *)

Definition availableAngles : list string :=
  ["face"; "dos"; "profil_droit"; "profil_gauche"; "trois_quart_droite";
   "trois_quart_gauche"]%string.

Definition includes (angleKey : string) (l : list string) : bool :=
  existsb (String.eqb angleKey) l.

Definition toggleAngle (angleKey : string) (prev : list string) : list string :=
  if includes angleKey prev
  then List.filter (fun a => negb (String.eqb a angleKey)) prev
  else prev ++ [angleKey].

Definition selectPreset (preset : string) (prev : list string) : list string :=
  if String.eqb preset "standard" then ["face"; "profil_droit"; "profil_gauche"; "dos"]%string
  else if String.eqb preset "all" then availableAngles
  else if String.eqb preset "none" then []
  else prev.

(** ** The status badge (lines 127-134) *)

Inductive Status : Type :=
| NotCalibrated
| FaceNotSet
| FolderRequired
| AnimationRequired
| NoAngle
| Ready.

Definition getStatusInfo (props : Props) (selectedAngles : list string) : Status :=
  if negb (hasCalibration props) then NotCalibrated
  else if negb (isFrontFaceSet props) then FaceNotSet
  else if negb (bool_decide (is_Some (JsNum.truthy (outputFolder props)))) then FolderRequired
  else if negb (bool_decide (is_Some (JsNum.truthy (currentAnimation props)))) then AnimationRequired
  else if (length selectedAngles =? 0)%nat then NoAngle
  else Ready.

End MultiExport.

(* ===================================================================== *)
(** * Concrete scenes and hosts used in the examples below *)
(* ===================================================================== *)

Module Fixture.
Import Orchestrator MultiExport.

Definition theWorld : Capture.World :=
  Capture.mkWorld
    (Capture.mkRenderer 800 600 2 (Capture.mkColor 1 1 1) 1 1600 1200)
    (Capture.ColorBackground (Capture.mkColor 0 0 0))
    (Capture.mkCamera (Capture.mkVector3 0 1 5) (Capture.mkEuler 0 0 0 "XYZ") 1
       (Capture.PerspectiveCamera (4 # 3) 50 1000 (1 # 10)))
    None.

Definition soundPlatform : Capture.Platform :=
  Capture.mkPlatform (fun _ => false) true.

(** Every bridge call succeeds but the second one, which is the first
    [saveFile] of the first angle. *)
Definition flakyBridge : Bridge :=
  mkBridge (fun _ _ => true) (fun n _ => negb (n =? 1)%nat).

Definition theHost : Host := mkHost (Some flakyBridge) None soundPlatform.

Definition theSettings : Settings := mkSettings 128 128 1 (Some "out"%string).

Definition emptyStore : Store :=
  mkStore (Scene theWorld) ∅ 0 [] false 0 None.

Definition twoAngles : list string := ["face"; "dos"]%string.

(** The controller wired to [exportSequence], two frames of animation. *)
Definition theProps : Props :=
  wired theHost theSettings true true (Some "walk"%string) 2.

(** A controller whose export callback rejects. *)
Definition rejectingProps : Props :=
  mkProps true true (Some "walk"%string) 2 (Some "out"%string)
    (fun _ => Eff.ret tt) (fun _ _ => Eff.throw (Capture.Err "disk full")).

Definition frame (name : string) (on : bool) : FrameEditor.Frame :=
  FrameEditor.mkFrame ("id-" +:+ name) name "data" on 10 10.

Definition threeFrames : list FrameEditor.Frame :=
  [frame "a" true; frame "b" true; frame "c" true].

(** A browser that gives a context and loads every image from the page's
    own origin; one without 2D context; one on which nothing loads. *)
Definition soundBrowser : FrameEditor.Browser :=
  FrameEditor.mkBrowser true (fun _ => FrameEditor.Loaded false) "SecurityError".

Definition blindBrowser : FrameEditor.Browser :=
  FrameEditor.mkBrowser false (fun _ => FrameEditor.Loaded false) "SecurityError".

Definition brokenBrowser : FrameEditor.Browser :=
  FrameEditor.mkBrowser true (fun _ => FrameEditor.LoadError) "SecurityError".

(** A flat model: a bounding box of height zero. *)
Definition flatBox : Calibration.Box3 := Calibration.mkBox3 0 0 0 2 0 2.

Definition sceneWithoutContainer : Calibration.State :=
  Calibration.mkState (Some (Calibration.mkScene None)) None false.

Definition someCalibration : Calibration.SafeModelCalibration :=
  Calibration.mkCalibration 1 (1 # 2) 0 0 false (1, 3, 1)%Q (3 # 2).

Definition walkModel : Animation.Model :=
  Animation.mkModel
    (Some [Animation.mkClip "idle" (JsNum.ofZ 1); Animation.mkClip "walk" (JsNum.ofZ 2)]).

Definition walkSelected : Animation.State :=
  Animation.mkState (Some "walk"%string) 7 0 false.

(** A model three units tall, standing one unit below the ground. *)
Definition tallModel : Calibration.Model :=
  Calibration.mkModel (Some (Calibration.mkBox3 (-1) (-1) (-1) 1 2 1)).

Definition sceneWithContainer : Calibration.State :=
  Calibration.mkState
    (Some (Calibration.mkScene (Some (Calibration.mkContainer (1, 1, 1)%Q 0 (1 # 4)))))
    None false.

(** The same scene, calibrated, with the front face set at a quarter. *)
Definition facedScene : Calibration.State :=
  Calibration.mkState
    (Some (Calibration.mkScene (Some (Calibration.mkContainer (1, 1, 1)%Q 0 (1 # 4)))))
    (Some (Calibration.mkCalibration 1 (1 # 2) 0 (1 # 4) true (1, 3, 1)%Q (3 # 2)))
    false.

(** Frame 3 of 60 of the clip, playing. *)
Definition midWalk : Animation.State :=
  Animation.mkState (Some "walk"%string) 3 60 true.

(** The editor on the last of its three frames. *)
Definition editorAtLastFrame : FrameEditor.Editor :=
  FrameEditor.mkEditor threeFrames false 2 false 12.

(** A bridge on which every call succeeds, and its host. *)
Definition soundBridge : Bridge := mkBridge (fun _ _ => true) (fun _ _ => true).

Definition soundHost : Host := mkHost (Some soundBridge) None soundPlatform.

Definition noFolder : Settings := mkSettings 128 128 1 None.

(** Frames of ten pixels by ten. *)
Definition tenByTen : Settings := mkSettings 10 10 1 (Some "out"%string).

(** A page whose canvas has no renderer yet, and a page without canvas. *)
Definition blindStore : Store := mkStore NoScene ∅ 0 [] false 0 None.
Definition bareStore : Store := mkStore NoCanvas ∅ 0 [] false 0 None.

(** The double 0.7, which is 6305039478318694 / 2^53. *)
Definition sevenTenths : JsNum.double :=
  SpecFloat.S754_finite false 6305039478318694 (-53).

End Fixture.

(* ===================================================================== *)
(** * Properties of the numbers *)
(* ===================================================================== *)

Section Numbers.
Import JsNum.
Local Open Scope Z_scope.

Lemma round53_small n : 0 <= n <= 2 ^ 53 -> round53 n = n.
Proof.
  intros [Hlo Hhi]. unfold round53.
  destruct (Z.leb_spec (Z.log2 n + 1 - 53) 0) as [_ | Hk]; [reflexivity|].
  assert (n = 2 ^ 53) as ->.
  { destruct (Z.eq_dec n 0) as [-> | Hn]; [cbn in Hk; lia|].
    pose proof (Z.log2_spec n ltac:(lia)) as [Hl _].
    assert (53 <= Z.log2 n) by lia.
    pose proof (Z.pow_le_mono_r 2 53 (Z.log2 n) ltac:(lia) ltac:(lia)). lia. }
  reflexivity.
Qed.

Lemma round53_pos n : 0 < n -> 0 < round53 n.
Proof.
  intros Hn. unfold round53.
  destruct (Z.leb_spec (Z.log2 n + 1 - 53) 0) as [_ | Hk]; [exact Hn|].
  set (k := Z.log2 n + 1 - 53) in *. cbn zeta.
  rewrite !Z.shiftl_mul_pow2, Z.shiftr_div_pow2 by lia.
  assert (0 < 2 ^ k) by (apply Z.pow_pos_nonneg; lia).
  assert (1 <= n / 2 ^ k).
  { apply Z.div_le_lower_bound; [lia|].
    pose proof (Z.log2_spec n Hn) as [Hl _].
    pose proof (Z.pow_le_mono_r 2 k (Z.log2 n) ltac:(lia) ltac:(lia)). lia. }
  destruct (_ || _); nia.
Qed.

Lemma toNumber_small z : Z.abs z <= 2 ^ 53 -> toNumber z = Int z.
Proof.
  intros Hz. unfold toNumber. rewrite round53_small by lia.
  destruct (Z.leb_spec (2 ^ 1024) (Z.abs z)) as [Hbig | _].
  - assert (2 ^ 53 < 2 ^ 1024) by (apply Z.pow_lt_mono_r; lia). lia.
  - f_equal. rewrite Z.mul_comm. apply Z.abs_sgn.
Qed.

Lemma toNumber_sign z : (FrameEditor.sortCompare (toNumber z) <=? 0) = (z <=? 0).
Proof.
  unfold toNumber.
  destruct (Z.eq_dec z 0) as [-> | Hz]; [reflexivity|].
  pose proof (round53_pos (Z.abs z) ltac:(lia)) as Hpos.
  destruct (Z.leb_spec (2 ^ 1024) (round53 (Z.abs z))) as [_ | _].
  - destruct (Z.ltb_spec 0 z); cbn; destruct (Z.leb_spec z 0); lia.
  - cbn. destruct (Z.leb_spec (Z.sgn z * round53 (Z.abs z)) 0), (Z.leb_spec z 0);
      try reflexivity; nia.
Qed.

Lemma toNumber_numeric z : numeric (toNumber z).
Proof.
  unfold toNumber.
  destruct (Z.leb_spec (2 ^ 1024) (round53 (Z.abs z))) as [_ | Hlt].
  - destruct (0 <? z); exact I.
  - unfold numeric. destruct (Z.lt_trichotomy z 0) as [Hneg | [-> | Hpos]].
    + pose proof (round53_pos (Z.abs z) ltac:(lia)).
      rewrite (Z.sgn_neg z Hneg). lia.
    + cbn. lia.
    + pose proof (round53_pos (Z.abs z) ltac:(lia)).
      rewrite (Z.sgn_pos z Hpos). lia.
Qed.

Lemma minus_sign a b :
  numeric a -> numeric b ->
  (FrameEditor.sortCompare (minus a b) <=? 0) = (rank a <=? rank b).
Proof.
  assert (0 < 2 ^ 1024) by (apply Z.pow_pos_nonneg; lia).
  destruct a as [x | | |], b as [y | | |]; cbn [numeric minus rank FrameEditor.sortCompare];
    intros Ha Hb; try contradiction.
  - rewrite toNumber_sign. destruct (Z.leb_spec (x - y) 0), (Z.leb_spec x y); lia.
  - destruct (Z.leb_spec (-1) 0), (Z.leb_spec x (2 ^ 1024)); lia.
  - destruct (Z.leb_spec 1 0), (Z.leb_spec x (- 2 ^ 1024)); lia.
  - destruct (Z.leb_spec 1 0), (Z.leb_spec (2 ^ 1024) y); lia.
  - destruct (Z.leb_spec 0 0), (Z.leb_spec (2 ^ 1024) (2 ^ 1024)); lia.
  - destruct (Z.leb_spec 1 0), (Z.leb_spec (2 ^ 1024) (- 2 ^ 1024)); lia.
  - destruct (Z.leb_spec (-1) 0), (Z.leb_spec (- 2 ^ 1024) y); lia.
  - destruct (Z.leb_spec (-1) 0), (Z.leb_spec (- 2 ^ 1024) (2 ^ 1024)); lia.
  - destruct (Z.leb_spec 0 0), (Z.leb_spec (- 2 ^ 1024) (- 2 ^ 1024)); lia.
Qed.

Lemma round53_bounds n :
  0 < n -> 2 ^ Z.log2 n <= round53 n <= 2 ^ (Z.log2 n + 1).
Proof.
  intros Hn. pose proof (Z.log2_spec n Hn) as [Hlo Hhi].
  rewrite <- Z.add_1_r in Hhi.
  unfold round53.
  destruct (Z.leb_spec (Z.log2 n + 1 - 53) 0) as [_ | Hk]; [lia|].
  set (k := Z.log2 n + 1 - 53) in *. cbn zeta.
  rewrite !Z.shiftl_mul_pow2, Z.shiftr_div_pow2 by lia.
  assert (0 < 2 ^ k) as HP by (apply Z.pow_pos_nonneg; lia).
  assert (Z.log2 n = 52 + k) as Hl by lia. rewrite Hl in *.
  replace (52 + k + 1) with (53 + k) in * by lia.
  rewrite !Z.pow_add_r in * by lia.
  set (P := 2 ^ k) in *.
  pose proof (Z.div_mod n P ltac:(lia)) as Hdm.
  pose proof (Z.mod_pos_bound n P HP) as Hr.
  assert (2 ^ 52 <= n / P) by (apply Z.div_le_lower_bound; lia).
  assert (n / P < 2 ^ 53) by (apply Z.div_lt_upper_bound; lia).
  destruct (_ || _); nia.
Qed.

Lemma round53_mono a b : 0 <= a <= b -> round53 a <= round53 b.
Proof.
  intros [Ha Hab].
  destruct (Z.eq_dec a 0) as [-> | Hna].
  { destruct (Z.eq_dec b 0) as [-> | Hnb]; [lia|].
    pose proof (round53_pos b ltac:(lia)). change (round53 0) with 0. lia. }
  pose proof (Z.log2_le_mono a b Hab) as Hlog.
  destruct (Z.eq_dec (Z.log2 a) (Z.log2 b)) as [Heq | Hne].
  - unfold round53. rewrite Heq.
    destruct (Z.leb_spec (Z.log2 b + 1 - 53) 0) as [_ | Hk]; [exact Hab|].
    set (k := Z.log2 b + 1 - 53) in *. cbn zeta.
    rewrite !Z.shiftl_mul_pow2, !Z.shiftr_div_pow2 by lia.
    assert (0 < 2 ^ k) as HP by (apply Z.pow_pos_nonneg; lia).
    assert (0 < 2 ^ (k - 1)) as HH by (apply Z.pow_pos_nonneg; lia).
    set (P := 2 ^ k) in *. rewrite Z.mul_1_l. set (half := 2 ^ (k - 1)) in *.
    pose proof (Z.div_mod a P ltac:(lia)) as Hda.
    pose proof (Z.mod_pos_bound a P HP) as Hra.
    pose proof (Z.div_mod b P ltac:(lia)) as Hdb.
    pose proof (Z.mod_pos_bound b P HP) as Hrb.
    pose proof (Z.div_le_mono a b P HP Hab) as Hq.
    destruct (Z.eq_dec (a / P) (b / P)) as [Hqe | Hqn].
    + rewrite Hqe in *.
      destruct (Z.ltb_spec half (a - b / P * P)), (Z.ltb_spec half (b - b / P * P)),
        (Z.eqb_spec (a - b / P * P) half), (Z.eqb_spec (b - b / P * P) half),
        (Z.odd (b / P)); cbn [orb andb]; nia.
    + destruct (_ || _), (_ || _); nia.
  - pose proof (round53_bounds a ltac:(lia)) as [_ Hua].
    pose proof (round53_bounds b ltac:(lia)) as [Hlb _].
    pose proof (Z.pow_le_mono_r 2 (Z.log2 a + 1) (Z.log2 b) ltac:(lia) ltac:(lia)). lia.
Qed.

Lemma toNumber_mono x y : 0 <= x <= y -> rank (toNumber x) <= rank (toNumber y).
Proof.
  intros [Hx Hxy]. pose proof (round53_mono x y (conj Hx Hxy)) as Hm.
  assert (0 < 2 ^ 1024) by (apply Z.pow_pos_nonneg; lia).
  unfold toNumber. rewrite !Z.abs_eq by lia.
  destruct (Z.eq_dec x 0) as [-> | Hnx].
  { change (round53 0) with 0. destruct (Z.leb_spec (2 ^ 1024) 0); [lia|].
    cbn [Z.sgn Z.mul rank].
    destruct (Z.eq_dec y 0) as [-> | Hny].
    - change (round53 0) with 0. destruct (Z.leb_spec (2 ^ 1024) 0); [lia|]. cbn. lia.
    - pose proof (round53_pos y ltac:(lia)). rewrite (Z.sgn_pos y) by lia.
      destruct (Z.leb_spec (2 ^ 1024) (round53 y)).
      + destruct (Z.ltb_spec 0 y); cbn [rank]; lia.
      + cbn [rank]. lia. }
  rewrite (Z.sgn_pos x), (Z.sgn_pos y) by lia.
  destruct (Z.leb_spec (2 ^ 1024) (round53 x)), (Z.leb_spec (2 ^ 1024) (round53 y)),
    (Z.ltb_spec 0 x), (Z.ltb_spec 0 y); cbn [rank]; lia.
Qed.
End Numbers.

(* ===================================================================== *)
(** * Properties of the frame plan *)
(* ===================================================================== *)

Section PlanProperties.
Import JsNum Sequencer.
Local Open Scope Z_scope.

Lemma ceil_quot_step a s : 0 < s -> ceil_quot (a - s) s = ceil_quot a s - 1.
Proof.
  intros Hs. unfold ceil_quot.
  replace (- (a - s)) with (- a + 1 * s) by lia.
  rewrite Z.div_add by lia. lia.
Qed.

Lemma ceil_quot_pos a s : 0 < s -> 0 < a -> 1 <= ceil_quot a s.
Proof.
  intros Hs Ha. unfold ceil_quot.
  assert (- a / s < 0) by (apply Z.div_lt_upper_bound; lia). lia.
Qed.

Lemma ceil_quot_nonpos a s : 0 < s -> a <= 0 -> ceil_quot a s <= 0.
Proof.
  intros Hs Ha. unfold ceil_quot.
  assert (0 <= - a / s) by (apply Z.div_pos; lia). lia.
Qed.

Lemma ceil_quot_bounds n c : 0 < c -> c * (ceil_quot n c - 1) < n <= c * ceil_quot n c.
Proof.
  intros Hc. unfold ceil_quot.
  pose proof (Z.div_mod (- n) c ltac:(lia)).
  pose proof (Z.mod_pos_bound (- n) c Hc). nia.
Qed.

(** The sampling loop visits [i, i + step, i + 2 step, ...] below
    [totalFrames], and nothing else. *)
Lemma sample_from_multiples step totalFrames i :
  sample_from step totalFrames i
  = map (fun k => i + Z.of_nat k * Z.pos step)
        (seq 0 (Z.to_nat (ceil_quot (totalFrames - i) (Z.pos step)))).
Proof.
  funelim (sample_from step totalFrames i).
  - rewrite H.
    replace (totalFrames - (i + Z.pos step)) with (totalFrames - i - Z.pos step) by lia.
    rewrite ceil_quot_step by lia.
    pose proof (ceil_quot_pos (totalFrames - i) (Z.pos step) ltac:(lia) ltac:(lia)) as Hpos.
    replace (Z.to_nat (ceil_quot (totalFrames - i) (Z.pos step)))
      with (S (Z.to_nat (ceil_quot (totalFrames - i) (Z.pos step) - 1))) by lia.
    cbn [seq map]. f_equal; [lia|].
    rewrite <- seq_shift, map_map. apply map_ext. intros k. lia.
  - pose proof (ceil_quot_nonpos (totalFrames - i) (Z.pos step) ltac:(lia) ltac:(lia)).
    replace (Z.to_nat _) with 0%nat by lia. reflexivity.
Qed.

Lemma sample_all totalFrames : sample_from 1 totalFrames 0 = every_index totalFrames.
Proof.
  rewrite sample_from_multiples. unfold every_index, ceil_quot.
  rewrite Z.sub_0_r, Z.div_1_r, Z.opp_involutive.
  apply map_ext. intros k. lia.
Qed.

Lemma last_frame_snoc l x : last_frame (l ++ [x]) = Some x.
Proof. unfold last_frame. rewrite map_app. cbn. apply last_last. Qed.

Lemma last_frame_every_index totalFrames :
  1 <= totalFrames -> last_frame (every_index totalFrames) = Some (totalFrames - 1).
Proof.
  intros H. unfold every_index.
  replace (Z.to_nat totalFrames) with (S (Z.to_nat (totalFrames - 1))) by lia.
  rewrite seq_S, map_app. cbn [map]. rewrite last_frame_snoc. f_equal. lia.
Qed.

Lemma planFrames_every_index totalFrames :
  1 <= totalFrames ->
  (if decide (last_frame (sample_from 1 totalFrames 0) = Some (totalFrames - 1))
   then sample_from 1 totalFrames 0
   else sample_from 1 totalFrames 0 ++ [totalFrames - 1])
  = every_index totalFrames.
Proof.
  intros H. rewrite sample_all.
  rewrite decide_True by (apply last_frame_every_index; lia). reflexivity.
Qed.

(** With a zero [renderSteps] the quotient is infinite and the loop stops
    after index 0; only the forced last frame follows. *)
Lemma planFrames_zero_steps totalFrames :
  1 < totalFrames -> planFrames totalFrames 0 = [0; totalFrames - 1].
Proof.
  intros H. unfold planFrames, floor_div.
  destruct (Z.leb_spec totalFrames 0) as [? | _]; [lia|].
  destruct (Z.ltb_spec 0 totalFrames) as [_ | ?]; [|lia].
  cbn. destruct (Z.ltb_spec 0 totalFrames) as [_ | ?]; [|lia].
  rewrite decide_False; [reflexivity|].
  cbn. intros [= ?]. lia.
Qed.

(** ** C3, as amended *)

(** C3 (amended).  For every [totalFrames >= 1] and every [renderSteps]
    other than 0, the plan of [exportSequence] is the plan of the
    specification: every index when [renderSteps <= 1] or
    [renderSteps >= totalFrames]; otherwise the multiples of
    [step = max(1, floor(totalFrames / renderSteps))] below [totalFrames],
    with [totalFrames - 1] appended when it is not already last.  In
    particular the plan for 100 frames in 10 steps is
    0, 10, ..., 90, 99. *)
Theorem planFrames_meets_plan_for_nonzero_steps totalFrames renderSteps :
  1 <= totalFrames -> renderSteps <> 0 ->
  planFrames totalFrames renderSteps = planFrames_spec totalFrames renderSteps
  /\ planFrames 100 10 = [0; 10; 20; 30; 40; 50; 60; 70; 80; 90; 99].
Proof.
  intros Htf Hrs. split; [|reflexivity].
  unfold planFrames, planFrames_spec.
  destruct (Z.leb_spec totalFrames renderSteps) as [Hge | Hlt].
  - rewrite !orb_true_r. now apply planFrames_every_index.
  - rewrite !orb_false_r.
    destruct (Z.eqb_spec renderSteps 1) as [-> | Hne1].
    + cbn [Z.leb Z.compare]. now apply planFrames_every_index.
    + unfold floor_div. destruct (Z.eqb_spec renderSteps 0) as [? | _]; [contradiction|].
      cbn [max_one sample].
      destruct (Z.leb_spec renderSteps 1) as [Hneg | Hbig].
      * assert (totalFrames / renderSteps < 0) as Hq.
        { rewrite <- Z.div_opp_opp by lia. apply Z.div_lt_upper_bound; lia. }
        rewrite Z.max_l by lia. change (Z.to_pos 1) with 1%positive.
        now apply planFrames_every_index.
      * unfold force_last, floor_quot.
        set (step := Z.max 1 (totalFrames / renderSteps)).
        assert (sample_from (Z.to_pos step) totalFrames 0
                = multiples_below step totalFrames) as ->; [|reflexivity].
        rewrite sample_from_multiples. unfold multiples_below.
        rewrite Z2Pos.id, Z.sub_0_r by lia.
        apply map_ext. intros k. lia.
Qed.

Lemma planFrames_meets_plan_for_nonzero_steps_witness :
  1 <= 100 /\ 10 <> 0
  /\ planFrames 100 10 = planFrames_spec 100 10
  /\ planFrames 100 10 = [0; 10; 20; 30; 40; 50; 60; 70; 80; 90; 99].
Proof.
  split; [lia|]. split; [lia|].
  apply (planFrames_meets_plan_for_nonzero_steps 100 10); lia.
Defined.

(** C3 as stated fails at [renderSteps = 0]: five frames give the plan
    0, 4 where the specification promises every index. *)
Lemma planFrames_zero_steps_counterexample :
  1 <= 5 /\ (0 <=? 1) = true
  /\ planFrames 5 0 = [0; 4]
  /\ planFrames_spec 5 0 = [0; 1; 2; 3; 4]
  /\ planFrames 5 0 <> planFrames_spec 5 0.
Proof. repeat split; try reflexivity; try lia. discriminate. Qed.

Example planFrames_5_1 : planFrames 5 1 = [0; 1; 2; 3; 4].
Proof. reflexivity. Qed.

End PlanProperties.

(* ===================================================================== *)
(** * Properties of the sprite-sheet layouts *)
(* ===================================================================== *)

Section LayoutProperties.
Import JsNum Sequencer FrameEditor.
Local Open Scope Z_scope.

Lemma ceil_sqrt_bounds n :
  1 <= n ->
  1 <= ceil_sqrt n /\ (ceil_sqrt n - 1) * (ceil_sqrt n - 1) < n <= ceil_sqrt n * ceil_sqrt n.
Proof.
  intros Hn. unfold ceil_sqrt.
  pose proof (Z.sqrt_up_spec n ltac:(lia)) as [Hlo Hhi].
  pose proof (proj2 (Z.sqrt_up_pos n) ltac:(lia)).
  rewrite <- Z.sub_1_r in Hlo. lia.
Qed.

Lemma cellOf_in_grid n c i :
  0 < c -> 0 <= i < n ->
  0 <= i mod c < c /\ 0 <= i / c < ceil_quot n c.
Proof.
  intros Hc Hi.
  pose proof (Z.mod_pos_bound i c Hc).
  pose proof (ceil_quot_bounds n c Hc).
  assert (0 <= i / c) by (apply Z.div_pos; lia).
  repeat split; try lia.
  apply Z.div_lt_upper_bound; nia.
Qed.

End LayoutProperties.

(* ===================================================================== *)
(** * Properties of the frame editor *)
(* ===================================================================== *)

(** ** Sorting by a key is a stable sort *)

Section StableSort.
Import FrameEditor.
Context {A : Type} (key : A -> Z) (cmp : A -> A -> Z).
Hypothesis cmp_key : forall a b, (cmp a b <=? 0)%Z = (key a <=? key b)%Z.

Lemma insert_Permutation x l : Permutation (insert cmp x l) (x :: l).
Proof.
  induction l as [| y rest IH]; cbn; [reflexivity|].
  destruct (cmp x y <=? 0)%Z; [reflexivity|].
  rewrite IH. apply perm_swap.
Qed.

Lemma sort_Permutation l : Permutation (sort cmp l) l.
Proof.
  induction l as [| x rest IH]; cbn; [reflexivity|].
  rewrite insert_Permutation. now apply perm_skip.
Qed.

Lemma insert_sorted x l :
  StronglySorted (fun a b => (key a <= key b)%Z) l ->
  StronglySorted (fun a b => (key a <= key b)%Z) (insert cmp x l).
Proof.
  induction 1 as [| y rest Hrest IH Hall]; cbn.
  - repeat constructor.
  - rewrite cmp_key. destruct (Z.leb_spec (key x) (key y)) as [Hle | Hgt].
    + constructor; [now constructor|].
      constructor; [exact Hle|].
      eapply Forall_impl; [exact Hall|]. cbn. intros; lia.
    + constructor; [exact IH|].
      rewrite (insert_Permutation x rest).
      constructor; [lia | exact Hall].
Qed.

Lemma sort_sorted l : StronglySorted (fun a b => (key a <= key b)%Z) (sort cmp l).
Proof.
  induction l as [| x rest IH]; cbn; [constructor | now apply insert_sorted].
Qed.

(** Inserting does not reorder the elements of any one key. *)
Lemma insert_stable k x l :
  filter (fun y => key y = k) (insert cmp x l) = filter (fun y => key y = k) (x :: l).
Proof.
  induction l as [| y rest IH]; cbn; [reflexivity|].
  rewrite cmp_key. destruct (Z.leb_spec (key x) (key y)) as [Hle | Hgt]; [reflexivity|].
  rewrite (filter_cons _ y), IH, !filter_cons.
  repeat case_decide; try reflexivity; lia.
Qed.

Lemma sort_stable k l :
  filter (fun y => key y = k) (sort cmp l) = filter (fun y => key y = k) l.
Proof.
  induction l as [| x rest IH]; [reflexivity|].
  change (sort cmp (x :: rest)) with (insert cmp x (sort cmp rest)).
  rewrite insert_stable, !filter_cons, IH. reflexivity.
Qed.

Lemma filter_key_head x l :
  filter (fun y => key y = key x) (x :: l) = x :: filter (fun y => key y = key x) l.
Proof. rewrite filter_cons. case_decide; [reflexivity | contradiction]. Qed.

Lemma sorted_head_least x l y :
  StronglySorted (fun a b => (key a <= key b)%Z) (x :: l) ->
  y ∈ filter (fun z => key z = key y) (x :: l) -> (key x <= key y)%Z.
Proof.
  intros Hs Hy. apply list_elem_of_filter in Hy as [_ Hy].
  apply StronglySorted_inv in Hs as [_ Hall].
  apply elem_of_cons in Hy as [-> | Hy]; [lia|].
  rewrite Forall_forall in Hall. apply Hall. exact Hy.
Qed.

(** Two lists sorted by key that hold, for every key, the same elements
    in the same order, are the same list. *)
Lemma stable_sorted_unique l1 l2 :
  StronglySorted (fun a b => (key a <= key b)%Z) l1 ->
  StronglySorted (fun a b => (key a <= key b)%Z) l2 ->
  (forall k, filter (fun y => key y = k) l1 = filter (fun y => key y = k) l2) ->
  l1 = l2.
Proof.
  revert l2. induction l1 as [| x r1 IH]; intros l2 Hs1 Hs2 Hsame.
  - destruct l2 as [| y r2]; [reflexivity|].
    specialize (Hsame (key y)). rewrite filter_key_head in Hsame. discriminate.
  - destruct l2 as [| y r2].
    + specialize (Hsame (key x)). rewrite filter_key_head in Hsame. discriminate.
    + assert (key x = key y) as Hk.
      { apply Z.le_antisymm.
        - apply (sorted_head_least x r1 y Hs1).
          rewrite Hsame, filter_key_head. apply elem_of_cons. now left.
        - apply (sorted_head_least y r2 x Hs2).
          rewrite <- Hsame, filter_key_head. apply elem_of_cons. now left. }
      pose proof (Hsame (key x)) as Hx.
      rewrite filter_key_head, Hk, filter_key_head in Hx.
      injection Hx as -> Hrest. f_equal.
      apply IH.
      * now apply StronglySorted_inv in Hs1 as [? _].
      * now apply StronglySorted_inv in Hs2 as [? _].
      * intros k. specialize (Hsame k). rewrite !filter_cons in Hsame.
        case_decide; [injection Hsame as ?|]; assumption.
Qed.

(** So [sort] is the only stable sort by [key]: the result does not depend
    on how the engine sorts. *)
Lemma sort_is_the_stable_sort l sorted :
  StronglySorted (fun a b => (key a <= key b)%Z) sorted ->
  (forall k, filter (fun y => key y = k) sorted = filter (fun y => key y = k) l) ->
  sorted = sort cmp l.
Proof.
  intros Hsorted Hstable. apply stable_sorted_unique; [exact Hsorted | apply sort_sorted |].
  intros k. rewrite sort_stable. apply Hstable.
Qed.

End StableSort.

Section FirstInteger.
Import FrameEditor.
Local Open Scope Z_scope.

(** The first maximal run of digits is what [matchDigits] finds, and its
    value in base ten is what [parseDigits] computes. *)

Lemma append_nil (s : string) : ("" +:+ s)%string = s.
Proof. reflexivity. Qed.

Lemma append_cons c (s t : string) : (String c s +:+ t)%string = String c (s +:+ t).
Proof. reflexivity. Qed.

Lemma takeDigits_run digits post :
  Forall (fun c => isDigit c = true) (chars digits) -> stops post ->
  takeDigits (digits +:+ post) = digits.
Proof.
  intros Hd Hpost. induction digits as [| c rest IH].
  - rewrite append_nil. destruct post as [| c rest]; [reflexivity|].
    cbn [stops takeDigits] in Hpost |- *. rewrite Hpost. reflexivity.
  - apply Forall_cons in Hd as [Hc Hrest]. rewrite append_cons. cbn [takeDigits].
    rewrite Hc, (IH Hrest). reflexivity.
Qed.

Lemma matchDigits_first pre digits post :
  Forall (fun c => isDigit c = false) (chars pre) ->
  digits <> ""%string -> Forall (fun c => isDigit c = true) (chars digits) ->
  stops post ->
  matchDigits (pre +:+ digits +:+ post) = Some digits.
Proof.
  intros Hpre Hne Hd Hpost. induction pre as [| c rest IH].
  - rewrite append_nil. destruct digits as [| d more]; [contradiction|].
    pose proof Hd as Hd'. apply Forall_cons in Hd' as [Hc _].
    rewrite append_cons. cbn [matchDigits]. rewrite Hc. f_equal.
    rewrite <- append_cons. apply (takeDigits_run (String d more) post Hd Hpost).
  - apply Forall_cons in Hpre as [Hc Hrest]. rewrite append_cons. cbn [matchDigits].
    rewrite Hc. apply IH, Hrest.
Qed.

Lemma matchDigits_none f :
  Forall (fun c => isDigit c = false) (chars f) -> matchDigits f = None.
Proof.
  induction f as [| c rest IH]; cbn -[isDigit]; [reflexivity|].
  intros H. apply Forall_cons in H as [Hc Hrest]. rewrite Hc. apply IH, Hrest.
Qed.

Lemma parseDigits_decimal acc digits :
  Forall (fun c => isDigit c = true) (chars digits) ->
  parseDigits acc digits
  = acc * 10 ^ Z.of_nat (String.length digits) + decimal (map digitValue (chars digits)).
Proof.
  revert acc. induction digits as [| c rest IH]; intros acc Hd; cbn [parseDigits].
  - cbn. lia.
  - apply Forall_cons in Hd as [Hc Hrest]. rewrite (IH _ Hrest).
    cbn [chars list_ascii_of_string map decimal String.length].
    fold (chars rest). rewrite length_map.
    assert (length (chars rest) = String.length rest) as ->.
    { clear. induction rest; cbn; [reflexivity | f_equal; assumption]. }
    rewrite Nat2Z.inj_succ, Z.pow_succ_r by lia.
    unfold digitValue. unfold isDigit in Hc. cbn zeta in Hc.
    apply andb_prop in Hc as [Hlo _]. apply Nat.leb_le in Hlo.
    rewrite Nat2Z.inj_sub by exact Hlo. cbn [Z.of_nat]. lia.
Qed.

Lemma firstInteger_decimal pre digits post :
  Forall (fun c => isDigit c = false) (chars pre) ->
  digits <> ""%string -> Forall (fun c => isDigit c = true) (chars digits) ->
  stops post ->
  firstInteger (pre +:+ digits +:+ post) = decimal (map digitValue (chars digits)).
Proof.
  intros Hpre Hne Hd Hpost. unfold firstInteger.
  rewrite (matchDigits_first pre digits post Hpre Hne Hd Hpost).
  rewrite (parseDigits_decimal 0 digits Hd). lia.
Qed.
End FirstInteger.

Section EditorProperties.
Import FrameEditor.

Lemma parseDigits_nonneg acc digits : (0 <= acc -> 0 <= parseDigits acc digits)%Z.
Proof.
  revert acc. induction digits as [| c rest IH]; intros acc Hacc; [exact Hacc|].
  cbn [parseDigits]. apply IH. lia.
Qed.

Lemma firstInteger_nonneg f : (0 <= firstInteger f)%Z.
Proof.
  unfold firstInteger. destruct (matchDigits f); [apply parseDigits_nonneg|]; lia.
Qed.

Lemma frameNumber_firstInteger f : frameNumber f = JsNum.toNumber (firstInteger f).
Proof. unfold frameNumber, firstInteger, parseInt. destruct (matchDigits f); reflexivity. Qed.

Lemma compareFiles_key a b :
  (sortCompare (compareFiles a b) <=? 0)%Z = (frameKey a <=? frameKey b)%Z.
Proof.
  unfold compareFiles, frameKey. apply minus_sign;
    rewrite frameNumber_firstInteger; apply toNumber_numeric.
Qed.

(** ** C7, as amended *)

(** C7 (amended).  For every directory listing, the image files taken for
    ingestion are the [.png] files of the listing rearranged in increasing
    order of the double nearest to the first integer embedded in the file
    name (0 when the name has no digit), and files with the same double
    keep the order they have in the listing, whatever their names.  The
    first integer is the value of the first maximal run of digits.  Up to
    2^53 the double is the integer itself, and beyond it the order of the
    doubles never contradicts the order of the integers.  The listing
    f2.png, f10.png, f1.png is ordered f1, f2, f10. *)
Theorem imageFiles_stable_numeric_order (files : list string) :
  Permutation (imageFiles files) (List.filter isPng files)
  /\ StronglySorted (fun a b => (frameKey a <= frameKey b)%Z) (imageFiles files)
  /\ (forall k, filter (fun f => frameKey f = k) (imageFiles files)
                = filter (fun f => frameKey f = k) (List.filter isPng files))
  /\ (forall f, frameNumber f = JsNum.toNumber (firstInteger f))
  /\ (forall pre digits post,
        Forall (fun c => isDigit c = false) (chars pre) ->
        digits <> ""%string -> Forall (fun c => isDigit c = true) (chars digits) ->
        stops post ->
        firstInteger (pre +:+ digits +:+ post) = decimal (map digitValue (chars digits)))
  /\ (forall f, Forall (fun c => isDigit c = false) (chars f) -> firstInteger f = 0%Z)
  /\ (forall f, (firstInteger f <= 2 ^ 53)%Z -> frameKey f = firstInteger f)
  /\ (forall a b, (firstInteger a <= firstInteger b)%Z -> (frameKey a <= frameKey b)%Z)
  /\ imageFiles ["f2.png"; "f10.png"; "f1.png"] = ["f1.png"; "f2.png"; "f10.png"]
  /\ imageFiles ["b7.png"; "a7.png"; "notes.txt"; "c3.PNG"] = ["c3.PNG"; "b7.png"; "a7.png"]
  /\ imageFiles ["run5_take3.png"; "run4_take9.png"] = ["run4_take9.png"; "run5_take3.png"].
Proof.
  unfold imageFiles. split; [apply sort_Permutation|].
  split; [apply (sort_sorted frameKey), compareFiles_key|].
  split; [intros k; apply (sort_stable frameKey), compareFiles_key|].
  split; [exact frameNumber_firstInteger|].
  split; [exact firstInteger_decimal|].
  split; [intros f Hf; unfold firstInteger; rewrite (matchDigits_none f Hf); reflexivity|].
  split.
  { intros f Hf. unfold frameKey. rewrite frameNumber_firstInteger.
    pose proof (firstInteger_nonneg f).
    rewrite toNumber_small by (rewrite Z.abs_eq; lia). reflexivity. }
  split.
  { intros a b Hab. unfold frameKey. rewrite !frameNumber_firstInteger.
    apply toNumber_mono. pose proof (firstInteger_nonneg a). lia. }
  split; [vm_compute; reflexivity|]. split; vm_compute; reflexivity.
Qed.

(** C7 as stated fails above 2^53: the first integers 9007199254740993 and
    9007199254740992 are the same double, so the two files keep the order of
    the listing, the larger integer first. *)
Lemma imageFiles_beyond_doubles_counterexample :
  let a := "a9007199254740993.png"%string in
  let b := "b9007199254740992.png"%string in
  imageFiles [a; b] = [a; b]
  /\ firstInteger a = 9007199254740993%Z /\ firstInteger b = 9007199254740992%Z
  /\ (firstInteger b < firstInteger a)%Z
  /\ frameNumber a = JsNum.Int 9007199254740992 /\ frameNumber b = JsNum.Int 9007199254740992.
Proof. vm_compute. repeat split; reflexivity. Qed.

(** The rounding written out in [JsNum.toNumber] is that of the Standard
    Library's binary64. *)
Example toNumber_is_binary64 :
  Forall (fun z => JsNum.floor (JsNum.ofZ z) = JsNum.toNumber z)
    [0; 7; 9007199254740992; 9007199254740993; 9007199254740994; 9007199254740995;
     18014398509481985; 18014398509481987; 123456789012345678901234567890;
     2 ^ 1024 - 2 ^ 970 - 1; 2 ^ 1024 - 2 ^ 970; 2 ^ 1024; - 9007199254740993]%Z.
Proof. repeat constructor. Qed.

(** ** C9 *)

Lemma toggle_active_length (frames : list Frame) i f :
  frames !! i = Some f ->
  exists frames', toggleFrame i frames = Some frames'
    /\ length frames' = length frames
    /\ (if enabled f
        then S (length (getActiveFrames frames')) = length (getActiveFrames frames)
        else length (getActiveFrames frames') = S (length (getActiveFrames frames))).
Proof.
  intros Hi. unfold toggleFrame. rewrite Hi. cbn.
  eexists; split; [reflexivity|]. split; [apply length_insert|].
  pose proof (lookup_lt_Some _ _ _ Hi) as Hlt.
  rewrite insert_take_drop by exact Hlt.
  pose proof (take_drop_middle frames i f Hi) as Hsplit.
  revert Hsplit. generalize (take i frames), (drop (S i) frames).
  intros before after <-.
  unfold getActiveFrames. rewrite !List.filter_app, !length_app. cbn.
  destruct (enabled f); cbn; lia.
Qed.

Lemma toggle_keeps_identity (frames : list Frame) i f j g :
  frames !! i = Some f -> frames !! j = Some g ->
  exists g', (toggleFrame i frames ≫= fun frames' => frames' !! j) = Some g'
    /\ id g' = id g /\ filename g' = filename g /\ data g' = data g
    /\ width g' = width g /\ height g' = height g.
Proof.
  intros Hi Hj. unfold toggleFrame. rewrite Hi. cbn.
  pose proof (lookup_lt_Some _ _ _ Hi) as Hlt.
  destruct (decide (j = i)) as [-> | Hne].
  - rewrite list_lookup_insert_eq by exact Hlt.
    assert (g = f) as -> by congruence.
    eexists; split; [reflexivity|]. cbn. repeat split; reflexivity.
  - rewrite list_lookup_insert_ne by congruence.
    exists g. repeat split; try reflexivity. exact Hj.
Qed.

(** C9.  For every frame list and every index [i] below its length,
    [toggleFrame i] succeeds, leaves the number of frames unchanged, leaves
    at every position a frame with the same id, file name, data and
    dimensions as before, and changes the number of active frames by exactly
    one: one less when frame [i] was enabled, one more when it was not. *)
Theorem toggleFrame_preserves_frames (frames : list Frame) (i : nat) :
  (i < length frames)%nat ->
  exists frames' f,
    toggleFrame i frames = Some frames' /\ frames !! i = Some f
    /\ length frames' = length frames
    /\ (forall j g, frames !! j = Some g ->
          exists g', frames' !! j = Some g'
            /\ id g' = id g /\ filename g' = filename g /\ data g' = data g
            /\ width g' = width g /\ height g' = height g)
    /\ (enabled f = true ->
          S (length (getActiveFrames frames')) = length (getActiveFrames frames))
    /\ (enabled f = false ->
          length (getActiveFrames frames') = S (length (getActiveFrames frames))).
Proof.
  intros Hlt. destruct (lookup_lt_is_Some_2 frames i Hlt) as [f Hf].
  destruct (toggle_active_length frames i f Hf) as (frames' & Htoggle & Hlen & Hactive).
  exists frames', f. split; [exact Htoggle|]. split; [exact Hf|]. split; [exact Hlen|].
  split.
  - intros j g Hg.
    destruct (toggle_keeps_identity frames i f j g Hf Hg) as (g' & Hg' & Hsame).
    rewrite Htoggle in Hg'. exists g'. split; [exact Hg' | exact Hsame].
  - split; intros He; rewrite He in Hactive; exact Hactive.
Qed.

Lemma toggleFrame_preserves_frames_witness :
  (1 < length Fixture.threeFrames)%nat
  /\ exists frames', toggleFrame 1 Fixture.threeFrames = Some frames'
       /\ length frames' = length Fixture.threeFrames.
Proof.
  split; [cbn; lia|].
  destruct (toggleFrame_preserves_frames Fixture.threeFrames 1 ltac:(cbn; lia))
    as (frames' & f & Htoggle & _ & Hlen & _).
  exists frames'. split; assumption.
Defined.

End EditorProperties.

(* ===================================================================== *)
(** * Properties of the render capture *)
(* ===================================================================== *)

Section CaptureProperties.
Import Eff Capture.

(** The [finally] block puts back what the snapshot holds, whatever the
    [try] block did to the renderer, the background and the camera, as long
    as the camera is still of the class it had. *)
Lemma restore_observe s t :
  sameCameraClass (camera t) (camera s) = true ->
  observe (restore (takeSnapshot s) t) = observe s.
Proof.
  destruct s as [r b [p rot z pr] c], t as [r' b' [p' rot' z' pr'] c'].
  unfold sameCameraClass. cbn [camera projection].
  destruct pr, pr'; intros Hclass; try discriminate; reflexivity.
Qed.

Lemma prepare_sameCameraClass width height s :
  sameCameraClass (camera (prepare width height s)) (camera s) = true.
Proof. destruct s as [r b [p rot z []] c]; reflexivity. Qed.

(** Every run of [renderFrame] ends in the store that the [finally] block
    leaves. *)
Lemma renderFrame_final_store pf width height frameIndex s :
  snd (renderFrame pf width height frameIndex s)
  = restore (takeSnapshot s) (prepare width height s).
Proof.
  unfold renderFrame, try_finally, gets, modify, render, copyToExportCanvas, throw, ret.
  cbn. unfold mbind, M_bind, mret, M_ret. cbn.
  destruct (renderThrows pf frameIndex); cbn; [reflexivity|].
  destruct (context2d pf); reflexivity.
Qed.

Lemma renderFrame_result pf width height frameIndex s :
  fst (renderFrame pf width height frameIndex s)
  = if renderThrows pf frameIndex then inl (Err "render failed")
    else if context2d pf
         then inr (mkRaster width height
                     (sourceRect (dom_width (renderer (prepare width height s)))
                        (dom_height (renderer (prepare width height s))) width height))
         else inl (Err "Could not get 2D context for export canvas").
Proof.
  unfold renderFrame, try_finally, gets, modify, render, copyToExportCanvas, throw, ret.
  cbn. unfold mbind, M_bind, mret, M_ret. cbn.
  destruct (renderThrows pf frameIndex); cbn; [reflexivity|].
  destruct (context2d pf); reflexivity.
Qed.

(** ** C1 *)

(** C1.  For every call of [renderFrame], on any platform (so whether the
    call returns a raster or throws), the renderer's size, pixel ratio,
    clear colour and clear alpha, the scene background, and the camera's
    position, rotation, zoom and projection parameters are after the call
    what they were before it. *)
Theorem renderFrame_restores_observed_state pf width height frameIndex s :
  observe (snd (renderFrame pf width height frameIndex s)) = observe s.
Proof.
  rewrite renderFrame_final_store.
  apply restore_observe, prepare_sameCameraClass.
Qed.

(** Without a composer, and with a canvas that agrees with the renderer's
    size and pixel ratio, the whole store is as before: the canvas too. *)
Lemma renderFrame_restores_world pf width height frameIndex s :
  composer s = None ->
  dom_width (renderer s) = Qfloor (r_width (renderer s) * pixelRatio (renderer s)) ->
  dom_height (renderer s) = Qfloor (r_height (renderer s) * pixelRatio (renderer s)) ->
  snd (renderFrame pf width height frameIndex s) = s.
Proof.
  rewrite renderFrame_final_store.
  destruct s as [[w h pr cc ca dw dh] b [p rot z proj] c].
  cbn [composer renderer dom_width dom_height r_width r_height pixelRatio].
  intros -> -> ->. destruct proj; reflexivity.
Qed.

Example renderFrame_failure_restores :
  let pf := mkPlatform (fun _ => true) true in
  fst (renderFrame pf 128 128 0 Fixture.theWorld) = inl (Err "render failed")
  /\ snd (renderFrame pf 128 128 0 Fixture.theWorld) = Fixture.theWorld.
Proof. split; reflexivity. Qed.

(** ** Rounding and the centred crop *)







End CaptureProperties.

Section CaptureSize.
Import Eff Capture.

(** At the time of the copy the renderer canvas has the export size. *)
Lemma prepare_canvas width height s :
  dom_width (renderer (prepare width height s)) = width
  /\ dom_height (renderer (prepare width height s)) = height.
Proof.
  destruct s as [r b c k]. cbn -[Qfloor Qmult inject_Z].
  split; (erewrite Qfloor_comp; [apply Qfloor_Z | apply Qmult_1_r]).
Qed.

(** ** C2 *)



(** X30.  In [renderFrame] itself the renderer has been resized to the
    target at pixel ratio 1 before the copy, so its canvas has the target's
    size: the crop is never taken, and every raster that [renderFrame]
    returns is a copy of the whole canvas. *)
Lemma renderFrame_copies_whole_canvas pf width height frameIndex s raster :
  fst (renderFrame pf width height frameIndex s) = inr raster ->
  raster = mkRaster width height (mkRect 0 0 width height).
Proof.
  rewrite renderFrame_result.
  destruct (renderThrows pf frameIndex); [discriminate|].
  destruct (context2d pf); [|discriminate].
  destruct (prepare_canvas width height s) as [-> ->].
  intros Hr. injection Hr as <-. f_equal. unfold sourceRect.
  destruct (Qlt_le_dec _ _) as [Hfar | _]; [|reflexivity].
  exfalso. revert Hfar.
  set (a := (inject_Z width / inject_Z height)%Q).
  assert (a - a == 0)%Q as -> by ring.
  intros Hfar. vm_compute in Hfar. discriminate.
Qed.

Example sourceRect_wide : sourceRect 200 100 128 128 = mkRect 50 0 100 100.
Proof. reflexivity. Qed.

Example sourceRect_tall : sourceRect 100 300 128 64 = mkRect 0 125 100 50.
Proof. reflexivity. Qed.

End CaptureSize.

(* ===================================================================== *)
(** * Properties of the calibration *)
(* ===================================================================== *)

Section CalibrationProperties.
Import Calibration.

Lemma divide_defined a b : (0 < b)%Q -> divide a b = Some (a / b)%Q.
Proof.
  intros Hb. unfold divide.
  destruct (Qeq_bool b 0) eqn:E; [|reflexivity].
  apply Qeq_bool_eq in E. lra.
Qed.

(** The quotient is taken only of a positive height. *)
Lemma rawScale_defined targetHeight h :
  exists s, rawScale targetHeight h = Some s
    /\ ((0 < h)%Q -> s = (targetHeight / h)%Q) /\ ((h <= 0)%Q -> s = 1%Q).
Proof.
  unfold rawScale. destruct (Qlt_le_dec 0 h) as [Hpos | Hle].
  - rewrite divide_defined by exact Hpos. eexists; split; [reflexivity|].
    split; [reflexivity | intros; lra].
  - eexists; split; [reflexivity|]. split; [intros; lra | reflexivity].
Qed.

Lemma clampScale_range s : ((1 # 2) <= clampScale s <= 20)%Q.
Proof.
  unfold clampScale. split.
  - apply Q.le_max_r.
  - apply Q.max_lub; [apply Q.le_min_r | lra].
Qed.

(** ** C10 *)

(** C10.  For every model with a scene root, [analyzeModel] returns a
    calibration: the quotient [targetHeight / height] has a value whenever it
    is taken, because it is taken only when the bounding-box height is
    positive; when the height is zero or negative the scale before clamping
    is 1 (and stays 1); and the [normalizedScale] returned always lies
    between 0.5 and 20. *)
Theorem analyzeModel_scale_guarded model box :
  model_scene model = Some box ->
  exists c, analyzeModel (Some model) = Some c
    /\ ((1 # 2) <= normalizedScale c <= 20)%Q
    /\ is_Some (rawScale (3 # 2) (snd (fst (getSize box))))
    /\ ((snd (fst (getSize box)) <= 0)%Q ->
        rawScale (3 # 2) (snd (fst (getSize box))) = Some 1%Q
        /\ normalizedScale c = 1%Q).
Proof.
  intros Hscene. unfold analyzeModel. cbn [mbind option_bind]. rewrite Hscene.
  destruct (getSize box) as [[sx sy] sz]. cbn [fst snd].
  destruct (rawScale_defined (3 # 2) sy) as (s & Hs & Hpos & Hdeg).
  rewrite Hs. cbn.
  eexists; split; [reflexivity|]. cbn [normalizedScale].
  split; [apply clampScale_range|]. split; [eexists; reflexivity|].
  intros Hle. rewrite (Hdeg Hle). split; reflexivity.
Qed.

Lemma analyzeModel_scale_guarded_witness :
  model_scene (mkModel (Some Fixture.flatBox)) = Some Fixture.flatBox
  /\ exists c, analyzeModel (Some (mkModel (Some Fixture.flatBox))) = Some c
       /\ ((1 # 2) <= normalizedScale c <= 20)%Q.
Proof.
  split; [reflexivity|].
  destruct (analyzeModel_scale_guarded (mkModel (Some Fixture.flatBox)) Fixture.flatBox eq_refl)
    as (c & Hc & Hrange & _).
  exists c. split; assumption.
Defined.

Example analyzeModel_height_three :
  match analyzeModel (Some (mkModel (Some (mkBox3 0 (-1) 0 1 2 1)))) with
  | Some c => (normalizedScale c == 1 # 2)%Q /\ (groundOffset c == 1 # 2)%Q
  | None => False
  end.
Proof. split; reflexivity. Qed.

(** ** C5, as amended *)

(** C5 (amended).  When the scene, or the model container in it, cannot be
    found, [applyCalibration] returns [false] without throwing and leaves the
    hook's state as it was: the calibration in memory is not replaced by
    the one that was being applied. *)
Theorem applyCalibration_without_container_changes_nothing newCalibration st :
  (scene st = None \/ exists sc, scene st = Some sc /\ importedModel sc = None) ->
  applyCalibration newCalibration st = (false, st)
  /\ calibration (snd (applyCalibration newCalibration st)) = calibration st.
Proof.
  intros [Hnone | (sc & Hsc & Hcontainer)]; unfold applyCalibration.
  - rewrite Hnone. split; reflexivity.
  - rewrite Hsc, Hcontainer. split; reflexivity.
Qed.

Lemma applyCalibration_without_container_changes_nothing_witness :
  (scene Fixture.sceneWithoutContainer = None
   \/ exists sc, scene Fixture.sceneWithoutContainer = Some sc /\ importedModel sc = None)
  /\ applyCalibration Fixture.someCalibration Fixture.sceneWithoutContainer
     = (false, Fixture.sceneWithoutContainer).
Proof.
  assert (scene Fixture.sceneWithoutContainer = None
          \/ exists sc, scene Fixture.sceneWithoutContainer = Some sc
                        /\ importedModel sc = None) as H.
  { right. exists (mkScene None). split; reflexivity. }
  split; [exact H|].
  exact (proj1 (applyCalibration_without_container_changes_nothing
                  Fixture.someCalibration Fixture.sceneWithoutContainer H)).
Defined.

(** C5 as stated fails: with no container in the scene the call returns
    [false] and the calibration in memory is still absent, not the one
    applied. *)
Lemma applyCalibration_state_not_updated_counterexample :
  importedModel (mkScene None) = None
  /\ fst (applyCalibration Fixture.someCalibration Fixture.sceneWithoutContainer) = false
  /\ calibration (snd (applyCalibration Fixture.someCalibration Fixture.sceneWithoutContainer))
     = None
  /\ calibration (snd (applyCalibration Fixture.someCalibration Fixture.sceneWithoutContainer))
     <> Some Fixture.someCalibration.
Proof. repeat split; try reflexivity. discriminate. Qed.

(** With the container in place the calibration is applied and stored. *)
Lemma applyCalibration_with_container newCalibration st sc container :
  scene st = Some sc -> importedModel sc = Some container ->
  fst (applyCalibration newCalibration st) = true
  /\ calibration (snd (applyCalibration newCalibration st)) = Some newCalibration.
Proof.
  intros Hsc Hcontainer. unfold applyCalibration. rewrite Hsc, Hcontainer.
  split; reflexivity.
Qed.

End CalibrationProperties.

(* ===================================================================== *)
(** * Properties of the animation frame mapper *)
(* ===================================================================== *)

Section AnimationProperties.
Import Animation.

Lemma previousFrame_wraps st :
  currentFrame st = 0%Z ->
  currentFrame (previousFrame st) = (totalFrames st - 1)%Z
  /\ totalFrames (previousFrame st) = totalFrames st.
Proof. intros H0. unfold previousFrame. rewrite H0. split; reflexivity. Qed.

(** ** C8, as amended *)

(** C8 (amended).  When the active animation is a clip of the model of
    duration [d] seconds, the effect that follows a change of animation
    sets [totalFrames] to the floor of the double product [d * 30], whenever
    that is a finite number, and [currentFrame] to 0; a duration of 2 gives
    60 frames.  In every state with [totalFrames > 0] and [currentFrame = 0],
    [previousFrame] moves to [totalFrames - 1], which is 59 after that
    change. *)
Theorem frame_mapper_counts_and_wraps model anims st current clip scrub :
  animations model = Some anims ->
  currentAnimation st = Some current -> current <> ""%string ->
  List.find (fun anim => String.eqb (clip_name anim) current) anims = Some clip ->
  (0 < totalFrames scrub)%Z -> currentFrame scrub = 0%Z ->
  (forall frames,
     JsNum.floor (JsNum.mul (duration clip) (JsNum.ofZ 30)) = JsNum.Int frames ->
     exists st', onAnimationChange (Some model) st = Some st'
       /\ totalFrames st' = frames /\ currentFrame st' = 0%Z
       /\ currentAnimation st' = currentAnimation st /\ isPlaying st' = isPlaying st)
  /\ (duration clip = JsNum.ofZ 2 ->
      exists st', onAnimationChange (Some model) st = Some st'
        /\ totalFrames st' = 60%Z /\ currentFrame (previousFrame st') = 59%Z)
  /\ currentFrame (previousFrame scrub) = (totalFrames scrub - 1)%Z.
Proof.
  intros Hanims Hcur Hne Hfind _ Hzero.
  assert (forall frames,
            JsNum.floor (JsNum.mul (duration clip) (JsNum.ofZ 30)) = JsNum.Int frames ->
            onAnimationChange (Some model) st = Some (setFrames frames 0 st)) as Hrun.
  { intros frames Hfloor. unfold onAnimationChange.
    cbn [mbind option_bind]. rewrite Hanims, Hcur.
    destruct current as [| ch rest]; [contradiction|]. cbn [JsNum.truthy].
    rewrite Hfind. cbn zeta. rewrite Hfloor. reflexivity. }
  split; [|split].
  - intros frames Hfloor. eexists. split; [exact (Hrun frames Hfloor)|].
    repeat split.
  - intros Hd. eexists. split; [apply (Hrun 60%Z); rewrite Hd; reflexivity|].
    split; reflexivity.
  - exact (proj1 (previousFrame_wraps scrub Hzero)).
Qed.

Lemma frame_mapper_counts_and_wraps_witness :
  (exists st', onAnimationChange (Some Fixture.walkModel) Fixture.walkSelected = Some st'
     /\ (0 < totalFrames st')%Z /\ currentFrame st' = 0%Z
     /\ totalFrames st' = 60%Z
     /\ currentFrame (previousFrame st') = 59%Z).
Proof.
  destruct (frame_mapper_counts_and_wraps Fixture.walkModel
              [mkClip "idle" (JsNum.ofZ 1); mkClip "walk" (JsNum.ofZ 2)]
              Fixture.walkSelected "walk" (mkClip "walk" (JsNum.ofZ 2))
              (setFrames 60 0 Fixture.walkSelected)
              eq_refl eq_refl ltac:(discriminate) eq_refl eq_refl eq_refl)
    as (Hcount & Hsixty & _).
  destruct (Hsixty eq_refl) as (st' & Hrun & H60 & H59).
  destruct (Hcount 60%Z eq_refl) as (st2 & Hrun2 & _ & Hzero & _).
  exists st'. split; [exact Hrun|]. split; [rewrite H60; reflexivity|].
  split; [congruence|]. split; assumption.
Defined.

(** C8 as stated fails where the product rounds: for a clip of the double
    0.7 seconds the effect sets [totalFrames] to 21, as [0.7 * 30] is the
    double 21, while the floor of the exact product of that duration by 30
    is 20. *)
Lemma frame_count_rounds_counterexample :
  let model := mkModel (Some [mkClip "blink" Fixture.sevenTenths]) in
  let st := mkState (Some "blink"%string) 0 0 false in
  (totalFrames <$> onAnimationChange (Some model) st) = Some 21%Z
  /\ (fun d => Qfloor (d * 30)) <$> JsNum.exact Fixture.sevenTenths = Some 20%Z
  /\ JsNum.exact Fixture.sevenTenths = Some (6305039478318694 # 9007199254740992)%Q.
Proof. cbn zeta. split; [reflexivity|]. split; reflexivity. Qed.

End AnimationProperties.

(* ===================================================================== *)
(** * Properties of the export orchestrator *)
(* ===================================================================== *)

Section SequenceProperties.
Import Eff Orchestrator.
Local Abbreviation Error := Capture.Error.

(** ** The single frame *)

(** X21.  With no canvas in the document, [exportFrame] rejects with the
    [TypeError] of line 416 and shows nothing.  With a canvas it never
    rejects, writes no file and calls no bridge; it shows exactly one toast
    and leaves the viewport as it was, the renderer, the background and the
    camera observed as before.  It hands a raster to the download link
    exactly when the toast is the success toast, and that raster has the
    export width and height; otherwise the toast is a destructive [Error]. *)
Theorem exportFrame_outcome host cfg s :
  let run := exportFrame host cfg s in
  (viewport s = NoCanvas -> run = (inl nullCanvas, s))
  /\ (viewport s <> NoCanvas ->
      exists result shown,
        fst run = inr result
        /\ trace (snd run) = trace s ++ [Notify shown]
        /\ files (snd run) = files s /\ calls (snd run) = calls s
        /\ sameViewport (viewport s) (viewport (snd run))
        /\ match result with
           | Some raster =>
               Capture.raster_width raster = width cfg
               /\ Capture.raster_height raster = height cfg
               /\ shown = mkToast "Success"
                            "Frame exported successfully with effects applied" false
           | None => title shown = "Error"%string /\ destructive shown = true
           end).
Proof.
  cbn zeta. remember (exportFrame host cfg s) as run eqn:Hrun.
  unfold exportFrame in Hrun.
  unfold mbind at 1 in Hrun. unfold M_bind at 1 in Hrun. unfold gets at 1 in Hrun.
  destruct (viewport s) as [| | w] eqn:Hv.
  - split; [intros _; exact Hrun | intros H; contradiction].
  - split; [discriminate | intros _]. subst run. eexists None, _.
    unfold toast, log, modify, ret. unfold mbind, M_bind, mret, M_ret.
    cbn [fst snd trace files calls viewport]. rewrite Hv. repeat split.
  - split; [discriminate | intros _].
    unfold try_catch, onWorld, world, toast, log, modify, ret in Hrun.
    unfold mbind, M_bind, mret, M_ret in Hrun. rewrite Hv in Hrun.
    pose proof (renderFrame_result (platform host) (width cfg) (height cfg) 0 w) as Hres.
    pose proof (renderFrame_final_store (platform host) (width cfg) (height cfg) 0 w)
      as Hfinal.
    destruct (Capture.renderFrame (platform host) (width cfg) (height cfg) 0 w)
      as [[e | raster] w'];
      cbn [fst snd] in *; subst w' run; cbn [fst snd trace files calls viewport].
    + eexists None, _.
      split; [reflexivity|]. split; [reflexivity|]. split; [reflexivity|].
      split; [reflexivity|].
      split; [cbn; apply restore_observe, prepare_sameCameraClass|].
      split; reflexivity.
    + eexists (Some raster), _.
      split; [reflexivity|]. split; [reflexivity|]. split; [reflexivity|].
      split; [reflexivity|].
      split; [cbn; apply restore_observe, prepare_sameCameraClass|].
      destruct (Capture.renderThrows (platform host) 0); [discriminate|].
      destruct (Capture.context2d (platform host)); [|discriminate].
      injection Hres as Hr. rewrite Hr. repeat split.
Qed.

(** ** Every step of an export only adds *)

Lemma sameViewport_refl v : sameViewport v v.
Proof. destruct v; cbn; auto. Qed.

Lemma sameViewport_trans v1 v2 v3 :
  sameViewport v1 v2 -> sameViewport v2 v3 -> sameViewport v1 v3.
Proof. destruct v1, v2, v3; cbn; try tauto. congruence. Qed.

Lemma grows_refl s : grows s s.
Proof.
  split; [apply sameViewport_refl|].
  repeat split; try reflexivity; try tauto. exists []. symmetry. apply app_nil_r.
Qed.

Lemma grows_trans s1 s2 s3 : grows s1 s2 -> grows s2 s3 -> grows s1 s3.
Proof.
  intros (Hw & Hf & [evs He] & Hc & Hi & Hp & Ha) (Hw' & Hf' & [evs' He'] & Hc' & Hi' & Hp' & Ha').
  split; [exact (sameViewport_trans _ _ _ Hw Hw')|].
  repeat split; try congruence; try lia.
  - intros path H. apply Hf', Hf, H.
  - exists (evs ++ evs'). rewrite He', He, app_assoc. reflexivity.
Qed.

Lemma steady_ret {A} (a : A) : steady (ret a : M Store Error A).
Proof. intros s. apply grows_refl. Qed.

Lemma steady_throw {A} e : steady (throw e : M Store Error A).
Proof. intros s. apply grows_refl. Qed.

Lemma steady_gets {A} (f : Store -> A) : steady (gets f).
Proof. intros s. apply grows_refl. Qed.

Lemma steady_bind {A B} (c : M Store Error A) (f : A -> M Store Error B) :
  steady c -> (forall a, steady (f a)) -> steady (c ≫= f).
Proof.
  intros Hc Hf s. unfold mbind, M_bind. specialize (Hc s).
  destruct (c s) as [[e | a] s1]; cbn [snd] in *; [exact Hc|].
  eapply grows_trans; [exact Hc | apply Hf].
Qed.

Lemma steady_try_catch {A} (c : M Store Error A) (h : Error -> M Store Error A) :
  steady c -> (forall e, steady (h e)) -> steady (try_catch c h).
Proof.
  intros Hc Hh s. unfold try_catch. specialize (Hc s).
  destruct (c s) as [[e | a] s1]; cbn [snd] in *; [|exact Hc].
  eapply grows_trans; [exact Hc | apply Hh].
Qed.

Lemma steady_log e : steady (log e).
Proof.
  intros s. split; [apply sameViewport_refl|].
  repeat split; cbn; try reflexivity; try tauto; try lia. eexists. reflexivity.
Qed.

Lemma steady_toast t d b : steady (toast t d b).
Proof. apply steady_log. Qed.

Lemma steady_renderFrame pf width height frameIndex :
  steady (onWorld (Capture.renderFrame pf width height frameIndex)).
Proof.
  intros s. unfold onWorld, world.
  destruct (viewport s) as [| | w] eqn:Hv; try apply grows_refl.
  pose proof (renderFrame_final_store pf width height frameIndex w) as Hfinal.
  destruct (Capture.renderFrame pf width height frameIndex w) as [r w'].
  cbn [snd] in *. subst w'.
  split; [rewrite Hv; cbn; apply restore_observe, prepare_sameCameraClass|].
  repeat split; cbn [files trace calls isExporting exportProgress currentAngle];
    try reflexivity; try tauto; try lia.
  exists []. symmetry. apply app_nil_r.
Qed.

Lemma steady_bridgeCall answer path written event :
  steady (bridgeCall answer path written event).
Proof.
  intros s. split; [apply sameViewport_refl|].
  repeat split; cbn; try reflexivity; try lia.
  - intros p Hp. destruct written as [a |]; [|exact Hp].
    destruct (answer (calls s) path); [|exact Hp].
    apply lookup_insert_is_Some'. right. exact Hp.
  - eexists. reflexivity.
Qed.

Lemma steady_for_each {A} (body : nat -> A -> M Store Error unit) :
  (forall i x, steady (body i x)) -> forall l i, steady (for_each body i l).
Proof.
  intros Hbody l. induction l as [| x rest IH]; intros i; cbn [for_each].
  - apply steady_ret.
  - apply steady_bind; [apply Hbody | intros _; apply IH].
Qed.

Lemma steady_collect {A B} (body : nat -> A -> M Store Error B) :
  (forall i x, steady (body i x)) -> forall l i, steady (collect body i l).
Proof.
  intros Hbody l. induction l as [| x rest IH]; intros i; cbn [collect].
  - apply steady_ret.
  - apply steady_bind; [apply Hbody | intros b].
    apply steady_bind; [apply IH | intros bs; apply steady_ret].
Qed.

Ltac steady_steps :=
  repeat first
    [ apply steady_ret | apply steady_throw | apply steady_gets | apply steady_toast
    | apply steady_renderFrame | apply steady_log | apply steady_bridgeCall
    | apply steady_bind; [| intros ?]
    | apply steady_try_catch; [| intros ?]
    | apply steady_for_each; intros ? ?
    | apply steady_collect; intros ? ?
    | match goal with
      | |- steady (if ?b then _ else _) => destruct b
      | |- steady (match ?x with _ => _ end) => destruct x
      | |- steady (let _ := _ in _) => cbn zeta
      end ].

Lemma steady_saveFileVia host path a : steady (saveFileVia host path a).
Proof. unfold saveFileVia. steady_steps. Qed.

Lemma steady_createDirectoryVia host path : steady (createDirectoryVia host path).
Proof. unfold createDirectoryVia. steady_steps. Qed.

Lemma steady_exportSpriteSheet host cfg animation totalFrames framesToRender :
  steady (exportSpriteSheet host cfg animation totalFrames framesToRender).
Proof.
  unfold exportSpriteSheet. cbn zeta.
  steady_steps; try apply steady_saveFileVia.
Qed.

Lemma steady_exportSequence host cfg animation totalFrames :
  steady (exportSequence host cfg animation totalFrames).
Proof.
  unfold exportSequence.
  steady_steps; try apply steady_saveFileVia; try apply steady_createDirectoryVia;
    try apply steady_exportSpriteSheet.
Qed.

(** With a canvas in the document [exportSequence] reports its failures
    by a toast and resolves: its promise does not reject. *)
Lemma exportSequence_never_throws host cfg animation totalFrames s :
  viewport s <> NoCanvas ->
  fst (exportSequence host cfg animation totalFrames s) = inr tt.
Proof.
  intros Hcanvas. unfold exportSequence, toast, log, modify.
  destruct (JsNum.truthy (Orchestrator.outputFolder cfg)); [|reflexivity].
  destruct (JsNum.truthy animation); [|reflexivity].
  destruct (negb _ && negb _); [reflexivity|].
  unfold mbind at 1. unfold M_bind at 1. unfold gets at 1.
  destruct (viewport s) as [| | w]; [congruence | reflexivity |].
  unfold try_catch.
  match goal with
  | |- context [match ?c s with _ => _ end] => destruct (c s) as [[e | []] after]
  end; reflexivity.
Qed.

(** The one rejection of [exportSequence]: the read of [canvas.__r3f] on a
    document without a canvas, before the [try]; nothing has been done
    then. *)
Lemma exportSequence_rejection host cfg animation totalFrames s e :
  fst (exportSequence host cfg animation totalFrames s) = inl e ->
  viewport s = NoCanvas
  /\ exportSequence host cfg animation totalFrames s = (inl nullCanvas, s).
Proof.
  destruct (viewport s) as [| | w] eqn:Hv.
  - intros Hrun. split; [reflexivity|]. revert Hrun.
    unfold exportSequence, toast, log, modify.
    destruct (JsNum.truthy (Orchestrator.outputFolder cfg)); [|discriminate].
    destruct (JsNum.truthy animation); [|discriminate].
    destruct (negb _ && negb _); [discriminate|].
    unfold mbind, M_bind, gets. rewrite Hv. reflexivity.
  - rewrite exportSequence_never_throws by congruence. discriminate.
  - rewrite exportSequence_never_throws by congruence. discriminate.
Qed.

Lemma exportSequence_without_canvas host cfg animation totalFrames s :
  viewport s = NoCanvas ->
  is_Some (JsNum.truthy (outputFolder cfg)) -> is_Some (JsNum.truthy animation) ->
  is_Some (electron host) \/ is_Some (electronAPI host) ->
  exportSequence host cfg animation totalFrames s = (inl nullCanvas, s).
Proof.
  intros Hv [folder Hfolder] [name Hname] Hbridge. unfold exportSequence.
  rewrite Hfolder, Hname. cbn zeta.
  replace (negb (bool_decide (is_Some (electron host)))
           && negb (bool_decide (is_Some (electronAPI host)))) with false.
  - unfold mbind, M_bind, gets. rewrite Hv. reflexivity.
  - symmetry. apply andb_false_iff.
    destruct Hbridge as [H | H]; [left | right];
      rewrite (bool_decide_eq_true_2 _ H); reflexivity.
Qed.

(** X22.  Whatever the bridges, the platform and the scene do, what
    [exportSequence] leaves behind only adds to what it found: the viewport
    is of the same kind and a live renderer, scene background and camera
    are observed as before, no file is removed, the trace is extended, and
    the state of the multi-angle controller is untouched.  With a canvas in
    the document the call resolves.  It rejects in one case only: the
    folder, the animation and a bridge are there and the document has no
    canvas; line 638 then reads a property of [null], outside the [try], and
    nothing has been done or shown. *)
Theorem exportSequence_only_adds host cfg animation totalFrames s :
  let run := exportSequence host cfg animation totalFrames s in
  grows s (snd run)
  /\ (viewport s <> NoCanvas -> fst run = inr tt)
  /\ (forall e, fst run = inl e -> viewport s = NoCanvas /\ run = (inl nullCanvas, s))
  /\ (viewport s = NoCanvas ->
      is_Some (JsNum.truthy (outputFolder cfg)) -> is_Some (JsNum.truthy animation) ->
      is_Some (electron host) \/ is_Some (electronAPI host) ->
      run = (inl nullCanvas, s)).
Proof.
  cbn zeta. split; [apply steady_exportSequence|].
  split; [apply exportSequence_never_throws|].
  split; [apply exportSequence_rejection | apply exportSequence_without_canvas].
Qed.

(** ** What a successful run has done *)

Lemma bind_inr {A B} (c : M Store Error A) (f : A -> M Store Error B) s b s' :
  (c ≫= f) s = (inr b, s') ->
  exists a s1, c s = (inr a, s1) /\ f a s1 = (inr b, s').
Proof.
  unfold mbind, M_bind. destruct (c s) as [[e | a] s1]; [discriminate|].
  intros H. exists a, s1. split; [reflexivity | exact H].
Qed.

Lemma written_grows path s s' : written path s -> grows s s' -> written path s'.
Proof.
  intros [Hfile [api Hev]] (_ & Hf & [evs He] & _). split; [apply Hf, Hfile|].
  exists api. rewrite He. apply in_or_app. left. exact Hev.
Qed.

Lemma bridgeCall_saved answer path a event s s' :
  bridgeCall answer path (Some a) event s = (inr true, s') ->
  is_Some (files s' !! path) /\ In (event true) (trace s').
Proof.
  unfold bridgeCall. intros H. injection H as Hok <-. cbn [files trace]. rewrite Hok.
  split; [rewrite lookup_insert_eq; eauto | apply in_or_app; right; left; reflexivity].
Qed.

Lemma saveFileVia_true host path a s s' :
  saveFileVia host path a s = (inr true, s') -> written path s'.
Proof.
  unfold saveFileVia. intros H. apply bind_inr in H as (saved & s1 & Hfirst & Hsecond).
  destruct saved.
  - injection Hsecond as <-. destruct (electron host) as [b |]; [|discriminate].
    apply bridgeCall_saved in Hfirst as [Hfile Hev]. split; eauto.
  - destruct (electronAPI host) as [b |]; [|discriminate].
    apply bridgeCall_saved in Hsecond as [Hfile Hev]. split; eauto.
Qed.

Lemma for_each_success_all {A} (body : nat -> A -> M Store Error unit)
    (P : A -> Store -> Prop) :
  (forall i x s s', body i x s = (inr tt, s') -> P x s') ->
  (forall x s s', P x s -> grows s s' -> P x s') ->
  (forall i x, steady (body i x)) ->
  forall l i s s', for_each body i l s = (inr tt, s') -> forall x, In x l -> P x s'.
Proof.
  intros Hbody Hkeep Hsteady l. induction l as [| y rest IH]; intros i s s' Hrun x Hin;
    [destruct Hin|].
  cbn [for_each] in Hrun. apply bind_inr in Hrun as ([] & s1 & Hfirst & Hrest).
  destruct Hin as [-> | Hin]; [|eapply IH; eassumption].
  apply (Hkeep x s1); [eapply Hbody; exact Hfirst|].
  pose proof (steady_for_each body Hsteady rest (S i) s1) as Hg.
  rewrite Hrest in Hg. exact Hg.
Qed.

Lemma truthy_Some o x : JsNum.truthy o = Some x -> o = Some x.
Proof. destruct o as [[| c r] |]; cbn; congruence. Qed.

Lemma exportSpriteSheet_success host cfg folder animation totalFrames framesToRender
    s filename s' :
  outputFolder cfg = Some folder ->
  exportSpriteSheet host cfg animation totalFrames framesToRender s = (inr filename, s') ->
  filename = sheetPath folder animation
               (Sequencer.spriteSheetLayout (width cfg) (height cfg)
                  (Z.of_nat (length framesToRender)))
  /\ written filename s'.
Proof.
  intros Hfolder. unfold exportSpriteSheet. cbn zeta. rewrite Hfolder. cbn [default].
  destruct (negb (Capture.context2d (platform host))); [discriminate|].
  intros H. apply bind_inr in H as ([] & s1 & _ & H).
  apply bind_inr in H as (cells & s2 & _ & H).
  apply bind_inr in H as (fileSaved & s3 & Hsave & H).
  destruct fileSaved; cbn [negb] in H; [|discriminate].
  apply bind_inr in H as ([] & s4 & Htoast & H). injection H as <- <-.
  split; [reflexivity|].
  apply saveFileVia_true in Hsave. apply (written_grows _ s3); [exact Hsave|].
  pose proof (steady_toast "Sprite Sheet Exported"
    ("Saved as " +:+ pretty (Sequencer.columns (Sequencer.spriteSheetLayout (width cfg)
        (height cfg) (Z.of_nat (length framesToRender)))) +:+ "x"
     +:+ pretty (Sequencer.rows (Sequencer.spriteSheetLayout (width cfg)
        (height cfg) (Z.of_nat (length framesToRender)))) +:+ " grid with "
     +:+ pretty (Z.of_nat (length framesToRender)) +:+ " frames") false s3) as Hg.
  rewrite Htoast in Hg. exact Hg.
Qed.

Lemma last_toast_title l t d b dflt shown :
  List.last (l ++ [Notify (mkToast t d b)]) dflt = Notify shown ->
  shown = mkToast t d b.
Proof. rewrite last_last. congruence. Qed.

Lemma toast_run t d b s :
  toast t d b s
  = (inr tt, mkStore (viewport s) (files s) (calls s)
               (trace s ++ [Notify (mkToast t d b)])
               (isExporting s) (exportProgress s) (currentAngle s)).
Proof. reflexivity. Qed.

(** What a run that reaches the end of the [try] block has done. *)
Lemma sequence_body_success host cfg folder name totalFrames s s' :
  outputFolder cfg = Some folder ->
  (let sanitizedAnimationName := sanitize name in
   let animationFolder := (folder +:+ "/" +:+ sanitizedAnimationName)%string in
   directoryCreated ← createDirectoryVia host animationFolder;
   if negb directoryCreated
   then throw (Capture.Err ("Failed to create directory: " +:+ animationFolder))
   else
     let framesToRender := Sequencer.planFrames totalFrames (renderSteps cfg) in
     let count := pretty (length framesToRender) in
     toast "Export Started"
       ("Exporting " +:+ count +:+ " frames with effects applied...") false;;
     for_each (fun i frameIndex =>
         log (FrameChange frameIndex totalFrames);;
         frame ← onWorld (Capture.renderFrame (platform host)
                            (width cfg) (height cfg) frameIndex);
         let paddedIndex := padStart 4 (pretty frameIndex) in
         let filename :=
           (animationFolder +:+ "/frame_" +:+ paddedIndex +:+ ".png")%string in
         fileSaved ← saveFileVia host filename (FramePng frame);
         if negb fileSaved
         then throw (Capture.Err ("Failed to save file: " +:+ filename))
         else
           toast "Export Progress"
             ("Frame " +:+ pretty (Datatypes.S i) +:+ "/" +:+ count
              +:+ " exported with effects") false)
       0%nat framesToRender;;
     toast "Creating Sprite Sheet"
       "Combining frames into a single image..." false;;
     exportSpriteSheet host cfg name totalFrames framesToRender;;
     toast "Export Complete"
       (count +:+ " frames + sprite sheet exported to " +:+ animationFolder)
       false) s = (inr tt, s') ->
  let plan := Sequencer.planFrames totalFrames (renderSteps cfg) in
  (forall frameIndex, In frameIndex plan -> written (framePath folder name frameIndex) s')
  /\ written (sheetPath folder name
                (Sequencer.spriteSheetLayout (width cfg) (height cfg)
                   (Z.of_nat (length plan)))) s'
  /\ List.last (trace s') (RotateToAngle "")
     = Notify (mkToast "Export Complete"
         (pretty (length plan) +:+ " frames + sprite sheet exported to "
          +:+ folder +:+ "/" +:+ sanitize name) false).
Proof.
  intros Hfolder. cbn zeta. intros H.
  apply bind_inr in H as (created & s1 & _ & H).
  destruct created; cbn [negb] in H; [|discriminate].
  apply bind_inr in H as ([] & s2 & _ & H).
  apply bind_inr in H as ([] & s3 & Hloop & H).
  apply bind_inr in H as ([] & s4 & Ht4 & H).
  apply bind_inr in H as (filename & s5 & Hsheet & H).
  rewrite toast_run in H. injection H as <-. rewrite toast_run in Ht4.
  injection Ht4 as <-.
  assert (grows s3 (mkStore (viewport s5) (files s5) (calls s5)
            (trace s5 ++ [Notify (mkToast "Export Complete"
               (pretty (length (Sequencer.planFrames totalFrames (renderSteps cfg)))
                +:+ " frames + sprite sheet exported to " +:+ folder +:+ "/"
                +:+ sanitize name) false)])
            (isExporting s5) (exportProgress s5) (currentAngle s5))) as Hg.
  { eapply grows_trans; [apply (steady_toast "Creating Sprite Sheet"
                                 "Combining frames into a single image..." false s3)|].
    rewrite toast_run. cbn [snd].
    eapply grows_trans.
    - match type of Hsheet with
      | ?c ?st = _ =>
          pose proof (steady_exportSpriteSheet host cfg name totalFrames
                        (Sequencer.planFrames totalFrames (renderSteps cfg)) st) as Hs;
          rewrite Hsheet in Hs; exact Hs
      end.
    - apply (steady_toast _ _ _ s5). }
  split; [|split].
  - intros frameIndex Hin. apply (written_grows _ s3); [|exact Hg].
    revert frameIndex Hin.
    eapply (for_each_success_all _ (fun x st => written (framePath folder name x) st));
      [| | | exact Hloop].
    + clear. intros i x st st' Hbody.
      apply bind_inr in Hbody as ([] & t1 & _ & Hbody).
      apply bind_inr in Hbody as (frame & t2 & _ & Hbody). cbn zeta in Hbody.
      apply bind_inr in Hbody as (fileSaved & t3 & Hsave & Hbody).
      destruct fileSaved; cbn [negb] in Hbody; [|discriminate].
      apply saveFileVia_true in Hsave. apply (written_grows _ t3); [exact Hsave|].
      match type of Hbody with
      | toast ?t ?d ?b _ = _ => pose proof (steady_toast t d b t3) as Hg
      end.
      rewrite Hbody in Hg. exact Hg.
    + intros x st st'. apply written_grows.
    + intros i x. steady_steps; try apply steady_saveFileVia.
  - apply exportSpriteSheet_success with (folder := folder) in Hsheet as [-> Hw];
      [|exact Hfolder].
    apply (written_grows _ s5); [exact Hw|]. apply (steady_toast _ _ _ s5).
  - cbn [trace]. apply last_last.
Qed.

(** X23.  A run of [exportSequence] ends in one of three ways.  It
    rejects with the [TypeError] of line 638, having shown and written
    nothing: the document has no canvas, and the folder, the animation and
    a bridge are there.  Or it resolves on a toast: the destructive [Error]
    toast, or [Export Complete].  [Export Complete] is shown only when the
    output folder and the animation name are set and not empty, and then
    every frame of the plan has been written under its padded name in the
    animation folder, and the sprite sheet beside that folder, each by a
    bridge call that answered [true]. *)
Theorem exportSequence_complete_means_saved host cfg animation totalFrames s :
  let run := exportSequence host cfg animation totalFrames s in
  let final := snd run in
  let plan := Sequencer.planFrames totalFrames (renderSteps cfg) in
  (viewport s = NoCanvas /\ run = (inl nullCanvas, s)
   /\ is_Some (JsNum.truthy (outputFolder cfg)) /\ is_Some (JsNum.truthy animation)
   /\ (is_Some (electron host) \/ is_Some (electronAPI host)))
  \/ (fst run = inr tt /\ exists reason,
     List.last (trace final) (RotateToAngle "") = Notify (mkToast "Error" reason true))
  \/ (fst run = inr tt /\ exists folder name,
        outputFolder cfg = Some folder /\ folder <> ""%string
        /\ animation = Some name /\ name <> ""%string
        /\ List.last (trace final) (RotateToAngle "")
           = Notify (mkToast "Export Complete"
               (pretty (length plan) +:+ " frames + sprite sheet exported to "
                +:+ folder +:+ "/" +:+ sanitize name) false)
        /\ (forall frameIndex, In frameIndex plan ->
            written (framePath folder name frameIndex) final)
        /\ written (sheetPath folder name
                      (Sequencer.spriteSheetLayout (width cfg) (height cfg)
                         (Z.of_nat (length plan)))) final).
Proof.
  cbn zeta. remember (exportSequence host cfg animation totalFrames s) as run eqn:Hrun.
  unfold exportSequence in Hrun.
  destruct (JsNum.truthy (outputFolder cfg)) as [folder |] eqn:Hfolder;
    [| right; left; subst run; split; [reflexivity | eexists; apply last_last]].
  destruct (JsNum.truthy animation) as [name |] eqn:Hname;
    [| right; left; subst run; split; [reflexivity | eexists; apply last_last]].
  destruct (negb _ && negb _) eqn:Hbridge;
    [right; left; subst run; split; [reflexivity | eexists; apply last_last]|].
  unfold mbind at 1 in Hrun. unfold M_bind at 1 in Hrun. unfold gets at 1 in Hrun.
  destruct (viewport s) as [| | w] eqn:Hv.
  - left. split; [reflexivity|]. split; [exact Hrun|].
    split; [eauto|]. split; [eauto|].
    apply andb_false_iff in Hbridge as [H | H]; [left | right];
      apply negb_false_iff, bool_decide_eq_true_1 in H; exact H.
  - right. left. subst run. split; [reflexivity | eexists; apply last_last].
  - unfold try_catch in Hrun.
    match type of Hrun with
    | context [match ?c s with _ => _ end] => destruct (c s) as [[e | []] s1] eqn:Hbody
    end.
    + right. left. subst run. split; [reflexivity | eexists; apply last_last].
    + right. right. split; [subst run; reflexivity|]. exists folder, name.
      assert (folder <> ""%string)
        by (destruct (outputFolder cfg) as [[|] |]; cbn in Hfolder; congruence).
      assert (name <> ""%string)
        by (destruct animation as [[|] |]; cbn in Hname; congruence).
      apply truthy_Some in Hfolder, Hname.
      apply (sequence_body_success host cfg folder name totalFrames s s1 Hfolder) in Hbody
        as (Hframes & Hsheet & Hlast).
      subst run. cbn [snd].
      split; [exact Hfolder|]. split; [assumption|].
      split; [exact Hname|]. split; [assumption|]. split; [exact Hlast|].
      split; [exact Hframes | exact Hsheet].
Qed.

(** ** A host on which nothing fails *)

Lemma bind_run {A B} (c : M Store Error A) (f : A -> M Store Error B) s a s1 :
  c s = (inr a, s1) -> (c ≫= f) s = f a s1.
Proof. intros H. unfold mbind, M_bind. rewrite H. reflexivity. Qed.

Lemma log_run e s :
  log e s
  = (inr tt, mkStore (viewport s) (files s) (calls s) (trace s ++ [e])
               (isExporting s) (exportProgress s) (currentAngle s)).
Proof. reflexivity. Qed.


Lemma saveFileVia_sound host b path a s :
  electron host = Some b -> (forall n p, saveFile b n p = true) ->
  exists s', saveFileVia host path a s = (inr true, s')
             /\ world s' = world s /\ calls s' = S (calls s).
Proof.
  intros He Hok. unfold saveFileVia. rewrite He.
  unfold mbind, M_bind, bridgeCall. rewrite Hok. eexists. split; [reflexivity|].
  split; reflexivity.
Qed.

Lemma renderFrame_sound pf width height frameIndex s :
  is_Some (world s) -> Capture.renderThrows pf frameIndex = false ->
  Capture.context2d pf = true ->
  exists raster s',
    onWorld (Capture.renderFrame pf width height frameIndex) s = (inr raster, s')
    /\ is_Some (world s') /\ calls s' = calls s.
Proof.
  intros [w Hw] Hrender Hctx. unfold onWorld. rewrite Hw.
  pose proof (renderFrame_result pf width height frameIndex w) as Hres.
  rewrite Hrender, Hctx in Hres.
  destruct (Capture.renderFrame pf width height frameIndex w) as [r w'].
  cbn [fst] in Hres. subst r. eexists _, _. split; [reflexivity|].
  split; [eexists; reflexivity | reflexivity].
Qed.


Lemma collect_succeeds {A B} (body : nat -> A -> M Store Error B) :
  (forall i x s, is_Some (world s) ->
     exists b s', body i x s = (inr b, s') /\ is_Some (world s')
                  /\ calls s' = calls s) ->
  forall l i s, is_Some (world s) ->
    exists bs s', collect body i l s = (inr bs, s') /\ is_Some (world s')
                  /\ calls s' = calls s.
Proof.
  intros Hbody l. induction l as [| x rest IH]; intros i s Hw; cbn [collect].
  - exists [], s. split; [reflexivity|]. split; [exact Hw | reflexivity].
  - destruct (Hbody i x s Hw) as (b & s1 & Hrun & Hw1 & Hc1).
    destruct (IH (S i) s1 Hw1) as (bs & s2 & Hrest & Hw2 & Hc2).
    exists (b :: bs), s2. rewrite (bind_run _ _ _ _ _ Hrun), (bind_run _ _ _ _ _ Hrest).
    split; [reflexivity|]. split; [exact Hw2 | lia].
Qed.

Lemma exportSpriteSheet_sound host cfg b animation totalFrames framesToRender s :
  electron host = Some b -> (forall n p, saveFile b n p = true) ->
  (forall i, Capture.renderThrows (platform host) i = false) ->
  Capture.context2d (platform host) = true ->
  is_Some (world s) ->
  exists filename s',
    exportSpriteSheet host cfg animation totalFrames framesToRender s = (inr filename, s')
    /\ calls s' = S (calls s).
Proof.
  intros He Hsave Hrender Hctx Hw. unfold exportSpriteSheet. cbn zeta.
  rewrite Hctx. cbn [negb]. rewrite (bind_run _ _ _ _ _ (toast_run _ _ _ s)).
  match goal with
  | |- context [collect ?body 0%nat framesToRender] =>
      destruct (collect_succeeds body) with (l := framesToRender) (i := 0%nat)
        (s := mkStore (viewport s) (files s) (calls s)
                (trace s ++ [Notify (mkToast "Creating Sprite Sheet"
                   ("Rendering " +:+ pretty (Z.of_nat (length framesToRender))
                    +:+ " frames in a "
                    +:+ pretty (Sequencer.columns (Sequencer.spriteSheetLayout (width cfg)
                          (height cfg) (Z.of_nat (length framesToRender))))
                    +:+ "x"
                    +:+ pretty (Sequencer.rows (Sequencer.spriteSheetLayout (width cfg)
                          (height cfg) (Z.of_nat (length framesToRender))))
                    +:+ " grid...") false)])
                (isExporting s) (exportProgress s) (currentAngle s))
        as (cells & s1 & Hcells & Hw1 & Hc1)
  end.
  - intros i x st Hst.
    rewrite (bind_run _ _ _ _ _ (log_run _ st)).
    destruct (renderFrame_sound (platform host) (width cfg) (height cfg) x
                (mkStore (viewport st) (files st) (calls st)
                   (trace st ++ [FrameChange x totalFrames])
                   (isExporting st) (exportProgress st) (currentAngle st)))
      as (raster & st' & Hrun & Hw' & Hc'); [exact Hst | apply Hrender | exact Hctx |].
    rewrite (bind_run _ _ _ _ _ Hrun).
    destruct (Sequencer.drawPosition _ _ _ _) as [x0 y0].
    eexists _, st'. split; [reflexivity|]. split; [exact Hw' | exact Hc'].
  - exact Hw.
  - rewrite (bind_run _ _ _ _ _ Hcells).
    match goal with
    | |- context [saveFileVia host ?path ?a] =>
        destruct (saveFileVia_sound host b path a s1 He Hsave) as (s2 & Hrun & Hw2 & Hc2)
    end.
    rewrite (bind_run _ _ _ _ _ Hrun). cbn [negb].
    rewrite (bind_run _ _ _ _ _ (toast_run _ _ _ s2)).
    eexists _, _. split; [reflexivity|]. cbn [calls]. cbn [calls] in Hc1. lia.
Qed.

(** ** What a sheet that has been saved holds *)

Lemma bridgeCall_stored answer path a event s s' :
  bridgeCall answer path (Some a) event s = (inr true, s') ->
  files s' !! path = Some a.
Proof.
  unfold bridgeCall. intros H. injection H as Hok <-. cbn [files]. rewrite Hok.
  apply lookup_insert_eq.
Qed.

Lemma saveFileVia_stores host path a s s' :
  saveFileVia host path a s = (inr true, s') -> files s' !! path = Some a.
Proof.
  unfold saveFileVia. intros H. apply bind_inr in H as (saved & s1 & Hfirst & Hsecond).
  destruct saved.
  - injection Hsecond as <-. destruct (electron host) as [b |]; [|discriminate].
    apply bridgeCall_stored in Hfirst. exact Hfirst.
  - destruct (electronAPI host) as [b |]; [|discriminate].
    apply bridgeCall_stored in Hsecond. exact Hsecond.
Qed.

Lemma onWorld_renderFrame_size pf w h frameIndex s raster s' :
  onWorld (Capture.renderFrame pf w h frameIndex) s = (inr raster, s') ->
  Capture.raster_width raster = w /\ Capture.raster_height raster = h.
Proof.
  unfold onWorld. destruct (world s) as [wd |]; [|discriminate].
  pose proof (renderFrame_result pf w h frameIndex wd) as Hres.
  destruct (Capture.renderFrame pf w h frameIndex wd) as [r wd']. cbn [fst] in Hres.
  intros H. injection H as Hr _. subst r.
  destruct (Capture.renderThrows pf frameIndex); [discriminate|].
  destruct (Capture.context2d pf); [|discriminate].
  injection Hr as <-. split; reflexivity.
Qed.

(** A [collect] that succeeds has one result per element, each the result
    of a successful turn of the body at that index. *)
Lemma collect_inr {A B} (body : nat -> A -> M Store Error B)
    (P : nat -> A -> B -> Prop) :
  (forall i x s b s', body i x s = (inr b, s') -> P i x b) ->
  forall l i s bs s', collect body i l s = (inr bs, s') ->
    length bs = length l
    /\ forall k x, l !! k = Some x -> exists b, bs !! k = Some b /\ P (i + k)%nat x b.
Proof.
  intros Hbody l. induction l as [| y rest IH]; intros i s bs s' Hrun; cbn [collect] in Hrun.
  - injection Hrun as <- _. split; [reflexivity|]. intros k x Hk. discriminate.
  - apply bind_inr in Hrun as (b & s1 & Hfirst & Hrun).
    apply bind_inr in Hrun as (bs' & s2 & Hrest & Hrun).
    injection Hrun as <- _.
    destruct (IH (S i) s1 bs' s2 Hrest) as (Hlen & Hcells).
    split; [cbn [length]; congruence|].
    intros [| k] x Hk; cbn in Hk.
    + injection Hk as <-. exists b. split; [reflexivity|].
      rewrite Nat.add_0_r. eapply Hbody, Hfirst.
    + destruct (Hcells k x Hk) as (b' & Hb' & HP). exists b'. split; [exact Hb'|].
      replace (i + S k)%nat with (S i + k)%nat by lia. exact HP.
Qed.

(** The sheet that a successful [exportSpriteSheet] has saved: the layout
    of the frame count, and one cell per planned frame, at its place in
    the grid and of the size of a frame. *)
Lemma exportSpriteSheet_contents host cfg animation totalFrames framesToRender
    s filename s' :
  exportSpriteSheet host cfg animation totalFrames framesToRender s = (inr filename, s') ->
  let layout := Sequencer.spriteSheetLayout (width cfg) (height cfg)
                  (Z.of_nat (length framesToRender)) in
  exists cells,
    files s' !! filename = Some (SheetPng layout cells)
    /\ length cells = length framesToRender
    /\ forall i, (i < length framesToRender)%nat ->
         exists raster,
           cells !! i
           = Some (Sequencer.drawPosition (width cfg) (height cfg)
                     (Sequencer.columns layout) (Z.of_nat i), raster)
           /\ Capture.raster_width raster = width cfg
           /\ Capture.raster_height raster = height cfg.
Proof.
  unfold exportSpriteSheet. cbn zeta.
  destruct (negb (Capture.context2d (platform host))); [discriminate|].
  intros H. apply bind_inr in H as ([] & s1 & _ & H).
  apply bind_inr in H as (cells & s2 & Hcells & H).
  apply bind_inr in H as (fileSaved & s3 & Hsave & H).
  destruct fileSaved; cbn [negb] in H; [|discriminate].
  apply bind_inr in H as ([] & s4 & Htoast & H). injection H as <- <-.
  rewrite toast_run in Htoast. injection Htoast as <-. cbn [files].
  apply saveFileVia_stores in Hsave. exists cells. split; [exact Hsave|].
  eapply (collect_inr _ (fun i (_ : Z) cell =>
            exists raster,
              cell = (Sequencer.drawPosition (width cfg) (height cfg)
                        (Sequencer.columns (Sequencer.spriteSheetLayout (width cfg)
                           (height cfg) (Z.of_nat (length framesToRender))))
                        (Z.of_nat i), raster)
              /\ Capture.raster_width raster = width cfg
              /\ Capture.raster_height raster = height cfg)) in Hcells
    as (Hlen & Hall).
  - split; [exact Hlen|]. intros i Hi.
    destruct (lookup_lt_is_Some_2 framesToRender i Hi) as [x Hx].
    destruct (Hall i x Hx) as (cell & Hcell & raster & -> & Hsize).
    exists raster. split; [exact Hcell | exact Hsize].
  - clear. intros i x st cell st' Hbody.
    apply bind_inr in Hbody as ([] & t1 & _ & Hbody).
    apply bind_inr in Hbody as (img & t2 & Hrender & Hbody).
    apply onWorld_renderFrame_size in Hrender.
    destruct (Sequencer.drawPosition _ _ _ _) as [x0 y0] eqn:Hpos.
    injection Hbody as <- _. exists img. split; [reflexivity | exact Hrender].
Qed.



(** X25.  Without an output folder, without an animation, without a file
    system API, or on a canvas without its renderer, scene or camera,
    [exportSequence] does one thing: it shows a destructive toast that
    names the first of these that is missing, in this order.  No directory
    is created, no frame is rendered and no bridge is called.  (A document
    without a canvas is another case: when the first three are there, the
    call rejects at line 638 and shows nothing.) *)
Theorem exportSequence_stops_before_any_work host cfg animation totalFrames s :
  JsNum.truthy (outputFolder cfg) = None \/ JsNum.truthy animation = None
  \/ (electron host = None /\ electronAPI host = None) \/ viewport s = NoScene ->
  let reason :=
    if decide (JsNum.truthy (outputFolder cfg) = None)
    then "Please select an output folder first"
    else if decide (JsNum.truthy animation = None) then "No animation selected"
    else if decide (electron host = None /\ electronAPI host = None)
         then "File system access is not available"
         else "Could not access the 3D scene" in
  exportSequence host cfg animation totalFrames s
  = (inr tt, mkStore (viewport s) (files s) (calls s)
               (trace s ++ [Notify (mkToast "Error" reason true)])
               (isExporting s) (exportProgress s) (currentAngle s)).
Proof.
  intros Hpre. cbn zeta. unfold exportSequence.
  destruct (JsNum.truthy (outputFolder cfg)) as [folder |] eqn:Hfolder; [|reflexivity].
  destruct (JsNum.truthy animation) as [name |] eqn:Hname; [|reflexivity].
  rewrite decide_False by discriminate. rewrite decide_False by discriminate.
  destruct (electron host) as [b1 |], (electronAPI host) as [b2 |].
  all: repeat rewrite (bool_decide_eq_true_2 (is_Some (Some _))) by eauto.
  all: repeat rewrite (bool_decide_eq_false_2 (is_Some None))
         by (intros [? ?]; discriminate).
  all: cbn [negb andb].
  all: try (rewrite decide_False by (intros [? ?]; discriminate)).
  all: try (rewrite decide_True by (split; reflexivity); reflexivity).
  all: unfold mbind at 1; unfold M_bind at 1; unfold gets at 1;
    destruct Hpre as [? | [? | [[? ?] | Hworld]]]; try discriminate;
    rewrite Hworld, toast_run, Hworld; reflexivity.
Qed.

Lemma exportSequence_stops_before_any_work_witness :
  JsNum.truthy (outputFolder Fixture.noFolder) = None
  /\ exportSequence Fixture.soundHost Fixture.noFolder (Some "walk"%string) 2
       Fixture.emptyStore
     = (inr tt, mkStore (Scene Fixture.theWorld) ∅ 0
                  [Notify (mkToast "Error" "Please select an output folder first" true)]
                  false 0 None)
  /\ viewport Fixture.blindStore = NoScene
  /\ exportSequence Fixture.soundHost Fixture.theSettings (Some "walk"%string) 2
       Fixture.blindStore
     = (inr tt, mkStore NoScene ∅ 0
                  [Notify (mkToast "Error" "Could not access the 3D scene" true)]
                  false 0 None).
Proof.
  split; [reflexivity|].
  split; [exact (exportSequence_stops_before_any_work Fixture.soundHost Fixture.noFolder
                   (Some "walk"%string) 2 Fixture.emptyStore (or_introl eq_refl))|].
  split; [reflexivity|].
  exact (exportSequence_stops_before_any_work Fixture.soundHost Fixture.theSettings
           (Some "walk"%string) 2 Fixture.blindStore
           (or_intror (or_intror (or_intror eq_refl)))).
Defined.

End SequenceProperties.

(* ===================================================================== *)
(** * Properties of the sprite sheets *)
(* ===================================================================== *)

Section SheetProperties.
Import JsNum Sequencer FrameEditor.
Local Open Scope Z_scope.

(** The draws of the editor's loop, when every image loads. *)
Lemma drawFrames_inr b fw fh l :
  forall i drawn, drawFrames b fw fh i l = inr drawn ->
    drawn = imap (fun k f => mkDraw (data f) (Z.of_nat (i + k) * fw) 0 fw fh) l
    /\ forall f, In f l -> loadImage b (data f) <> LoadError.
Proof.
  induction l as [| x rest IH]; intros i drawn H; cbn [drawFrames] in H.
  - injection H as <-. split; [reflexivity | intros f []].
  - destruct (loadImage b (data x)) as [| tainting] eqn:Hload; [discriminate|].
    destruct (drawFrames b fw fh (S i) rest) as [message | tail] eqn:Hrest; [discriminate|].
    injection H as <-. destruct (IH (S i) tail Hrest) as (-> & Hloads).
    split.
    + rewrite imap_cons, Nat.add_0_r. f_equal. apply imap_ext.
      intros k f _. cbn. replace (i + S k)%nat with (S (i + k)) by lia. reflexivity.
    + intros f [<- | Hin]; [congruence | apply Hloads, Hin].
Qed.

Lemma drawFrames_loads b fw fh l :
  (forall f, In f l -> loadImage b (data f) <> LoadError) ->
  forall i, drawFrames b fw fh i l
            = inr (imap (fun k f => mkDraw (data f) (Z.of_nat (i + k) * fw) 0 fw fh) l).
Proof.
  induction l as [| x rest IH]; intros Hloads i; [reflexivity|].
  cbn [drawFrames].
  destruct (loadImage b (data x)) as [| tainting] eqn:Hload;
    [destruct (Hloads x (or_introl eq_refl) Hload)|].
  rewrite (IH (fun f Hin => Hloads f (or_intror Hin)) (S i)).
  rewrite imap_cons, Nat.add_0_r. do 2 f_equal. apply imap_ext.
  intros k f _. cbn. replace (i + S k)%nat with (S (i + k)) by lia. reflexivity.
Qed.

(** The loop stops at the first image that does not load, and names its
    index. *)
Lemma drawFrames_inl b fw fh l :
  forall i k f,
    l !! k = Some f -> loadImage b (data f) = LoadError ->
    (forall j g, (j < k)%nat -> l !! j = Some g -> loadImage b (data g) <> LoadError) ->
    drawFrames b fw fh i l = inl ("Failed to load frame " +:+ pretty (i + k)%nat)%string.
Proof.
  induction l as [| x rest IH]; intros i k f Hk Hload Hbefore; [discriminate|].
  cbn [drawFrames]. destruct k as [| k]; cbn in Hk.
  - injection Hk as ->. rewrite Hload, Nat.add_0_r. reflexivity.
  - destruct (loadImage b (data x)) as [| tainting] eqn:Hx.
    + destruct (Hbefore 0%nat x ltac:(lia) eq_refl Hx).
    + rewrite (IH (S i) k f Hk Hload).
      * replace (S i + k)%nat with (i + S k)%nat by lia. reflexivity.
      * intros j g Hj Hg. apply (Hbefore (S j) g); [lia | exact Hg].
Qed.

Lemma existsb_taints_false b l :
  existsb (taints b) l = false <->
  forall f, In f l -> loadImage b (data f) <> Loaded true.
Proof.
  induction l as [| x rest IH]; cbn [existsb].
  - split; [intros _ f [] | reflexivity].
  - rewrite orb_false_iff, IH. unfold taints at 1. split.
    + intros [Hx Hrest] f [<- | Hin]; [|apply Hrest, Hin].
      destruct (loadImage b (data x)) as [| []]; congruence.
    + intros H. split; [|intros f Hin; apply H; right; exact Hin].
      specialize (H x (or_introl eq_refl)).
      destruct (loadImage b (data x)) as [| []]; congruence.
Qed.

(** The editor hands a sheet to the download link exactly when a frame is
    active, the canvas gives a context, and every active frame loads
    without tainting the canvas; the sheet is then one row of cells, each
    of the first active frame's size. *)
Lemma exportAsSpriteSheet_exported b frames sheet :
  exportAsSpriteSheet b frames = SheetExported sheet ->
  exists first rest,
    getActiveFrames frames = first :: rest
    /\ sheet = mkSheet (width first * Z.of_nat (length (first :: rest))) (height first)
                 (imap (fun i f => mkDraw (data f) (Z.of_nat i * width first) 0
                                     (width first) (height first)) (first :: rest))
    /\ canvasContext b = true
    /\ forall f, In f (first :: rest) -> loadImage b (data f) = Loaded false.
Proof.
  unfold exportAsSpriteSheet.
  destruct (getActiveFrames frames) as [| first rest]; [discriminate|]. cbn zeta.
  destruct (canvasContext b); [|discriminate]. cbn [negb].
  destruct (drawFrames b (width first) (height first) 0 (first :: rest))
    as [message | drawn] eqn:Hdraws; [discriminate|].
  destruct (existsb (taints b) (first :: rest)) eqn:Htaint; [discriminate|].
  intros H. injection H as <-. exists first, rest.
  apply drawFrames_inr in Hdraws as (-> & Hloads).
  split; [reflexivity|]. split; [reflexivity|]. split; [reflexivity|].
  intros f Hin. specialize (Hloads f Hin).
  pose proof (proj1 (existsb_taints_false b (first :: rest)) Htaint f Hin) as Hclean.
  destruct (loadImage b (data f)) as [| []]; congruence.
Qed.

Lemma exportAsSpriteSheet_strip b frames first rest :
  getActiveFrames frames = first :: rest ->
  canvasContext b = true ->
  (forall f, In f (first :: rest) -> loadImage b (data f) = Loaded false) ->
  exportAsSpriteSheet b frames
  = SheetExported
      (mkSheet (width first * Z.of_nat (length (first :: rest))) (height first)
         (imap (fun i f => mkDraw (data f) (Z.of_nat i * width first) 0
                             (width first) (height first)) (first :: rest))).
Proof.
  intros Hactive Hctx Hloads. unfold exportAsSpriteSheet. rewrite Hactive, Hctx.
  cbn zeta. cbn [negb].
  rewrite (drawFrames_loads b (width first) (height first) (first :: rest))
    by (intros f Hin; rewrite (Hloads f Hin); discriminate).
  rewrite (proj2 (existsb_taints_false b (first :: rest)))
    by (intros f Hin; rewrite (Hloads f Hin); discriminate).
  reflexivity.
Qed.

(** ** C6, as amended *)

(** C6 (amended).  For [n >= 1] frames of equal size, the export
    orchestrator's sheet is a grid: [columns] is the ceiling of the square
    root of [n], [rows] the ceiling of [n / columns], so that
    [columns * rows >= n > columns * (rows - 1)]; the sheet measures
    [frameW * columns] by [frameH * rows], and frame [i] is drawn in cell
    [(i mod columns, i div columns)].  This is the sheet that
    [exportSpriteSheet] saves whenever it returns a file name: the file of
    that name holds this layout and [n] cells, cell [i] a capture of
    [frameW] by [frameH] at [(i mod columns * frameW, i div columns *
    frameH)]; and it does return one when the bridge saves, rendering does
    not throw and the 2D context is there.  The frame editor's sheet of
    the active frames is not that grid but a single row: whenever the
    editor hands a sheet to its download link, the sheet measures
    [frameW * n] by [frameH] and frame [i] is drawn at [(i * frameW, 0)];
    and it does hand one over when the canvas gives a context and every
    active frame loads without tainting it. *)
Theorem sprite_sheet_layouts (frameW frameH n : Z)
    (host : Orchestrator.Host) (cfg : Orchestrator.Settings) (animation : string)
    (totalFrames : Z) (framesToRender : list Z)
    (b : Browser) (frames : list Frame) :
  1 <= n -> 0 < frameW -> 0 < frameH ->
  Z.of_nat (length framesToRender) = n ->
  Orchestrator.width cfg = frameW -> Orchestrator.height cfg = frameH ->
  Z.of_nat (length (getActiveFrames frames)) = n ->
  (forall f, In f (getActiveFrames frames) -> width f = frameW /\ height f = frameH) ->
  let layout := spriteSheetLayout frameW frameH n in
  let c := columns layout in
  let r := rows layout in
  (1 <= c /\ (c - 1) * (c - 1) < n <= c * c
   /\ c * (r - 1) < n <= c * r
   /\ sheetWidth layout = frameW * c /\ sheetHeight layout = frameH * r
   /\ forall i, 0 <= i < n ->
        cellOf c i = (i mod c, i / c)
        /\ 0 <= i mod c < c /\ 0 <= i / c < r
        /\ drawPosition frameW frameH c i = (i mod c * frameW, i / c * frameH))
  /\ (forall s filename s',
        Orchestrator.exportSpriteSheet host cfg animation totalFrames framesToRender s
        = (inr filename, s') ->
        exists cells,
          Orchestrator.files s' !! filename = Some (Orchestrator.SheetPng layout cells)
          /\ Z.of_nat (length cells) = n
          /\ forall i, 0 <= i < n ->
               exists raster,
                 cells !! Z.to_nat i = Some (i mod c * frameW, i / c * frameH, raster)
                 /\ Capture.raster_width raster = frameW
                 /\ Capture.raster_height raster = frameH)
  /\ (forall s bridge,
        Orchestrator.electron host = Some bridge ->
        (forall k path, Orchestrator.saveFile bridge k path = true) ->
        (forall i, Capture.renderThrows (Orchestrator.platform host) i = false) ->
        Capture.context2d (Orchestrator.platform host) = true ->
        is_Some (Orchestrator.world s) ->
        exists filename s',
          Orchestrator.exportSpriteSheet host cfg animation totalFrames framesToRender s
          = (inr filename, s'))
  /\ (forall sheet,
        exportAsSpriteSheet b frames = SheetExported sheet ->
        canvas_width sheet = frameW * n /\ canvas_height sheet = frameH
        /\ forall i f, getActiveFrames frames !! i = Some f ->
             draws sheet !! i
             = Some (mkDraw (data f) (Z.of_nat i * frameW) 0 frameW frameH))
  /\ (canvasContext b = true ->
      (forall f, In f (getActiveFrames frames) -> loadImage b (data f) = Loaded false) ->
      exists sheet, exportAsSpriteSheet b frames = SheetExported sheet).
Proof.
  intros Hn HfW HfH Hplan Hcw Hch Hlen Hsize. cbn zeta.
  assert (forall i, 0 <= i < n ->
            cellOf (columns (spriteSheetLayout frameW frameH n)) i
            = (i mod columns (spriteSheetLayout frameW frameH n),
               i / columns (spriteSheetLayout frameW frameH n))
            /\ 0 <= i mod columns (spriteSheetLayout frameW frameH n)
               < columns (spriteSheetLayout frameW frameH n)
            /\ 0 <= i / columns (spriteSheetLayout frameW frameH n)
               < rows (spriteSheetLayout frameW frameH n)
            /\ drawPosition frameW frameH (columns (spriteSheetLayout frameW frameH n)) i
               = (i mod columns (spriteSheetLayout frameW frameH n) * frameW,
                  i / columns (spriteSheetLayout frameW frameH n) * frameH)) as Hcells.
  { unfold spriteSheetLayout. cbn [columns rows]. intros i Hi.
    destruct (ceil_sqrt_bounds n Hn) as (Hc & Hsq).
    split; [reflexivity|].
    destruct (cellOf_in_grid n (ceil_sqrt n) i ltac:(lia) Hi) as (Hcol & Hrow).
    split; [exact Hcol|]. split; [exact Hrow | reflexivity]. }
  split; [|split; [|split; [|split]]].
  - unfold spriteSheetLayout in *. cbn [columns rows sheetWidth sheetHeight] in *.
    destruct (ceil_sqrt_bounds n Hn) as (Hc & Hsq).
    split; [exact Hc|]. split; [exact Hsq|].
    split; [apply ceil_quot_bounds; lia|].
    split; [reflexivity|]. split; [reflexivity | exact Hcells].
  - intros s filename s' Hrun.
    apply exportSpriteSheet_contents in Hrun as (cells & Hfile & Hcount & Hall).
    cbn zeta in Hfile, Hall. rewrite Hcw, Hch, Hplan in Hfile, Hall.
    exists cells. split; [exact Hfile|]. split; [lia|].
    intros i Hi. destruct (Hall (Z.to_nat i) ltac:(lia)) as (raster & Hcell & Hsizes).
    rewrite Z2Nat.id in Hcell by lia.
    rewrite (proj2 (proj2 (proj2 (Hcells i Hi)))) in Hcell.
    exists raster. split; [exact Hcell | exact Hsizes].
  - intros s bridge He Hsave Hrender Hctx Hw.
    destruct (exportSpriteSheet_sound host cfg bridge animation totalFrames
                framesToRender s He Hsave Hrender Hctx Hw) as (filename & s' & Hrun & _).
    exists filename, s'. exact Hrun.
  - intros sheet Hsheet.
    apply exportAsSpriteSheet_exported in Hsheet
      as (first & rest & Hactive & -> & _ & _).
    rewrite Hactive in *. destruct (Hsize first ltac:(now left)) as [Hw Hh].
    cbn [canvas_width canvas_height draws]. rewrite Hw, Hh, Hlen.
    split; [reflexivity|]. split; [reflexivity|].
    intros i f Hf. rewrite list_lookup_imap, Hf. reflexivity.
  - intros Hctx Hloads.
    destruct (getActiveFrames frames) as [| first rest] eqn:Hactive; [cbn in Hlen; lia|].
    eexists. apply (exportAsSpriteSheet_strip b frames first rest Hactive Hctx Hloads).
Qed.

Lemma sprite_sheet_layouts_witness :
  1 <= 3 /\ 0 < 10
  /\ Z.of_nat (length [0; 1; 2]) = 3
  /\ Orchestrator.width Fixture.tenByTen = 10 /\ Orchestrator.height Fixture.tenByTen = 10
  /\ Z.of_nat (length (getActiveFrames Fixture.threeFrames)) = 3
  /\ (forall f, In f (getActiveFrames Fixture.threeFrames) -> width f = 10 /\ height f = 10)
  /\ columns (spriteSheetLayout 10 10 3) * rows (spriteSheetLayout 10 10 3) >= 3
  /\ (exists filename s',
        Orchestrator.exportSpriteSheet Fixture.soundHost Fixture.tenByTen "walk" 3
          [0; 1; 2] Fixture.emptyStore = (inr filename, s')
        /\ exists cells,
             Orchestrator.files s' !! filename
             = Some (Orchestrator.SheetPng (spriteSheetLayout 10 10 3) cells)
             /\ Z.of_nat (length cells) = 3)
  /\ exists sheet, exportAsSpriteSheet Fixture.soundBrowser Fixture.threeFrames
                   = SheetExported sheet
       /\ canvas_width sheet = 10 * 3 /\ canvas_height sheet = 10.
Proof.
  assert (forall f, In f (getActiveFrames Fixture.threeFrames)
                    -> width f = 10 /\ height f = 10) as Hsize.
  { cbn. intros f [<- | [<- | [<- | []]]]; split; reflexivity. }
  split; [lia|]. split; [lia|]. split; [reflexivity|].
  split; [reflexivity|]. split; [reflexivity|]. split; [reflexivity|].
  split; [exact Hsize|].
  destruct (sprite_sheet_layouts 10 10 3 Fixture.soundHost Fixture.tenByTen "walk" 3
              [0; 1; 2] Fixture.soundBrowser Fixture.threeFrames
              ltac:(lia) ltac:(lia) ltac:(lia) eq_refl eq_refl eq_refl eq_refl Hsize)
    as ((_ & _ & Hrows & _) & Hsaved & Hruns & Hstrip & Hexports).
  split; [lia|]. split.
  - destruct (Hruns Fixture.emptyStore Fixture.soundBridge eq_refl
                (fun _ _ => eq_refl) (fun _ => eq_refl) eq_refl
                ltac:(eexists; reflexivity)) as (filename & s' & Hrun).
    exists filename, s'. split; [exact Hrun|].
    destruct (Hsaved _ _ _ Hrun) as (cells & Hfile & Hcount & _).
    exists cells. split; assumption.
  - destruct (Hexports eq_refl (fun _ _ => eq_refl)) as (sheet & Hsheet).
    exists sheet. split; [exact Hsheet|].
    destruct (Hstrip sheet Hsheet) as (Hw & Hh & _). split; assumption.
Defined.

(** C6 as stated fails for the frame editor: three frames of 10 by 10 go on
    a sheet of 30 by 10 with the third frame at (20, 0), where the grid of
    the specification is 20 by 20 with the third frame at (0, 10). *)
Lemma editor_sheet_not_grid_counterexample :
  spriteSheetLayout 10 10 3 = mkLayout 2 2 20 20
  /\ drawPosition 10 10 2 2 = (0, 10)
  /\ exportAsSpriteSheet Fixture.soundBrowser Fixture.threeFrames
     = SheetExported (mkSheet 30 10 [mkDraw "data" 0 0 10 10; mkDraw "data" 10 0 10 10;
                                     mkDraw "data" 20 0 10 10])
  /\ (forall sheet,
        exportAsSpriteSheet Fixture.soundBrowser Fixture.threeFrames = SheetExported sheet ->
        (canvas_width sheet, canvas_height sheet)
        <> (sheetWidth (spriteSheetLayout 10 10 3), sheetHeight (spriteSheetLayout 10 10 3))).
Proof.
  repeat split; try reflexivity.
  intros sheet [= <-]. cbn. discriminate.
Qed.

End SheetProperties.

(* ===================================================================== *)
(** * Properties of the multi-angle export *)
(* ===================================================================== *)

Section BatchProperties.
Import Eff Orchestrator MultiExport.
Local Abbreviation Error := Capture.Error.

(** ** The trace of an export holds no event of the controller *)

Lemma quiet_ret {A} (a : A) : quiet (ret a : M Store Error A).
Proof. intros s. exists []. split; [symmetry; apply app_nil_r | reflexivity]. Qed.

Lemma quiet_throw {A} e : quiet (throw e : M Store Error A).
Proof. intros s. exists []. split; [symmetry; apply app_nil_r | reflexivity]. Qed.

Lemma quiet_gets {A} (f : Store -> A) : quiet (gets f).
Proof. intros s. exists []. split; [symmetry; apply app_nil_r | reflexivity]. Qed.

Lemma quiet_bind {A B} (c : M Store Error A) (f : A -> M Store Error B) :
  quiet c -> (forall a, quiet (f a)) -> quiet (c ≫= f).
Proof.
  intros Hc Hf s. unfold mbind, M_bind.
  destruct (Hc s) as (evs1 & Ht1 & Hq1).
  destruct (c s) as [[e | a] s1]; cbn [snd] in *.
  - exists evs1. split; assumption.
  - destruct (Hf a s1) as (evs2 & Ht2 & Hq2).
    exists (evs1 ++ evs2). rewrite Ht2, Ht1, <- app_assoc. split; [reflexivity|].
    rewrite forallb_app, Hq1, Hq2. reflexivity.
Qed.

Lemma quiet_try_catch {A} (c : M Store Error A) (h : Error -> M Store Error A) :
  quiet c -> (forall e, quiet (h e)) -> quiet (try_catch c h).
Proof.
  intros Hc Hh s. unfold try_catch.
  destruct (Hc s) as (evs1 & Ht1 & Hq1).
  destruct (c s) as [[e | a] s1]; cbn [snd] in *.
  - destruct (Hh e s1) as (evs2 & Ht2 & Hq2).
    exists (evs1 ++ evs2). rewrite Ht2, Ht1, <- app_assoc. split; [reflexivity|].
    rewrite forallb_app, Hq1, Hq2. reflexivity.
  - exists evs1. split; assumption.
Qed.

Lemma quiet_log e : controllerEvent e = false -> quiet (log e).
Proof. intros He s. exists [e]. cbn. rewrite He. split; reflexivity. Qed.

Lemma quiet_toast t d b : quiet (toast t d b).
Proof. apply quiet_log. reflexivity. Qed.

Lemma quiet_onWorld {A} (c : M Capture.World Error A) : quiet (onWorld c).
Proof.
  intros s. exists []. unfold onWorld.
  destruct (world s) as [w |]; [destruct (c w) as [r w'] |];
    (split; [symmetry; apply app_nil_r | reflexivity]).
Qed.

Lemma quiet_bridgeCall answer path written event :
  (forall ok, controllerEvent (event ok) = false) ->
  quiet (bridgeCall answer path written event).
Proof.
  intros He s. eexists [_]. cbn. rewrite He. split; reflexivity.
Qed.

Lemma quiet_for_each {A} (body : nat -> A -> M Store Error unit) :
  (forall i x, quiet (body i x)) -> forall l i, quiet (for_each body i l).
Proof.
  intros Hbody l. induction l as [| x rest IH]; intros i; cbn [for_each].
  - apply quiet_ret.
  - apply quiet_bind; [apply Hbody | intros _; apply IH].
Qed.

Lemma quiet_collect {A B} (body : nat -> A -> M Store Error B) :
  (forall i x, quiet (body i x)) -> forall l i, quiet (collect body i l).
Proof.
  intros Hbody l. induction l as [| x rest IH]; intros i; cbn [collect].
  - apply quiet_ret.
  - apply quiet_bind; [apply Hbody | intros b].
    apply quiet_bind; [apply IH | intros bs; apply quiet_ret].
Qed.

Ltac quiet_steps :=
  repeat first
    [ apply quiet_ret | apply quiet_throw | apply quiet_gets | apply quiet_toast
    | apply quiet_onWorld
    | apply quiet_log; reflexivity
    | apply quiet_bridgeCall; intros ?; reflexivity
    | apply quiet_bind; [| intros ?]
    | apply quiet_try_catch; [| intros ?]
    | apply quiet_for_each; intros ? ?
    | apply quiet_collect; intros ? ?
    | match goal with
      | |- quiet (if ?b then _ else _) => destruct b
      | |- quiet (match ?x with _ => _ end) => destruct x
      | |- quiet (let _ := _ in _) => cbn zeta
      end ].

Lemma quiet_saveFileVia host path a : quiet (saveFileVia host path a).
Proof. unfold saveFileVia. quiet_steps. Qed.

Lemma quiet_createDirectoryVia host path : quiet (createDirectoryVia host path).
Proof. unfold createDirectoryVia. quiet_steps. Qed.

Lemma quiet_exportSpriteSheet host cfg animation totalFrames framesToRender :
  quiet (exportSpriteSheet host cfg animation totalFrames framesToRender).
Proof.
  unfold exportSpriteSheet. cbn zeta.
  quiet_steps; try apply quiet_saveFileVia.
Qed.

Lemma quiet_exportSequence host cfg animation totalFrames :
  quiet (exportSequence host cfg animation totalFrames).
Proof.
  unfold exportSequence.
  quiet_steps; try apply quiet_saveFileVia; try apply quiet_createDirectoryVia;
    try apply quiet_exportSpriteSheet.
Qed.

(** ** The angles exported by the wired controller *)

Lemma exportedAngles_app c t1 t2 :
  exportedAngles c (t1 ++ t2)
  = exportedAngles c t1 ++ exportedAngles (angleAfter c t1) t2.
Proof.
  revert c. induction t1 as [| e rest IH]; intros c; [reflexivity|].
  destruct e; cbn; try apply IH.
  destruct c; cbn; [f_equal|]; apply IH.
Qed.

Lemma exportedAngles_quiet c evs :
  forallb (fun e => negb (controllerEvent e)) evs = true ->
  exportedAngles c evs = [] /\ angleAfter c evs = c.
Proof.
  induction evs as [| e rest IH]; cbn; [intros _; split; reflexivity|].
  intros H. apply andb_prop in H as [He Hrest].
  destruct e; try discriminate; cbn; apply IH, Hrest.
Qed.

Lemma canvas_kept s s' :
  grows s s' -> viewport s <> NoCanvas -> viewport s' <> NoCanvas.
Proof.
  intros (Hv & _) H. destruct (viewport s), (viewport s'); cbn in Hv;
    congruence || tauto.
Qed.

(** With a canvas in the document, one turn of the wired controller's loop
    does not throw, keeps the canvas, and adds to the trace its two events
    and then events of the export only. *)
Lemma wired_body_trace host cfg animation frames total i angleKey s :
  viewport s <> NoCanvas ->
  exists s1 evs,
    (setCurrentAngle (Some angleKey);;
     log (RotateToAngle angleKey);;
     onRotateToAngle (wired host cfg true true (Some animation) frames) angleKey;;
     log (ExportSequence animation frames);;
     onExportSequence (wired host cfg true true (Some animation) frames) animation frames;;
     setExportProgress (inject_Z (Z.of_nat (S i)) / inject_Z (Z.of_nat total) * 100)%Q) s
    = (inr tt, s1)
    /\ trace s1 = trace s ++ [RotateToAngle angleKey; ExportSequence animation frames] ++ evs
    /\ forallb (fun e => negb (controllerEvent e)) evs = true
    /\ viewport s1 <> NoCanvas.
Proof.
  intros Hcanvas. unfold wired. cbn [onRotateToAngle onExportSequence].
  unfold setCurrentAngle, setExportProgress, log, modify, ret.
  unfold mbind, M_bind, mret, M_ret. cbn [fst snd].
  match goal with
  | |- context [exportSequence ?h ?c ?an ?f ?st] =>
      pose proof (exportSequence_never_throws h c an f st Hcanvas) as Hok;
      pose proof (canvas_kept _ _ (steady_exportSequence h c an f st) Hcanvas) as Hkept;
      destruct (quiet_exportSequence h c an f st) as (evs & Htrace & Hquiet);
      destruct (exportSequence h c an f st) as [[e | []] s1]
  end; [discriminate|].
  cbn [snd trace] in Htrace. cbn [snd] in Hkept.
  eexists _, evs. split; [reflexivity|]. cbn [trace viewport].
  rewrite Htrace, <- !app_assoc. split; [reflexivity|]. split; [exact Hquiet | exact Hkept].
Qed.

Lemma wired_loop_exports host cfg animation frames total angles :
  forall i s, viewport s <> NoCanvas ->
    let run := for_each (fun i angleKey =>
        setCurrentAngle (Some angleKey);;
        log (RotateToAngle angleKey);;
        onRotateToAngle (wired host cfg true true (Some animation) frames) angleKey;;
        log (ExportSequence animation frames);;
        onExportSequence (wired host cfg true true (Some animation) frames) animation frames;;
        setExportProgress (inject_Z (Z.of_nat (S i)) / inject_Z (Z.of_nat total) * 100)%Q)
      i angles s in
    fst run = inr tt
    /\ exists new, trace (snd run) = trace s ++ new
                   /\ forall c, exportedAngles c new = angles.
Proof.
  induction angles as [| a rest IH]; intros i s Hcanvas; cbn zeta.
  - split; [reflexivity|]. exists []. split; [symmetry; apply app_nil_r | reflexivity].
  - cbn [for_each].
    destruct (wired_body_trace host cfg animation frames total i a s Hcanvas)
      as (s1 & evs & Hbody & Htrace & Hquiet & Hkept).
    rewrite (bind_run _ _ _ _ _ Hbody).
    destruct (IH (S i) s1 Hkept) as (Hok & new & Hnew & Hangles).
    split; [exact Hok|].
    exists ([RotateToAngle a; ExportSequence animation frames] ++ evs ++ new).
    split.
    + rewrite Hnew, Htrace, <- !app_assoc. reflexivity.
    + intros c. cbn [app exportedAngles]. f_equal.
      rewrite exportedAngles_app.
      destruct (exportedAngles_quiet (Some a) evs Hquiet) as [-> ->].
      apply Hangles.
Qed.

(** With a canvas in the document, and whatever the bridge, the platform
    and the scene do, the wired controller runs through all its angles,
    exports every selected angle in the order selected, and ends on the
    toast that announces their success: its [catch] is not entered. *)
Lemma wired_batch_exports_every_angle host cfg animation frames angles s :
  viewport s <> NoCanvas ->
  canExport (wired host cfg true true (Some animation) frames) angles = true ->
  let run := handleExport (wired host cfg true true (Some animation) frames) angles s in
  fst run = inr tt
  /\ exportedAngles None (trace (snd run)) = exportedAngles None (trace s) ++ angles
  /\ List.last (trace (snd run)) (RotateToAngle "")
     = Notify (mkToast "Export terminé"
                 (pretty (length angles) +:+ " angles exportés avec succès") false).
Proof.
  intros Hcanvas Hcan. cbn zeta. unfold handleExport. rewrite Hcan. cbn [negb].
  match goal with
  | |- context [for_each ?body 0%nat angles] =>
      assert (forall st, viewport st <> NoCanvas ->
                 fst (for_each body 0%nat angles st) = inr tt
                 /\ exists new,
                      trace (snd (for_each body 0%nat angles st)) = trace st ++ new
                      /\ forall c, exportedAngles c new = angles) as Hexports
        by (intros st;
            apply (wired_loop_exports host cfg animation frames (length angles)));
      generalize dependent (for_each body 0%nat angles)
  end.
  intros loop Hexports.
  unfold try_finally, try_catch, setExporting, setExportProgress, setCurrentAngle,
    toast, log, modify.
  unfold mbind, M_bind. cbn [fst snd].
  match goal with
  | |- context [loop ?st] =>
      destruct (Hexports st Hcanvas) as (Hloop & new & Hnew & Hangles);
      destruct (loop st) as [[e | []] s1]
  end; [discriminate|].
  cbn [fst snd trace] in *. split; [reflexivity|]. split; [|apply last_last].
  rewrite Hnew, <- app_assoc, exportedAngles_app.
  f_equal. rewrite exportedAngles_app, Hangles.
  destruct (exportedAngles_quiet (angleAfter (angleAfter None (trace s)) new)
              [Notify (mkToast "Export terminé"
                 (pretty (length angles) +:+ " angles exportés avec succès") false)]
              eq_refl) as [-> _].
  apply app_nil_r.
Qed.

(** On a page without canvas the export of the first angle rejects at line
    638, and here the controller does stop and report it. *)
Example handleExport_without_canvas :
  let final := snd (handleExport Fixture.theProps Fixture.twoAngles
                      Fixture.bareStore) in
  trace final
  = [RotateToAngle "face"; ExportSequence "walk" 2;
     Notify (mkToast "Erreur d'export"
               "Cannot read properties of null (reading '__r3f')" true)]
  /\ exportedAngles None (trace final) = ["face"%string].
Proof. split; reflexivity. Qed.

(** The controller by itself does stop at the first callback that rejects,
    and reports the error: only the first of the two angles is exported. *)
Example handleExport_stops_when_callback_rejects :
  let final := snd (handleExport Fixture.rejectingProps Fixture.twoAngles
                      Fixture.emptyStore) in
  trace final
  = [RotateToAngle "face"; ExportSequence "walk" 2;
     Notify (mkToast "Erreur d'export" "disk full" true)]
  /\ exportedAngles None (trace final) = ["face"%string].
Proof. split; reflexivity. Qed.

(** ** C4 *)

(** C4 (the code departs from it).  The controller wired to
    [exportSequence], two angles, and a bridge whose first [saveFile] fails:
    the export of the first angle fails, and the controller still rotates to
    the second angle, exports it, and ends by announcing that both angles
    were exported successfully.  The only report of the failure is the
    toast of [exportSequence], which names the file and not the angle. *)
Theorem batch_continues_after_failed_angle :
  let run := handleExport Fixture.theProps Fixture.twoAngles Fixture.emptyStore in
  let final := snd run in
  fst run = inr tt
  /\ trace final !! 5%nat
     = Some (SaveFile Electron "out/walk/frame_0000.png" false)
  /\ trace final !! 6%nat
     = Some (Notify (mkToast "Error"
               "Failed to export sequence: Failed to save file: out/walk/frame_0000.png"
               true))
  /\ trace final !! 7%nat = Some (RotateToAngle "dos")
  /\ exportedAngles None (trace final) = ["face"; "dos"]%string
  /\ List.last (trace final) (RotateToAngle "")
     = Notify (mkToast "Export terminé" "2 angles exportés avec succès" false)
  /\ fst <$> map_to_list (files final)
     = ["out/walk_spritesheet_2x1.png"; "out/walk/frame_0001.png";
        "out/walk/frame_0000.png"]%string.
Proof. vm_compute. repeat split; reflexivity. Qed.

End BatchProperties.

(* ===================================================================== *)
(** * Further properties of the calibration hook *)
(* ===================================================================== *)

Section CalibrationSession.
Import Calibration.

(** ** What [analyzeModel] computes *)

Lemma clampScale_inside s : ((1 # 2) <= s <= 20)%Q -> (clampScale s == s)%Q.
Proof.
  intros [Hlo Hhi]. unfold clampScale.
  rewrite (Q.min_l s 20 Hhi). apply Q.max_l. exact Hlo.
Qed.

Lemma clampScale_low s : (s <= 1 # 2)%Q -> (clampScale s == 1 # 2)%Q.
Proof.
  intros Hs. unfold clampScale.
  rewrite (Q.min_l s 20) by lra. apply Q.max_r. exact Hs.
Qed.

Lemma clampScale_high s : (20 <= s)%Q -> (clampScale s == 20)%Q.
Proof.
  intros Hs. unfold clampScale.
  rewrite (Q.min_r s 20 Hs). apply Q.max_l. lra.
Qed.

(** X1.  For a model whose bounding box is not empty, [analyzeModel]
    returns a calibration with original scale 1, target height 1.5 and no
    front face.  A model at least 3 units tall is scaled by 0.5, and a model
    of positive height at most 1/16 by 20: there the quotient
    [1.5 / height] lies beyond the bound of the clamp, at a distance that
    no rounding of the height or of the quotient bridges.  The ground
    offset never has the sign of the lowest point of the box: it is zero
    for a model that stands on the ground, not negative for one that
    reaches below it, and not positive for one that floats above it. *)
Theorem analyzeModel_clamp_saturates model box :
  model_scene model = Some box -> isEmpty box = false ->
  exists c, analyzeModel (Some model) = Some c
    /\ originalScale c = 1%Q /\ targetHeight c = (3 # 2)%Q
    /\ frontFaceRotation c = 0%Q /\ isFrontFaceSet c = false
    /\ ((3 <= max_y box - min_y box)%Q -> (normalizedScale c == 1 # 2)%Q)
    /\ ((0 < max_y box - min_y box <= 1 # 16)%Q -> (normalizedScale c == 20)%Q)
    /\ ((min_y box == 0)%Q -> (groundOffset c == 0)%Q)
    /\ ((min_y box < 0)%Q -> (0 <= groundOffset c)%Q)
    /\ ((0 < min_y box)%Q -> (groundOffset c <= 0)%Q).
Proof.
  intros Hscene Hempty. unfold analyzeModel. cbn [mbind option_bind]. rewrite Hscene.
  unfold getSize. rewrite Hempty.
  set (h := (max_y box - min_y box)%Q).
  destruct (rawScale_defined (3 # 2) h) as (s & Hs & Hpos & Hdeg).
  rewrite Hs. cbn [mbind option_bind]. eexists. split; [reflexivity|].
  cbn [originalScale targetHeight frontFaceRotation isFrontFaceSet
       normalizedScale groundOffset].
  pose proof (clampScale_range s) as [Hlow Hhigh].
  repeat (split; [reflexivity|]).
  split; [|split; [|split; [|split]]].
  - intros Hbig. rewrite (Hpos ltac:(lra)). apply clampScale_low.
    apply Qle_shift_div_r; lra.
  - intros [Hp Hsmall]. rewrite (Hpos Hp). apply clampScale_high.
    apply Qle_shift_div_l; lra.
  - intros Hzero. rewrite Hzero. ring.
  - intros Hneg. nra.
  - intros Hfloat. nra.
Qed.

Lemma analyzeModel_clamp_saturates_witness :
  model_scene Fixture.tallModel = Some (mkBox3 (-1) (-1) (-1) 1 2 1)
  /\ isEmpty (mkBox3 (-1) (-1) (-1) 1 2 1) = false
  /\ exists c, analyzeModel (Some Fixture.tallModel) = Some c
       /\ (normalizedScale c == 1 # 2)%Q /\ (0 <= groundOffset c)%Q.
Proof.
  split; [reflexivity|]. split; [reflexivity|].
  destruct (analyzeModel_clamp_saturates Fixture.tallModel
              (mkBox3 (-1) (-1) (-1) 1 2 1) eq_refl eq_refl)
    as (c & Hc & _ & _ & _ & _ & Htall & _ & _ & Hbelow & _).
  exists c. split; [exact Hc|].
  split; [apply Htall; cbn; lra | apply Hbelow; cbn; lra].
Defined.

(** ** Manual calibration *)

(** The calibration that [analyzeModel] builds. *)
Lemma analyzeModel_shape model box :
  model_scene model = Some box ->
  exists s, rawScale (3 # 2) (snd (fst (getSize box))) = Some s
    /\ analyzeModel (Some model)
       = Some (mkCalibration 1 (clampScale s) (- min_y box * clampScale s) 0 false
                 (getSize box) (3 # 2)).
Proof.
  intros Hscene. unfold analyzeModel. cbn [mbind option_bind]. rewrite Hscene.
  destruct (getSize box) as [[sx sy] sz]. cbn [fst snd].
  destruct (rawScale_defined (3 # 2) sy) as (s & Hs & _).
  exists s. rewrite Hs. split; reflexivity.
Qed.

(** X2.  With a model that has a scene, and the model container present in
    the live scene, [manualCalibrate] stores the calibration that
    [analyzeModel] computes, scales the container by a factor between 0.5 and
    20, grounds it, leaves its rotation alone and ends with [isCalibrating]
    false.  The stored calibration has no front face: after a calibration,
    [rotateToAngle] does nothing, for every angle name, until [setFrontFace]
    is called again. *)
Theorem manualCalibrate_resets_front_face model box st sc container :
  model_scene model = Some box ->
  scene st = Some sc -> importedModel sc = Some container ->
  let st' := manualCalibrate (Some model) st in
  exists c,
    analyzeModel (Some model) = Some c
    /\ calibration st' = Some c /\ isCalibrating st' = false
    /\ isFrontFaceSet c = false
    /\ scene st' = Some (mkScene (Some
         (mkContainer (normalizedScale c, normalizedScale c, normalizedScale c)
            (groundOffset c) (rotation_y container))))
    /\ ((1 # 2) <= normalizedScale c <= 20)%Q
    /\ forall angleName, rotateToAngle angleName st' = st'.
Proof.
  intros Hscene Hsc Hk st'.
  destruct (analyzeModel_shape model box Hscene) as (s & _ & Hc).
  eexists. split; [exact Hc|].
  subst st'. unfold manualCalibrate, manualCalibrate_timer.
  rewrite Hc. unfold applyCalibration, setCalibrating. cbn [scene].
  rewrite Hsc, Hk. cbn [snd scene calibration isCalibrating].
  unfold applyTo. cbn [isFrontFaceSet normalizedScale groundOffset].
  repeat split; try reflexivity; try apply clampScale_range.
Qed.

Lemma manualCalibrate_resets_front_face_witness :
  let st' := manualCalibrate (Some Fixture.tallModel) Fixture.sceneWithContainer in
  model_scene Fixture.tallModel = Some (mkBox3 (-1) (-1) (-1) 1 2 1)
  /\ scene Fixture.sceneWithContainer
     = Some (mkScene (Some (mkContainer (1, 1, 1)%Q 0 (1 # 4))))
  /\ isCalibrating st' = false
  /\ rotateToAngle "dos" st' = st'.
Proof.
  cbn zeta. split; [reflexivity|]. split; [reflexivity|].
  destruct (manualCalibrate_resets_front_face Fixture.tallModel
              (mkBox3 (-1) (-1) (-1) 1 2 1) Fixture.sceneWithContainer
              (mkScene (Some (mkContainer (1, 1, 1)%Q 0 (1 # 4))))
              (mkContainer (1, 1, 1)%Q 0 (1 # 4)) eq_refl eq_refl eq_refl)
    as (c & _ & _ & Hbusy & _ & _ & _ & Hrot).
  split; [exact Hbusy | apply Hrot].
Defined.

(** ** The named angles *)

(** The table of lines 146-153, key by key. *)
Lemma angles_lookup c name :
  angles c !! name
  = if String.eqb name "face" then Some (frontFaceRotation c)
    else if String.eqb name "dos" then Some (frontFaceRotation c + PI)%Q
    else if String.eqb name "profil_droit" then Some (frontFaceRotation c + PI / 2)%Q
    else if String.eqb name "profil_gauche" then Some (frontFaceRotation c - PI / 2)%Q
    else if String.eqb name "trois_quart_droite" then Some (frontFaceRotation c + PI / 4)%Q
    else if String.eqb name "trois_quart_gauche" then Some (frontFaceRotation c - PI / 4)%Q
    else None.
Proof.
  unfold angles. cbn [list_to_map foldr uncurry fst snd].
  repeat (rewrite lookup_insert; case_decide;
          [subst name; reflexivity |
           rewrite (proj2 (String.eqb_neq _ _)) by congruence]).
  apply lookup_empty.
Qed.

Lemma angles_keys c name :
  is_Some (angles c !! name) <-> In name MultiExport.availableAngles.
Proof.
  rewrite angles_lookup. unfold MultiExport.availableAngles. cbn [In].
  repeat (match goal with
          | |- context [String.eqb name ?k] => destruct (String.eqb_spec name k) as [-> | ?]
          end;
          [split; [intros _; repeat (try (left; reflexivity); right)
                  | intros _; eexists; reflexivity]|]).
  split; [intros [? H]; discriminate H
         | intros H; repeat destruct H as [H | H]; try congruence; contradiction].
Qed.

(** X3.  The angle names that [rotateToAngle] knows are exactly the keys
    that the multi-angle panel offers, and every angle that a preset of the
    panel selects is one of them. *)
Theorem angles_are_the_available_angles c name :
  (is_Some (angles c !! name) <-> In name MultiExport.availableAngles)
  /\ (forall preset prev,
        In name (MultiExport.selectPreset preset prev) ->
        In name prev \/ is_Some (angles c !! name)).
Proof.
  split; [apply angles_keys|].
  intros preset prev. unfold MultiExport.selectPreset.
  destruct (String.eqb preset "standard");
    [| destruct (String.eqb preset "all"); [| destruct (String.eqb preset "none")]].
  - intros H. right. apply angles_keys. unfold MultiExport.availableAngles.
    cbn in H |- *. tauto.
  - intros H. right. apply angles_keys. exact H.
  - intros [].
  - intros H. left. exact H.
Qed.

(** X4.  Once the front face is set, rotating to one of the six named angles
    sets the rotation of the container to the angle of the table and
    changes nothing else: the scale and the height of the container and
    the calibration stay.  The rotation is absolute: the result does not
    depend on the rotations made before. *)
Theorem rotateToAngle_turns_only name st c container :
  calibration st = Some c -> isFrontFaceSet c = true ->
  scene st ≫= importedModel = Some container ->
  In name MultiExport.availableAngles ->
  exists angle,
    angles c !! name = Some angle
    /\ rotateToAngle name st
       = mkState (Some (mkScene (Some (mkContainer (scale container)
                                        (position_y container) angle))))
                 (Some c) (isCalibrating st)
    /\ forall other, rotateToAngle name (rotateToAngle other st) = rotateToAngle name st.
Proof.
  intros Hc Hface Hk Hname.
  destruct (proj2 (angles_keys c name) Hname) as [angle Hangle].
  exists angle. split; [exact Hangle|].
  assert (forall st0 k0, calibration st0 = Some c -> scene st0 ≫= importedModel = Some k0 ->
            rotateToAngle name st0
            = mkState (Some (mkScene (Some (mkContainer (scale k0) (position_y k0) angle))))
                (Some c) (isCalibrating st0)) as Hrot.
  { intros st0 k0 Hc0 Hk0. unfold rotateToAngle, setRotation.
    rewrite Hc0, Hface, Hangle, Hk0. reflexivity. }
  split; [apply Hrot; assumption|].
  intros other. rewrite (Hrot st container Hc Hk).
  unfold rotateToAngle at 2. rewrite Hc, Hface.
  destruct (angles c !! other) as [a |].
  - unfold setRotation. rewrite Hk.
    rewrite (Hrot _ (mkContainer (scale container) (position_y container) a))
      by (cbn; assumption || reflexivity).
    reflexivity.
  - rewrite (Hrot st container Hc Hk). reflexivity.
Qed.

Lemma rotateToAngle_turns_only_witness :
  calibration Fixture.facedScene
  = Some (mkCalibration 1 (1 # 2) 0 (1 # 4) true (1, 3, 1)%Q (3 # 2))
  /\ In "dos"%string MultiExport.availableAngles
  /\ scene (rotateToAngle "dos" Fixture.facedScene)
     = Some (mkScene (Some (mkContainer (1, 1, 1)%Q 0 ((1 # 4) + PI))))
  /\ rotateToAngle "dos" (rotateToAngle "profil_droit" Fixture.facedScene)
     = rotateToAngle "dos" Fixture.facedScene.
Proof.
  assert (In "dos"%string MultiExport.availableAngles) as Hin by (right; left; reflexivity).
  split; [reflexivity|]. split; [exact Hin|].
  destruct (rotateToAngle_turns_only "dos" Fixture.facedScene
              (mkCalibration 1 (1 # 2) 0 (1 # 4) true (1, 3, 1)%Q (3 # 2))
              (mkContainer (1, 1, 1)%Q 0 (1 # 4)) eq_refl eq_refl eq_refl Hin)
    as (angle & Hangle & Hrot & Habs).
  split; [|apply Habs].
  rewrite Hrot. cbn [scene]. rewrite angles_lookup in Hangle. cbn in Hangle.
  injection Hangle as <-. reflexivity.
Defined.

(** X5.  [setFrontFace] records the current rotation of the container as the
    front face and leaves the scene alone, so that rotating to [face] right
    after it changes nothing.  Without a calibration, or without the
    container, it does nothing at all. *)
Theorem setFrontFace_then_face_is_stable st :
  rotateToAngle "face" (setFrontFace st) = setFrontFace st
  /\ scene (setFrontFace st) = scene st
  /\ (forall c container,
        calibration st = Some c -> scene st ≫= importedModel = Some container ->
        calibration (setFrontFace st)
        = Some (mkCalibration (originalScale c) (normalizedScale c) (groundOffset c)
                  (rotation_y container) true (originalSize c) (targetHeight c)))
  /\ (calibration st = None \/ scene st ≫= importedModel = None ->
      setFrontFace st = st).
Proof.
  destruct st as [[[[k |]] |] [c |] busy]; cbn.
  all: repeat split; try reflexivity; try (intros; congruence);
    try (intros ? ? [= <-] [= <-]; reflexivity);
    try (intros [? | ?]; congruence).
  all: unfold rotateToAngle, setFrontFace; cbn.
  all: try (rewrite angles_lookup; cbn); try destruct (isFrontFaceSet c); try reflexivity.
  all: destruct k; reflexivity.
Qed.

End CalibrationSession.

(* ===================================================================== *)
(** * Calibration profiles in local storage *)
(* ===================================================================== *)

Section Profiles.
Import Calibration.

Lemma assign_lookup name value profiles :
  name <> "__proto__"%string -> assign name value profiles !! name = Some value.
Proof.
  intros Hname. unfold assign.
  rewrite (proj2 (String.eqb_neq _ _) Hname). cbn. apply lookup_insert_eq.
Qed.

Lemma assign_lookup_other name other value profiles :
  other <> name -> assign name value profiles !! other = profiles !! other.
Proof.
  intros Hne. unfold assign.
  destruct (_ && _); [reflexivity|]. apply lookup_insert_ne. congruence.
Qed.

(** X6.  With a calibration in memory, a storage that parses and a name
    other than [__proto__], [saveProfile] returns [true].  Afterwards
    [getProfiles] lists that name and the names it listed before, and no
    other; and loading that name succeeds exactly when applying a
    calibration does: when the model container is in the scene. *)
Theorem saveProfile_makes_profile_loadable now name st storage c :
  calibration st = Some c -> storage <> Unparsable -> name <> "__proto__"%string ->
  exists storage',
    saveProfile true now name st storage = (Some true, storage')
    /\ In name (getProfiles storage')
    /\ (forall other,
          In other (getProfiles storage') <-> other = name \/ In other (getProfiles storage))
    /\ (forall st',
          fst (loadProfile name st' storage') = true
          <-> is_Some (scene st' ≫= importedModel)).
Proof.
  intros Hc Hparse Hname. unfold saveProfile. rewrite Hc.
  destruct (parseProfiles storage) as [profiles |] eqn:Hp;
    [|destruct storage; cbn in Hp; congruence].
  eexists. split; [reflexivity|].
  unfold loadProfile, getProfiles. cbn [parseProfiles]. rewrite Hp.
  split; [|split].
  - apply list_elem_of_In, elem_of_elements, elem_of_dom.
    rewrite assign_lookup by exact Hname. eexists; reflexivity.
  - intros other. rewrite <- !list_elem_of_In, !elem_of_elements, !elem_of_dom.
    destruct (decide (other = name)) as [-> | Hne].
    + rewrite assign_lookup by exact Hname. split; [left; reflexivity | eauto].
    + rewrite assign_lookup_other by exact Hne. split; [right; assumption|].
      intros [? | ?]; [contradiction | assumption].
  - intros st'. rewrite assign_lookup by exact Hname. cbn [profile_calibration].
    unfold applyCalibration. destruct (scene st') as [sc |]; cbn.
    + destruct (importedModel sc); cbn; split; eauto; try discriminate.
      intros [? ?]; discriminate.
    + split; [discriminate | intros [? ?]; discriminate].
Qed.

Lemma saveProfile_makes_profile_loadable_witness :
  calibration Fixture.facedScene
  = Some (mkCalibration 1 (1 # 2) 0 (1 # 4) true (1, 3, 1)%Q (3 # 2))
  /\ NoItem <> Unparsable /\ "hero"%string <> "__proto__"%string
  /\ exists storage',
       saveProfile true 1000 "hero" Fixture.facedScene NoItem = (Some true, storage')
       /\ fst (loadProfile "hero" Fixture.sceneWithContainer storage') = true
       /\ getProfiles storage' = ["hero"%string].
Proof.
  split; [reflexivity|]. split; [discriminate|]. split; [discriminate|].
  destruct (saveProfile_makes_profile_loadable 1000 "hero" Fixture.facedScene NoItem
              (mkCalibration 1 (1 # 2) 0 (1 # 4) true (1, 3, 1)%Q (3 # 2))
              eq_refl ltac:(discriminate) ltac:(discriminate))
    as (storage' & Hsave & _ & _ & Hload).
  exists storage'. split; [exact Hsave|].
  split; [apply Hload; eexists; reflexivity|].
  cbn in Hsave. injection Hsave as <-. reflexivity.
Defined.

(** X7.  The profile operations fail without a trace.  A [saveProfile] that
    does not return [true] leaves the storage as it was; a [loadProfile]
    that returns [false] leaves the hook's state and the scene as they
    were; with a stored value that does not parse neither succeeds and
    [getProfiles] is empty; and a name that [getProfiles] does not list
    cannot be loaded. *)
Theorem profile_failures_change_nothing writable now name st storage :
  (fst (saveProfile writable now name st storage) <> Some true ->
     snd (saveProfile writable now name st storage) = storage)
  /\ (fst (loadProfile name st storage) = false -> snd (loadProfile name st storage) = st)
  /\ (storage = Unparsable ->
        fst (saveProfile writable now name st storage) <> Some true
        /\ fst (loadProfile name st storage) = false
        /\ getProfiles storage = [])
  /\ (~ In name (getProfiles storage) -> loadProfile name st storage = (false, st)).
Proof.
  split; [|split; [|split]].
  - unfold saveProfile. destruct (calibration st); [|reflexivity].
    destruct (parseProfiles storage); [|reflexivity].
    destruct writable; [intros H; contradiction H; reflexivity | reflexivity].
  - unfold loadProfile. destruct (parseProfiles storage) as [profiles |]; [|reflexivity].
    destruct (profiles !! name) as [p |]; [|reflexivity].
    unfold applyCalibration. destruct (scene st) as [sc |]; [|reflexivity].
    destruct (importedModel sc); [discriminate | reflexivity].
  - intros ->. unfold saveProfile, loadProfile, getProfiles. cbn.
    destruct (calibration st); repeat split; try reflexivity; discriminate.
  - unfold loadProfile, getProfiles.
    destruct (parseProfiles storage) as [profiles |]; [|reflexivity].
    intros Hnot. destruct (profiles !! name) as [p |] eqn:Hp; [|reflexivity].
    contradiction Hnot. apply list_elem_of_In, elem_of_elements, elem_of_dom. eauto.
Qed.

(** X8.  The name [__proto__] is the one name that cannot be saved.  The
    assignment at line 178 reaches the prototype setter of the parsed
    object and adds no key, so [saveProfile] writes the profiles back as
    they were and still returns [true], and the profile cannot be loaded. *)
Theorem saveProfile_proto_is_lost now st storage c profiles :
  calibration st = Some c -> parseProfiles storage = Some profiles ->
  profiles !! "__proto__"%string = None ->
  saveProfile true now "__proto__" st storage = (Some true, Profiles profiles)
  /\ forall st', loadProfile "__proto__" st' (Profiles profiles) = (false, st').
Proof.
  intros Hc Hp Hnone. unfold saveProfile, loadProfile. rewrite Hc, Hp.
  unfold assign. cbn [String.eqb Ascii.eqb Bool.eqb andb parseProfiles].
  rewrite bool_decide_eq_true_2 by exact Hnone. rewrite Hnone. split; reflexivity.
Qed.

Lemma saveProfile_proto_is_lost_witness :
  calibration Fixture.facedScene
  = Some (mkCalibration 1 (1 # 2) 0 (1 # 4) true (1, 3, 1)%Q (3 # 2))
  /\ parseProfiles NoItem = Some ∅
  /\ saveProfile true 1000 "__proto__" Fixture.facedScene NoItem = (Some true, Profiles ∅)
  /\ loadProfile "__proto__" Fixture.sceneWithContainer (Profiles ∅)
     = (false, Fixture.sceneWithContainer).
Proof.
  split; [reflexivity|]. split; [reflexivity|].
  destruct (saveProfile_proto_is_lost 1000 Fixture.facedScene NoItem
              (mkCalibration 1 (1 # 2) 0 (1 # 4) true (1, 3, 1)%Q (3 # 2)) ∅
              eq_refl eq_refl (lookup_empty _))
    as [Hsave Hload].
  split; [exact Hsave | apply Hload].
Defined.

End Profiles.

(* ===================================================================== *)
(** * Further properties of the animation hook *)
(* ===================================================================== *)

Section Playback.
Import Animation.
Local Open Scope Z_scope.

(** X9.  While [0 <= currentFrame < totalFrames], [previousFrame] and
    [nextFrame] undo each other, wrap-around included, and both keep the
    frame in that range. *)
Theorem scrubbing_is_invertible st :
  0 <= currentFrame st < totalFrames st ->
  previousFrame (nextFrame st) = st /\ nextFrame (previousFrame st) = st
  /\ 0 <= currentFrame (nextFrame st) < totalFrames st
  /\ 0 <= currentFrame (previousFrame st) < totalFrames st.
Proof.
  destruct st as [anim cur total play]. cbn. intros Hrange.
  unfold nextFrame, previousFrame, setFrames. cbn.
  destruct (Z.leb_spec (total - 1) cur), (Z.leb_spec cur 0); cbn;
    repeat match goal with
           | |- context [Z.leb ?a ?b] => destruct (Z.leb_spec a b)
           end; cbn; repeat split; try lia; try (f_equal; lia).
Qed.

Lemma scrubbing_is_invertible_witness :
  0 <= currentFrame Fixture.midWalk < totalFrames Fixture.midWalk
  /\ previousFrame (nextFrame Fixture.midWalk) = Fixture.midWalk
  /\ currentFrame (nextFrame Fixture.midWalk) = 4.
Proof.
  assert (0 <= currentFrame Fixture.midWalk < totalFrames Fixture.midWalk) as H
    by (cbn; lia).
  split; [exact H|].
  split; [exact (proj1 (scrubbing_is_invertible Fixture.midWalk H)) | reflexivity].
Defined.

Lemma advance_frame st :
  0 <= currentFrame st < totalFrames st ->
  currentFrame (advance st) = (currentFrame st + 1) mod totalFrames st
  /\ totalFrames (advance st) = totalFrames st.
Proof.
  intros H. unfold advance, setFrames. cbn. split; [|reflexivity].
  apply Z.rem_mod_nonneg; lia.
Qed.

Lemma iter_advance n st :
  0 <= currentFrame st < totalFrames st ->
  currentFrame (Nat.iter n advance st) = (currentFrame st + Z.of_nat n) mod totalFrames st
  /\ totalFrames (Nat.iter n advance st) = totalFrames st.
Proof.
  intros H. induction n as [| n [IHc IHt]].
  - cbn. rewrite Z.add_0_r, Z.mod_small by lia. split; reflexivity.
  - change (Nat.iter (S n) advance st) with (advance (Nat.iter n advance st)).
    assert (0 <= currentFrame (Nat.iter n advance st) < totalFrames (Nat.iter n advance st)) as Hr.
    { rewrite IHc, IHt. apply Z.mod_pos_bound. lia. }
    destruct (advance_frame _ Hr) as [-> ->]. rewrite IHc, IHt. split; [|reflexivity].
    rewrite Zplus_mod_idemp_l. f_equal. lia.
Qed.

(** X10.  Playback from a frame in range: after [n] steps of the playback
    loop the frame is [(currentFrame + n) mod totalFrames], always in range,
    and after [totalFrames] steps the hook is back in the state it started
    from. *)
Theorem playback_cycles st n :
  0 <= currentFrame st < totalFrames st ->
  currentFrame (Nat.iter n advance st) = (currentFrame st + Z.of_nat n) mod totalFrames st
  /\ 0 <= currentFrame (Nat.iter n advance st) < totalFrames st
  /\ Nat.iter (Z.to_nat (totalFrames st)) advance st = st.
Proof.
  intros H. destruct (iter_advance n st H) as [Hc Ht].
  split; [exact Hc|]. split; [rewrite Hc; apply Z.mod_pos_bound; lia|].
  destruct (iter_advance (Z.to_nat (totalFrames st)) st H) as [Hc' Ht'].
  assert (forall k s, currentAnimation (Nat.iter k advance s) = currentAnimation s
                      /\ isPlaying (Nat.iter k advance s) = isPlaying s) as Hrest.
  { induction k as [| k IH]; intros s; [split; reflexivity|]. cbn. apply IH. }
  destruct (Hrest (Z.to_nat (totalFrames st)) st) as [Ha Hp].
  revert Hc' Ht' Ha Hp. generalize (Nat.iter (Z.to_nat (totalFrames st)) advance st).
  intros [a c t p]. destruct st as [a0 c0 t0 p0]. cbn in *. intros -> -> -> ->.
  f_equal. rewrite Z2Nat.id by lia.
  rewrite <- (Z.mul_1_l t0) at 1. rewrite Z.mod_add by lia. apply Z.mod_small. lia.
Qed.

Lemma playback_cycles_witness :
  0 <= currentFrame Fixture.midWalk < totalFrames Fixture.midWalk
  /\ currentFrame (Nat.iter 58 advance Fixture.midWalk) = 1
  /\ Nat.iter 60 advance Fixture.midWalk = Fixture.midWalk.
Proof.
  assert (0 <= currentFrame Fixture.midWalk < totalFrames Fixture.midWalk) as H
    by (cbn; lia).
  split; [exact H|].
  destruct (playback_cycles Fixture.midWalk 58 H) as (Hframe & _ & Hcycle).
  split; [rewrite Hframe; reflexivity | exact Hcycle].
Defined.

End Playback.

(* ===================================================================== *)
(** * Further properties of the frame editor *)
(* ===================================================================== *)

Section EditorSession.
Import FrameEditor.
Local Open Scope Z_scope.

(** ** Toggling a frame *)

(** Inside the list, [toggleFrame] replaces one entry. *)
Lemma toggleFrame_insert (frames : list Frame) i f :
  frames !! i = Some f -> toggleFrame i frames = Some (<[i := flip f]> frames).
Proof. intros H. unfold toggleFrame. rewrite H. reflexivity. Qed.

(** X11.  [toggleFrame] is defined exactly on the indices of the list, and
    toggling the same index twice gives back the list of frames as it was. *)
Theorem toggleFrame_twice_is_identity (frames : list Frame) (i : nat) :
  (toggleFrame i frames = None <-> (length frames <= i)%nat)
  /\ (forall frames', toggleFrame i frames = Some frames' ->
        toggleFrame i frames' = Some frames).
Proof.
  split.
  - unfold toggleFrame. destruct (frames !! i) as [f |] eqn:Hf; cbn.
    + apply lookup_lt_Some in Hf. split; [discriminate | lia].
    + apply lookup_ge_None in Hf. split; [intros _; exact Hf | reflexivity].
  - intros frames' H. destruct (frames !! i) as [f |] eqn:Hf.
    + rewrite (toggleFrame_insert frames i f Hf) in H. injection H as <-.
      pose proof (lookup_lt_Some _ _ _ Hf) as Hlt.
      rewrite (toggleFrame_insert _ i (flip f)) by (apply list_lookup_insert_eq; exact Hlt).
      f_equal. rewrite list_insert_insert_eq.
      apply list_insert_id. rewrite Hf. f_equal.
      destruct f as [? ? ? []]; reflexivity.
    + unfold toggleFrame in H. rewrite Hf in H. discriminate.
Qed.

(** X12.  Toggling the frame at index [i] changes the active frames in one
    place: the active frames before [i] and after [i] are the same, in the
    same order, and the frame itself is among them after the toggle
    exactly when it was not before. *)
Theorem toggleFrame_active_frames (frames : list Frame) i f frames' :
  frames !! i = Some f -> toggleFrame i frames = Some frames' ->
  getActiveFrames frames'
  = getActiveFrames (take i frames)
    ++ (if enabled f then [] else [flip f])
    ++ getActiveFrames (drop (S i) frames)
  /\ getActiveFrames frames
     = getActiveFrames (take i frames)
       ++ (if enabled f then [f] else [])
       ++ getActiveFrames (drop (S i) frames).
Proof.
  intros Hf Htoggle. rewrite (toggleFrame_insert frames i f Hf) in Htoggle.
  injection Htoggle as <-.
  pose proof (lookup_lt_Some _ _ _ Hf) as Hlt.
  rewrite insert_take_drop by exact Hlt.
  rewrite <- (take_drop_middle frames i f Hf) at 5.
  unfold getActiveFrames. rewrite !List.filter_app. cbn [List.filter flip enabled].
  destruct (enabled f); split; reflexivity.
Qed.

Lemma toggleFrame_active_frames_witness :
  Fixture.threeFrames !! 1%nat = Some (Fixture.frame "b" true)
  /\ exists frames',
       toggleFrame 1 Fixture.threeFrames = Some frames'
       /\ getActiveFrames frames' = [Fixture.frame "a" true; Fixture.frame "c" true].
Proof.
  split; [reflexivity|].
  exists [Fixture.frame "a" true; flip (Fixture.frame "b" true); Fixture.frame "c" true].
  split; [reflexivity|].
  exact (proj1 (toggleFrame_active_frames Fixture.threeFrames 1 (Fixture.frame "b" true)
                  _ eq_refl eq_refl)).
Defined.

(** ** Importing a folder *)

Lemma omap_imap_names (g : nat -> string -> option Frame) (p : string -> bool) :
  (forall i name,
     match g i name with
     | Some f => filename f = name /\ enabled f = true /\ p name = true
     | None => p name = false
     end) ->
  forall names,
    map filename (omap (fun loaded => loaded) (imap g names)) = List.filter p names
    /\ Forall (fun f => enabled f = true) (omap (fun loaded => loaded) (imap g names)).
Proof.
  intros Hg names. revert g Hg.
  induction names as [| name rest IH]; intros g Hg; [split; [reflexivity | constructor]|].
  rewrite imap_cons. cbn [omap list_omap List.filter].
  destruct (IH (g ∘ S) (fun i => Hg (S i))) as [IHn IHa].
  specialize (Hg 0%nat name). destruct (g 0%nat name) as [f |].
  - destruct Hg as (Hf & He & ->). cbn. rewrite Hf, IHn.
    split; [reflexivity | constructor; assumption].
  - rewrite Hg. split; assumption.
Qed.

Lemma StronglySorted_filter_list {A} (R : A -> A -> Prop) (p : A -> bool) l :
  StronglySorted R l -> StronglySorted R (List.filter p l).
Proof.
  induction 1 as [| x l Hl IH Hall]; cbn; [constructor|].
  destruct (p x); [|exact IH]. constructor; [exact IH|].
  rewrite Forall_forall in Hall |- *. intros y Hy.
  apply Hall. apply list_elem_of_In in Hy. apply filter_In in Hy as [Hy _].
  apply list_elem_of_In. exact Hy.
Qed.

Lemma StronglySorted_map_inv {A B} (R : B -> B -> Prop) (f : A -> B) l :
  StronglySorted R (map f l) -> StronglySorted (fun a b => R (f a) (f b)) l.
Proof.
  induction l as [| x l IH]; cbn; [constructor|].
  intros H. apply StronglySorted_inv in H as [Hl Hall].
  constructor; [apply IH, Hl|].
  apply Forall_forall. intros y Hy.
  apply (proj1 (Forall_forall _ _) Hall).
  apply list_elem_of_In, in_map, list_elem_of_In, Hy.
Qed.

(** X13.  The frames loaded from a folder are, in order, the PNG files whose
    image could be read and decoded: an unreadable file is skipped and does
    not stop the import.  Every loaded frame is enabled, there are at most
    as many as PNG files, and they are in ascending order of the double
    nearest to the first integer in their file names. *)
Theorem loadFrames_follow_the_readable_files read now folder files :
  map filename (loadFrames read now folder files)
  = List.filter (fun name => bool_decide (is_Some (read (filePath folder name))))
      (imageFiles files)
  /\ Forall (fun f => enabled f = true) (loadFrames read now folder files)
  /\ (length (loadFrames read now folder files) <= length (imageFiles files))%nat
  /\ StronglySorted (fun a b => (frameKey (filename a) <= frameKey (filename b))%Z)
       (loadFrames read now folder files)
  /\ (forall name, frameKey name = JsNum.rank (JsNum.toNumber (firstInteger name))).
Proof.
  unfold loadFrames.
  match goal with
  | |- context [imap ?g (imageFiles files)] =>
      destruct (omap_imap_names g
                  (fun name => bool_decide (is_Some (read (filePath folder name))))) with
        (names := imageFiles files) as [Hn Ha]
  end.
  { intros i name. destruct (read (filePath folder name)) as [[[d w] h] |]; cbn.
    - repeat split; reflexivity.
    - reflexivity. }
  split; [exact Hn|]. split; [exact Ha|]. split; [|split].
  - etransitivity; [|apply (List.filter_length_le
        (fun name => bool_decide (is_Some (read (filePath folder name)))))].
    rewrite <- Hn, List.length_map. reflexivity.
  - apply (StronglySorted_map_inv (fun a b => (frameKey a <= frameKey b)%Z) filename).
    rewrite Hn.
    apply StronglySorted_filter_list, (sort_sorted frameKey), compareFiles_key.
  - intros name. unfold frameKey. rewrite frameNumber_firstInteger. reflexivity.
Qed.

Ltac settle :=
  cbn; repeat split; try reflexivity; try discriminate;
  try (intros [? ?]; discriminate).

(** X14.  [importFramesFromFolder] always ends with [isLoading] false and
    never touches the playback settings.  It replaces the frames, and
    rewinds to frame 0, only when at least one frame was loaded; on every
    other outcome (no file system, no folder chosen, no PNG file, nothing
    readable, a rejected call) the frames and the current frame stay as they
    were.  The missing file system is reported exactly when neither API
    can select a directory. *)
Theorem import_replaces_frames_only_on_success w decode now st :
  let result := importFramesFromFolder w decode now st in
  isLoading (snd result) = false
  /\ isPlaying (snd result) = isPlaying st /\ fps (snd result) = fps st
  /\ (forall n, fst result = Imported n ->
        (0 < n)%nat /\ n = length (frames (snd result))
        /\ currentFrame (snd result) = 0%Z
        /\ exists folder files,
             frames (snd result) = loadFrames (readFrame w decode) now folder files)
  /\ ((forall n, fst result <> Imported n) ->
        frames (snd result) = frames st /\ currentFrame (snd result) = currentFrame st)
  /\ (fst result = NoFileSystem <->
        selector (electron w) = None /\ selector (electronAPI w) = None).
Proof.
  cbn zeta. unfold importFramesFromFolder.
  destruct (selector (electron w)) as [p1 |] eqn:H1,
           (selector (electronAPI w)) as [p2 |] eqn:H2.
  4: { settle. }
  all: cbn [default].
  all: match goal with
       | |- context [match ?p with Rejected _ => _ | Resolved _ => _ end] =>
           destruct p as [reason | chosen]
       end.
  all: try (settle; fail).
  all: destruct (JsNum.truthy chosen) as [folder |].
  all: try (settle; fail).
  all: destruct (match directoryReader w with
                 | Some read => read folder | None => Resolved [] end) as [reason | files].
  all: try (settle; fail).
  all: destruct (Nat.eqb_spec (length (imageFiles files)) 0).
  all: try (settle; fail).
  all: destruct (Nat.eqb_spec (length (loadFrames (readFrame w decode) now folder files)) 0).
  all: try (settle; fail).
  all: settle;
       try (intros k [= <-]; lia); try (intros k [= <-]; reflexivity);
       try (intros k [= <-]; eauto);
       try (intros H; contradiction (H _ eq_refl)).
  all: try (match goal with
            | H : Imported _ = Imported _ |- _ => injection H as <-
            end; first [lia | reflexivity | eauto]).
  all: match goal with
       | H : forall n, _ <> Imported n |- _ => contradiction (H _ eq_refl)
       end.
Qed.

(** ** The sheet and the preview *)

Lemma map_imap_data (g : nat -> Frame -> Draw) l :
  (forall i f, draw_data (g i f) = data f) ->
  map draw_data (imap g l) = map data l.
Proof.
  revert g. induction l as [| x l IH]; intros g Hg; [reflexivity|].
  rewrite imap_cons. cbn [map]. rewrite Hg. f_equal.
  apply IH. intros i f. apply Hg.
Qed.

(** X15.  The frame editor shows [No active frames to export] exactly
    when no frame is enabled.  It hands a sheet to the download link
    exactly when a frame is enabled, the new canvas gives a 2D context,
    and every enabled frame loads without tainting the canvas; the sheet
    then holds the images of the enabled frames, in order, and its cells
    all have the size of the first enabled frame: a frame of another size
    is drawn scaled into a cell of that size.  Without a 2D context the
    export fails with [Could not get canvas context]; with one, it fails at
    the first enabled frame whose image does not load, naming its index
    among the enabled frames. *)
Theorem editor_sheet_draws_the_enabled_frames b frames :
  (exportAsSpriteSheet b frames = NoActiveFrames <-> getActiveFrames frames = [])
  /\ ((exists sheet, exportAsSpriteSheet b frames = SheetExported sheet)
      <-> getActiveFrames frames <> [] /\ canvasContext b = true
          /\ forall f, In f (getActiveFrames frames) -> loadImage b (data f) = Loaded false)
  /\ (forall sheet first rest,
       exportAsSpriteSheet b frames = SheetExported sheet ->
       getActiveFrames frames = first :: rest ->
       map draw_data (draws sheet) = map data (getActiveFrames frames)
       /\ canvas_width sheet = width first * Z.of_nat (length (draws sheet))
       /\ canvas_height sheet = height first
       /\ forall i d, draws sheet !! i = Some d ->
            draw_x d = Z.of_nat i * width first /\ draw_y d = 0
            /\ draw_width d = width first /\ draw_height d = height first)
  /\ (getActiveFrames frames <> [] -> canvasContext b = false ->
      exportAsSpriteSheet b frames = ExportFailed "Could not get canvas context")
  /\ (forall i f,
       canvasContext b = true ->
       getActiveFrames frames !! i = Some f -> loadImage b (data f) = LoadError ->
       (forall j g, (j < i)%nat -> getActiveFrames frames !! j = Some g ->
          loadImage b (data g) <> LoadError) ->
       exportAsSpriteSheet b frames
       = ExportFailed ("Failed to load frame " +:+ pretty i)).
Proof.
  split; [|split; [|split; [|split]]].
  - unfold exportAsSpriteSheet.
    destruct (getActiveFrames frames) as [| first rest]; [split; reflexivity|].
    cbn zeta. split; [|discriminate].
    destruct (negb (canvasContext b)); [discriminate|].
    destruct (drawFrames _ _ _ _ _); [discriminate|].
    destruct (existsb _ _); discriminate.
  - split.
    + intros [sheet Hsheet].
      apply exportAsSpriteSheet_exported in Hsheet
        as (first & rest & Hactive & _ & Hctx & Hloads).
      rewrite Hactive. split; [discriminate|]. split; [exact Hctx | exact Hloads].
    + intros (Hsome & Hctx & Hloads).
      destruct (getActiveFrames frames) as [| first rest] eqn:Hactive; [congruence|].
      eexists. apply (exportAsSpriteSheet_strip b frames first rest Hactive Hctx Hloads).
  - intros sheet first rest Hsheet Hactive.
    apply exportAsSpriteSheet_exported in Hsheet
      as (first' & rest' & Hactive' & -> & _ & _).
    rewrite Hactive in Hactive'. injection Hactive' as <- <-.
    cbn [draws canvas_width canvas_height].
    rewrite Hactive. split; [|split; [|split]].
    + apply map_imap_data. intros i f. reflexivity.
    + rewrite length_imap. reflexivity.
    + reflexivity.
    + intros i d Hd. rewrite list_lookup_imap in Hd.
      destruct ((first :: rest) !! i); [|discriminate].
      injection Hd as <-. repeat split; reflexivity.
  - intros Hsome Hctx. unfold exportAsSpriteSheet.
    destruct (getActiveFrames frames) as [| first rest]; [congruence|].
    cbn zeta. rewrite Hctx. reflexivity.
  - intros i f Hctx Hi Hload Hbefore. unfold exportAsSpriteSheet.
    destruct (getActiveFrames frames) as [| first rest] eqn:Hactive; [discriminate|].
    cbn zeta. rewrite Hctx. cbn [negb].
    rewrite (drawFrames_inl b (width first) (height first) (first :: rest) 0%nat i f
               Hi Hload Hbefore).
    reflexivity.
Qed.

(** The three endings on three enabled frames of 10 by 10. *)
Example editor_sheet_endings :
  exportAsSpriteSheet Fixture.soundBrowser Fixture.threeFrames
  = SheetExported (mkSheet 30 10 [mkDraw "data" 0 0 10 10; mkDraw "data" 10 0 10 10;
                                  mkDraw "data" 20 0 10 10])
  /\ exportAsSpriteSheet Fixture.blindBrowser Fixture.threeFrames
     = ExportFailed "Could not get canvas context"
  /\ exportAsSpriteSheet Fixture.brokenBrowser Fixture.threeFrames
     = ExportFailed "Failed to load frame 0".
Proof. repeat split; reflexivity. Qed.

(** X16.  The previous and next buttons of the editor page do nothing when no
    frame is active; with active frames they lead to an index of an active
    frame from any index that is not negative; and from an index in range
    they undo each other. *)
Theorem page_stepping_stays_in_range st :
  let n := Z.of_nat (length (getActiveFrames (frames st))) in
  (n = 0 -> handleNextFrame st = st /\ handlePreviousFrame st = st)
  /\ (0 <= currentFrame st -> 0 < n ->
        0 <= currentFrame (handleNextFrame st) < n
        /\ 0 <= currentFrame (handlePreviousFrame st) < n)
  /\ (0 <= currentFrame st < n ->
        handlePreviousFrame (handleNextFrame st) = st
        /\ handleNextFrame (handlePreviousFrame st) = st).
Proof.
  cbn zeta. unfold handleNextFrame, handlePreviousFrame.
  destruct st as [fr ld cur pl sp]. cbn [frames currentFrame setCurrentFrame].
  set (n := Z.of_nat (length (getActiveFrames fr))).
  split; [|split].
  - intros ->. split; reflexivity.
  - intros Hcur Hn. destruct (Z.eqb_spec n 0); [lia|]. cbn [currentFrame].
    rewrite !Z.rem_mod_nonneg by lia.
    split; apply Z.mod_pos_bound; lia.
  - intros Hrange. destruct (Z.eqb_spec n 0); [lia|].
    cbn [frames currentFrame setCurrentFrame]. fold n.
    destruct (Z.eqb_spec n 0); [lia|].
    rewrite (Z.rem_mod_nonneg (cur + 1) n), (Z.rem_mod_nonneg (cur - 1 + n) n) by lia.
    pose proof (Z.mod_pos_bound (cur + 1) n ltac:(lia)).
    pose proof (Z.mod_pos_bound (cur - 1 + n) n ltac:(lia)).
    rewrite !Z.rem_mod_nonneg by lia.
    unfold setCurrentFrame. cbn [frames isLoading currentFrame isPlaying fps].
    split; f_equal.
    + destruct (Z.eq_dec cur (n - 1)) as [-> | ?].
      * replace (n - 1 + 1) with (1 * n) by lia. rewrite Z.mod_mul by lia.
        replace (0 - 1 + n) with (n - 1) by lia. apply Z.mod_small. lia.
      * rewrite (Z.mod_small (cur + 1)) by lia.
        replace (cur + 1 - 1 + n) with (cur + 1 * n) by lia.
        rewrite Z.mod_add by lia. apply Z.mod_small. lia.
    + destruct (Z.eq_dec cur 0) as [-> | ?].
      * replace (0 - 1 + n) with (n - 1) by lia. rewrite (Z.mod_small (n - 1)) by lia.
        replace (n - 1 + 1) with (1 * n) by lia. apply Z.mod_mul. lia.
      * replace (cur - 1 + n) with (cur - 1 + 1 * n) by lia.
        rewrite Z.mod_add by lia. rewrite (Z.mod_small (cur - 1)) by lia.
        replace (cur - 1 + 1) with cur by lia. apply Z.mod_small. lia.
Qed.

(** X17.  [toggleFrame] does not move [currentFrame].  When the preview is on
    the last active frame and an enabled frame is disabled, [currentFrame]
    is left one past the last active frame and the page has no current
    frame to show; as long as some frame is still active, the next button
    brings it back in range. *)
Theorem disabling_can_strand_the_current_frame st i f :
  frames st !! i = Some f -> enabled f = true ->
  currentFrame st = Z.of_nat (length (getActiveFrames (frames st))) - 1 ->
  exists st',
    toggle i st = Some st'
    /\ currentFrame st' = Z.of_nat (length (getActiveFrames (frames st')))
    /\ currentActiveFrame st' = None
    /\ (getActiveFrames (frames st') <> [] ->
        is_Some (currentActiveFrame (handleNextFrame st'))).
Proof.
  intros Hf Hen Hcur.
  destruct (toggle_active_length (frames st) i f Hf) as (frames' & Htoggle & _ & Hactive).
  rewrite Hen in Hactive.
  unfold toggle. rewrite Htoggle. cbn [mbind option_bind]. eexists. split; [reflexivity|].
  cbn [frames currentFrame].
  assert (currentFrame st = Z.of_nat (length (getActiveFrames frames'))) as Hcur' by lia.
  split; [exact Hcur'|]. split.
  - unfold currentActiveFrame. cbn [frames currentFrame].
    destruct (Z.ltb_spec (currentFrame st) 0); [reflexivity|].
    apply lookup_ge_None. lia.
  - intros Hne. unfold handleNextFrame, currentActiveFrame.
    cbn [frames currentFrame setCurrentFrame].
    set (n := Z.of_nat (length (getActiveFrames frames'))) in *.
    assert (0 < n) by (destruct (getActiveFrames frames'); [contradiction | cbn in n; lia]).
    destruct (Z.eqb_spec n 0); [lia|]. unfold setCurrentFrame. cbn [frames currentFrame].
    rewrite Z.rem_mod_nonneg by lia.
    pose proof (Z.mod_pos_bound (currentFrame st + 1) n ltac:(lia)).
    destruct (Z.ltb_spec ((currentFrame st + 1) mod n) 0); [lia|].
    apply lookup_lt_is_Some. lia.
Qed.

Lemma disabling_can_strand_the_current_frame_witness :
  frames Fixture.editorAtLastFrame !! 0%nat = Some (Fixture.frame "a" true)
  /\ currentFrame Fixture.editorAtLastFrame
     = Z.of_nat (length (getActiveFrames (frames Fixture.editorAtLastFrame))) - 1
  /\ exists st',
       toggle 0 Fixture.editorAtLastFrame = Some st'
       /\ currentFrame st' = 2
       /\ length (getActiveFrames (frames st')) = 2%nat
       /\ currentActiveFrame st' = None.
Proof.
  split; [reflexivity|]. split; [reflexivity|].
  destruct (disabling_can_strand_the_current_frame Fixture.editorAtLastFrame 0
              (Fixture.frame "a" true) eq_refl eq_refl eq_refl)
    as (st' & Htoggle & Hcur & Hnone & _).
  exists st'. split; [exact Htoggle|].
  cbn in Htoggle. injection Htoggle as <-.
  split; [reflexivity|]. split; [reflexivity | exact Hnone].
Defined.

Lemma findIndex_lookup (l : list Frame) k f :
  NoDup (map id l) -> l !! k = Some f -> findIndex (id f) l = Some k.
Proof.
  revert k. induction l as [| x l IH]; intros k Hnd Hk; [discriminate|].
  apply NoDup_cons in Hnd as [Hx Hnd]. destruct k as [| k]; cbn in Hk |- *.
  - injection Hk as ->. rewrite String.eqb_refl. reflexivity.
  - destruct (String.eqb_spec (id x) (id f)) as [Heq | _].
    + contradiction Hx. rewrite Heq. apply list_elem_of_In, in_map, list_elem_of_In.
      eapply list_elem_of_lookup_2, Hk.
    + rewrite (IH k Hnd Hk). reflexivity.
Qed.

Lemma NoDup_active_ids (l : list Frame) :
  NoDup (map id l) -> NoDup (map id (getActiveFrames l)).
Proof.
  induction l as [| x l IH]; cbn; [intros; constructor|].
  intros Hnd. apply NoDup_cons in Hnd as [Hx Hnd].
  destruct (enabled x); [|apply IH, Hnd]. cbn. apply NoDup_cons. split; [|apply IH, Hnd].
  intros Hin. apply Hx. apply list_elem_of_In in Hin. apply list_elem_of_In.
  apply in_map_iff in Hin as (y & Hy & Hin). apply in_map_iff. exists y.
  split; [exact Hy|]. apply filter_In in Hin. tauto.
Qed.

(** X18.  When the frames have distinct ids, a click on an enabled frame of
    the timeline makes that frame the one shown; a click on a disabled
    frame changes nothing. *)
Theorem selectFrame_shows_the_clicked_frame st frame :
  NoDup (map id (frames st)) -> In frame (frames st) ->
  (enabled frame = true -> currentActiveFrame (selectFrame frame st) = Some frame)
  /\ (enabled frame = false -> selectFrame frame st = st).
Proof.
  intros Hnd Hin. unfold selectFrame. split; intros Hen; rewrite Hen; [|reflexivity].
  assert (frame ∈ getActiveFrames (frames st)) as Hact.
  { apply list_elem_of_In, filter_In. split; assumption. }
  apply list_elem_of_lookup in Hact as [k Hk].
  rewrite (findIndex_lookup _ k frame (NoDup_active_ids _ Hnd) Hk).
  unfold currentActiveFrame. cbn [frames currentFrame setCurrentFrame].
  destruct (Z.ltb_spec (Z.of_nat k) 0); [lia|]. rewrite Nat2Z.id. exact Hk.
Qed.

Lemma selectFrame_shows_the_clicked_frame_witness :
  NoDup (map id (frames Fixture.editorAtLastFrame))
  /\ In (Fixture.frame "b" true) (frames Fixture.editorAtLastFrame)
  /\ currentActiveFrame (selectFrame (Fixture.frame "b" true) Fixture.editorAtLastFrame)
     = Some (Fixture.frame "b" true).
Proof.
  assert (NoDup (map id (frames Fixture.editorAtLastFrame))) as Hnd.
  { cbn. repeat (apply NoDup_cons; split;
                 [rewrite ?elem_of_cons, elem_of_nil; intros H;
                  repeat destruct H as [H | H]; discriminate || contradiction|]).
    apply NoDup_nil_2. }
  assert (In (Fixture.frame "b" true) (frames Fixture.editorAtLastFrame)) as Hin
    by (right; left; reflexivity).
  split; [exact Hnd|]. split; [exact Hin|].
  exact (proj1 (selectFrame_shows_the_clicked_frame Fixture.editorAtLastFrame
                  (Fixture.frame "b" true) Hnd Hin) eq_refl).
Defined.

End EditorSession.

(* ===================================================================== *)
(** * Further properties of the export orchestrator *)
(* ===================================================================== *)

Section FolderAndNames.
Import Orchestrator.

Lemma sanitize_char_safe c : hostile (if hostile c then "_"%char else c) = false.
Proof. destruct (hostile c) eqn:H; [reflexivity | exact H]. Qed.

(** X19.  The sanitised animation name has the length of the name, holds
    none of the nine characters that the replacement targets, and is the
    name itself when the name has none of them; sanitising twice is
    sanitising once. *)
Theorem sanitize_makes_names_safe s :
  String.length (sanitize s) = String.length s
  /\ Forall (fun c => hostile c = false) (list_ascii_of_string (sanitize s))
  /\ sanitize (sanitize s) = sanitize s
  /\ (Forall (fun c => hostile c = false) (list_ascii_of_string s) -> sanitize s = s).
Proof.
  induction s as [| c rest (Hlen & Hsafe & Hidem & Hid)]; cbn [sanitize].
  - repeat split; try reflexivity. constructor.
  - repeat split.
    + cbn [String.length]. rewrite Hlen. reflexivity.
    + cbn [list_ascii_of_string]. constructor; [apply sanitize_char_safe | exact Hsafe].
    + rewrite sanitize_char_safe, Hidem. reflexivity.
    + cbn [list_ascii_of_string]. intros Hall. apply Forall_cons in Hall as [-> Hrest].
      rewrite (Hid Hrest). reflexivity.
Qed.

(** X20.  [selectOutputFolder] shows one toast and never changes the width,
    the height or the render steps.  When the toast is destructive the
    output folder is unchanged; when it is not, the output folder is the
    non-empty path that one of the three dialogs resolved to, and the toast
    shows it.  When every dialog is missing or is cancelled, the toast is
    the error that no selection method is available; when the first dialog
    rejects, its reason is reported and the other dialogs are not tried. *)
Theorem selectOutputFolder_outcome d cfg :
  let cfg' := fst (selectOutputFolder d cfg) in
  let shown := snd (selectOutputFolder d cfg) in
  (width cfg' = width cfg /\ height cfg' = height cfg
   /\ renderSteps cfg' = renderSteps cfg)
  /\ (if destructive shown then cfg' = cfg
      else title shown = "Output folder selected"%string
           /\ description shown <> ""%string
           /\ outputFolder cfg' = Some (description shown)
           /\ In (Some (FrameEditor.Resolved (Some (description shown))))
                [electron_selectDirectory d; electronAPI_selectDirectory d;
                 electronAPI_openFileDialog d])
  /\ (cancelled (electron_selectDirectory d) ->
      cancelled (electronAPI_selectDirectory d) ->
      cancelled (electronAPI_openFileDialog d) ->
      cfg' = cfg
      /\ shown = mkToast "Error"
           "Failed to select output folder: No working directory selection method available"
           true)
  /\ (forall reason, electron_selectDirectory d = Some (FrameEditor.Rejected reason) ->
      cfg' = cfg
      /\ shown = mkToast "Error" ("Failed to select output folder: " +:+ reason) true).
Proof.
  cbn zeta. unfold selectOutputFolder.
  split; [|split; [|split]].
  - destruct (electron_selectDirectory d) as [[? | [[| ? ?] |]] |],
      (electronAPI_selectDirectory d) as [[? | [[| ? ?] |]] |],
      (electronAPI_openFileDialog d) as [[? | [[| ? ?] |]] |]; cbn; repeat split.
  - destruct (electron_selectDirectory d) as [[? | [[| ? ?] |]] |],
      (electronAPI_selectDirectory d) as [[? | [[| ? ?] |]] |],
      (electronAPI_openFileDialog d) as [[? | [[| ? ?] |]] |]; cbn;
      try reflexivity; (repeat split; [discriminate | tauto]).
  - unfold cancelled. intros [-> | [-> | ->]] [-> | [-> | ->]] [-> | [-> | ->]];
      cbn; split; reflexivity.
  - intros reason ->. cbn. split; reflexivity.
Qed.

End FolderAndNames.


(* ===================================================================== *)
(** * Further properties of the multi-angle controller *)
(* ===================================================================== *)

Section Selection.
Import Eff Orchestrator MultiExport.

Lemma includes_In key l : includes key l = true <-> In key l.
Proof.
  unfold includes. rewrite existsb_exists. split.
  - intros (x & Hin & Heq). apply String.eqb_eq in Heq. subst. exact Hin.
  - intros Hin. exists key. split; [exact Hin | apply String.eqb_refl].
Qed.

Lemma filter_absent key (l : list string) :
  ~ In key l -> List.filter (fun a => negb (String.eqb a key)) l = l.
Proof.
  induction l as [| x l IH]; [reflexivity|]. intros Hnot. cbn.
  destruct (String.eqb_spec x key) as [-> | _]; [contradiction Hnot; left; reflexivity|].
  cbn. rewrite IH; [reflexivity|]. intros Hin. apply Hnot. right. exact Hin.
Qed.

Lemma NoDup_List_filter {A} (f : A -> bool) (l : list A) :
  NoDup l -> NoDup (List.filter f l).
Proof.
  induction l as [| x l IH]; cbn; [intros; constructor|].
  intros Hnd. apply NoDup_cons in Hnd as [Hx Hnd].
  destruct (f x); [|apply IH, Hnd]. apply NoDup_cons. split; [|apply IH, Hnd].
  intros Hin. apply Hx. apply list_elem_of_In in Hin. apply list_elem_of_In.
  apply filter_In in Hin. tauto.
Qed.

Lemma toggleAngle_present key prev :
  In key prev ->
  toggleAngle key prev = List.filter (fun a => negb (String.eqb a key)) prev.
Proof.
  intros Hin. unfold toggleAngle. apply includes_In in Hin. rewrite Hin. reflexivity.
Qed.

Lemma toggleAngle_absent key prev :
  ~ In key prev -> toggleAngle key prev = prev ++ [key].
Proof.
  intros Hnot. unfold toggleAngle. destruct (includes key prev) eqn:Hinc; [|reflexivity].
  apply includes_In in Hinc. contradiction.
Qed.

(** X26.  [toggleAngle] flips the membership of its key and of no other
    angle, and keeps a selection without duplicates free of them.  Toggling
    twice an angle that was not selected gives back the selection;
    toggling twice one that was selected moves it to the end, which is
    the position at which it will be exported. *)
Theorem toggleAngle_flips_membership key prev :
  (In key (toggleAngle key prev) <-> ~ In key prev)
  /\ (forall a, a <> key -> (In a (toggleAngle key prev) <-> In a prev))
  /\ (NoDup prev -> NoDup (toggleAngle key prev))
  /\ (~ In key prev -> toggleAngle key (toggleAngle key prev) = prev)
  /\ (In key prev ->
      toggleAngle key (toggleAngle key prev)
      = List.filter (fun a => negb (String.eqb a key)) prev ++ [key]).
Proof.
  assert (~ In key (List.filter (fun a => negb (String.eqb a key)) prev)) as Hgone.
  { intros Hin. apply filter_In in Hin as [_ Hne]. rewrite String.eqb_refl in Hne.
    discriminate. }
  destruct (includes key prev) eqn:Hinc.
  - apply includes_In in Hinc. rewrite (toggleAngle_present key prev Hinc).
    rewrite (toggleAngle_absent key _ Hgone). repeat split.
    + intros Hin. contradiction.
    + intros Hnot. contradiction.
    + intros Hin. apply filter_In in Hin. tauto.
    + intros Hin. apply filter_In. split; [exact Hin|].
      destruct (String.eqb_spec a key); [contradiction | reflexivity].
    + intros Hnd. apply NoDup_List_filter. exact Hnd.
    + intros Hnot. contradiction.
  - assert (~ In key prev) as Hnot.
    { intros Hin. apply includes_In in Hin. congruence. }
    rewrite (toggleAngle_absent key prev Hnot).
    rewrite (toggleAngle_present key (prev ++ [key]))
      by (apply in_or_app; right; left; reflexivity).
    repeat split.
    + intros _. exact Hnot.
    + intros _. apply in_or_app. right. left. reflexivity.
    + intros Hin. apply in_app_or in Hin as [Hin | [Heq | []]]; [exact Hin | congruence].
    + intros Hin. apply in_or_app. left. exact Hin.
    + intros Hnd. apply NoDup_app. repeat split; [exact Hnd | | apply NoDup_singleton].
      intros x Hx Hin. apply list_elem_of_In in Hin as [-> | []].
      apply Hnot. apply list_elem_of_In. exact Hx.
    + intros _.
      rewrite List.filter_app, (filter_absent key prev Hnot). cbn.
      rewrite String.eqb_refl. cbn. apply app_nil_r.
    + intros Hin. contradiction.
Qed.

(** X27.  The export button is enabled exactly when the status badge reads
    ready and the animation has at least one frame: with a frame count of
    zero the badge reads ready while the button is disabled. *)
Theorem canExport_iff_ready props angles :
  canExport props angles = true
  <-> getStatusInfo props angles = Ready /\ (0 < totalFrames props)%Z.
Proof.
  unfold canExport, getStatusInfo.
  destruct (hasCalibration props), (isFrontFaceSet props),
    (bool_decide (is_Some (JsNum.truthy (outputFolder props)))),
    (bool_decide (is_Some (JsNum.truthy (currentAnimation props))));
    cbn [andb negb]; try (split; [discriminate | intros [? _]; discriminate]).
  destruct (Z.ltb_spec 0 (totalFrames props)), angles as [| a rest]; cbn;
    split; try discriminate; try tauto; try (intros [? ?]; first [discriminate | lia]).
Qed.

(** X28.  Whether the two callbacks resolve or reject with an error,
    [handleExport] never rejects.  When the export is not enabled it changes
    nothing; when it is, it ends with [isExporting] false, the progress at 0
    and no current angle, on a toast that announces the end of the export or
    its error. *)
Theorem handleExport_always_settles props angles s :
  let run := handleExport props angles s in
  fst run = inr tt
  /\ (canExport props angles = false -> snd run = s)
  /\ (canExport props angles = true ->
      isExporting (snd run) = false
      /\ exportProgress (snd run) = 0%Q
      /\ currentAngle (snd run) = None
      /\ exists shown,
           List.last (trace (snd run)) (RotateToAngle "") = Notify shown
           /\ In (title shown) ["Export terminé"; "Erreur d'export"]%string).
Proof.
  cbn zeta. unfold handleExport.
  destruct (canExport props angles); cbn [negb];
    [| split; [reflexivity | split; [reflexivity | discriminate]]].
  match goal with
  | |- context [for_each ?body 0%nat angles] => generalize (for_each body 0%nat angles)
  end.
  intros loop.
  unfold try_finally, try_catch, setExporting, setExportProgress, setCurrentAngle,
    toast, log, modify.
  unfold mbind, M_bind. cbn [fst snd].
  match goal with
  | |- context [loop ?st] => destruct (loop st) as [[e | []] s1]
  end; cbn [fst snd trace isExporting exportProgress currentAngle];
    (split; [reflexivity|]; split; [discriminate|]; intros _; repeat split;
     eexists; rewrite last_last; split; [reflexivity|]; cbn; tauto).
Qed.

End Selection.

(* ===================================================================== *)
(** * Further properties of the render capture *)
(* ===================================================================== *)

Section CameraFit.
Import Capture.

(** X29.  Fitting the camera to the export aspect changes the aspect of
    a perspective camera and the left and right planes of an orthographic
    one, and nothing else: the position, the rotation, the zoom and the
    class of the camera are kept; a perspective camera keeps its field of
    view and clipping planes; an orthographic camera keeps its top, bottom
    and clipping planes; a camera of another class is left alone. *)
Theorem fitCamera_changes_only_the_width aspectRatio c :
  position (fitCamera aspectRatio c) = position c
  /\ rotation (fitCamera aspectRatio c) = rotation c
  /\ zoom (fitCamera aspectRatio c) = zoom c
  /\ sameCameraClass c (fitCamera aspectRatio c) = true
  /\ match projection c, projection (fitCamera aspectRatio c) with
     | PerspectiveCamera _ fov far near, fitted =>
         fitted = PerspectiveCamera aspectRatio fov far near
     | OrthographicCamera l r t b far near, OrthographicCamera l' r' t' b' far' near' =>
         t' = t /\ b' = b /\ far' = far /\ near' = near
     | OtherCamera, fitted => fitted = OtherCamera
     | _, _ => False
     end.
Proof.
  destruct c as [p rot z [aspect fov far near | l r t b far near |]]; cbn;
    repeat split; reflexivity.
Qed.

Lemma renderFrame_copies_whole_canvas_witness :
  exists raster,
    fst (renderFrame Fixture.soundPlatform 128 64 0 Fixture.theWorld) = inr raster
    /\ raster_source raster = mkRect 0 0 128 64.
Proof.
  exists (mkRaster 128 64 (mkRect 0 0 128 64)). split; [reflexivity|].
  exact (f_equal raster_source
           (renderFrame_copies_whole_canvas Fixture.soundPlatform 128 64 0
              Fixture.theWorld (mkRaster 128 64 (mkRect 0 0 128 64)) eq_refl)).
Defined.

End CameraFit.
